(** * IPL analytics dashboard (app.py): data preparation and aggregation

    A shallow embedding of the loader [load_data] and of the aggregation
    expressions of the dashboard pages, together with the pandas primitives
    they are made of ([read_csv], column selection, [fillna], [merge],
    boolean indexing, [value_counts], [groupby(...).size()], [head],
    [unique], [nunique]) and Python's [sorted] and true division. *)

From Stdlib Require Import List String Ascii ZArith QArith Bool Arith Lia
  Permutation Sorted SpecFloat.
Import ListNotations.
Close Scope Q_scope.
Local Open Scope string_scope.
Local Open Scope nat_scope.
Local Open Scope list_scope.

Set Implicit Arguments.

(* ================================================================== *)
(** * Values *)

(** A cell of a table read from a CSV file: a missing value ([NaN], which is
    what [read_csv] produces for an empty field), a string, or the number
    of an integer field.  In a column that also has missing values pandas
    holds the numbers as floats; the cell then stands for the float of that
    integer value.  Fields with a decimal point are not represented. *)
Inductive cell : Type :=
| NaN
| Str (s : string)
| Num (z : Z).

Definition Series := list cell.

(** Python exceptions the modelled code can raise; all of them are
    subclasses of [Exception]. *)
Inductive exn : Type :=
| FileNotFoundError (path : string)
| ParserError (path : string)
| KeyError (key : string)
| TypeError
| ValueError
| MergeError
| OverflowError
| ZeroDivisionError.

Inductive result (A : Type) : Type :=
| Ok (a : A)
| Raise (e : exn).
Arguments Ok {A} a.
Arguments Raise {A} e.

Definition rbind {A B} (r : result A) (k : A -> result B) : result B :=
  match r with
  | Ok a => k a
  | Raise e => Raise e
  end.

Declare Scope result_scope.
Delimit Scope result_scope with result.
Notation "x <- c ;; k" := (rbind c (fun x => k))
  (at level 61, c at next level, right associativity) : result_scope.

(** Structural equality of cells.  It is the equality of hash-table keys
    and of merge keys: there two missing values are equal. *)
Definition cell_eqb (a b : cell) : bool :=
  match a, b with
  | NaN, NaN => true
  | Str s, Str t => String.eqb s t
  | Num x, Num y => Z.eqb x y
  | _, _ => false
  end.

(** Elementwise [==] of pandas: a missing value equals nothing, not even
    another missing value. *)
Definition py_eq (a b : cell) : bool :=
  match a, b with
  | Str s, Str t => String.eqb s t
  | Num x, Num y => Z.eqb x y
  | _, _ => false
  end.

Definition isna (c : cell) : bool :=
  match c with
  | NaN => true
  | _ => false
  end.

Definition notna (c : cell) : bool := negb (isna c).

(** [Series.fillna(value)] on one cell. *)
Definition fill (value c : cell) : cell := if isna c then value else c.

(** The test for a string cell, and for a number. *)
Definition is_strb (c : cell) : bool :=
  match c with
  | Str _ => true
  | _ => false
  end.

Definition is_numb (c : cell) : bool :=
  match c with
  | Num _ => true
  | _ => false
  end.

(** The dtypes [read_csv] gives the columns of such a table. *)
Inductive dtype : Type :=
| int64
| float64
| object.

(** The dtype of a column, from its cells, as [read_csv] infers it: a
    column of integers is [int64]; missing values make it [float64]; a
    string makes it [object]; so is a column without rows. *)
Definition dtype_of (s : Series) : dtype :=
  match s with
  | [] => object
  | _ :: _ =>
      if existsb is_strb s then object
      else if existsb isna s then float64
      else int64
  end.

(** The float64 nearest to an integer (ties to even), as an integer: the
    conversion of an int64 value to float64.  Integers of up to 53 bits are
    kept; a longer one is rounded to 53 significant bits. *)
Definition to_float64 (z : Z) : Z :=
  let a := Z.abs z in
  let sh := (Z.log2 a - 52)%Z in
  if (sh <=? 0)%Z then z
  else
    let q := Z.shiftr a sh in
    let r := (a - Z.shiftl q sh)%Z in
    let half := Z.shiftl 1 (sh - 1) in
    let q' :=
      if (half <? r)%Z || ((half =? r)%Z && Z.odd q) then (q + 1)%Z else q in
    (Z.sgn z * Z.shiftl q' sh)%Z.

(** A cell of an int64 column after the column has become float64. *)
Definition as_float (c : cell) : cell :=
  match c with
  | Num z => Num (to_float64 z)
  | _ => c
  end.

(** An int64 value after an addition that left the int64 range: the
    arithmetic of an int64 column wraps around. *)
Definition wrap64 (z : Z) : Z :=
  ((z + 2 ^ 63) mod 2 ^ 64 - 2 ^ 63)%Z.

(** Keys of a frequency table: an equality and a test for missing values. *)
Class Hashable (K : Type) : Type := {
  key_eqb : K -> K -> bool;
  key_isna : K -> bool
}.

#[export] Instance cell_Hashable : Hashable cell :=
  {| key_eqb := cell_eqb; key_isna := isna |}.

#[export] Instance bool_Hashable : Hashable bool :=
  {| key_eqb := Bool.eqb; key_isna := fun _ => false |}.

(** The key equality decides equality. *)
Class HashableLaws {K : Type} (H : Hashable K) : Prop := {
  key_eqb_eq : forall a b : K, key_eqb a b = true <-> a = b
}.

(* ================================================================== *)
(** * Sorting *)

Section Sorting.
Variable A : Type.
(** [before x y]: [x] may stand in front of [y]. *)
Variable before : A -> A -> bool.

Fixpoint insert (x : A) (l : list A) : list A :=
  match l with
  | [] => [x]
  | y :: l' => if before x y then x :: l else y :: insert x l'
  end.

(** Insertion sort.  An element is placed in front of the elements that
    followed it in the input unless one of them has to come first, so
    equal elements keep their order. *)
Fixpoint isort (l : list A) : list A :=
  match l with
  | [] => []
  | x :: l' => insert x (isort l')
  end.
End Sorting.

(** Order of group keys ([safe_sort] of pandas): missing values last,
    numbers before strings, numbers by value, strings by code point. *)
Definition cell_leb (a b : cell) : bool :=
  match a, b with
  | _, NaN => true
  | NaN, _ => false
  | Num x, Num y => Z.leb x y
  | Num _, Str _ => true
  | Str _, Num _ => false
  | Str s, Str t => String.leb s t
  end.

(** Python's [<] on the values of a column: comparing a string with a
    number (or with the float [nan]) raises [TypeError]; every comparison
    of numbers with [nan] is false. *)
Definition py_lt (a b : cell) : result bool :=
  match a, b with
  | Str s, Str t => Ok (String.ltb s t)
  | Num x, Num y => Ok (Z.ltb x y)
  | Str _, _ | _, Str _ => Raise TypeError
  | _, _ => Ok false
  end.

Local Open Scope result_scope.

Fixpoint py_insert (x : cell) (l : list cell) : result (list cell) :=
  match l with
  | [] => Ok [x]
  | y :: l' =>
      lt <- py_lt y x ;;
      if lt then (r <- py_insert x l' ;; Ok (y :: r)) else Ok (x :: l)
  end.

(** [sorted(xs)]: ascending, stable, by [<] only. *)
Fixpoint py_sorted (l : list cell) : result (list cell) :=
  match l with
  | [] => Ok []
  | x :: l' => s <- py_sorted l' ;; py_insert x s
  end.

(* ================================================================== *)
(** * Frequency tables *)

Section Counting.
Context {K : Type} `{Hashable K}.

Fixpoint count (k : K) (s : list K) : nat :=
  match s with
  | [] => 0
  | x :: s' => (if key_eqb k x then 1 else 0) + count k s'
  end.

Definition dropna (s : list K) : list K :=
  filter (fun k => negb (key_isna k)) s.

(** [Series.unique()]: the distinct values in order of first
    appearance (the insertion order of the hash table). *)
Fixpoint unique (s : list K) : list K :=
  match s with
  | [] => []
  | k :: s' => k :: filter (fun x => negb (key_eqb k x)) (unique s')
  end.

(** [Series.nunique()] (dropna=True). *)
Definition nunique (s : list K) : nat := List.length (unique (dropna s)).

(** Position of the first occurrence of [k] in [s] ([length s] if none). *)
Fixpoint first_pos (k : K) (s : list K) : nat :=
  match s with
  | [] => 0
  | x :: s' => if key_eqb k x then 0 else S (first_pos k s')
  end.

(** The counts of the distinct present values, keyed and ordered by
    first appearance: what [value_counts] holds before it sorts. *)
Definition tally (s : list K) : list (K * nat) :=
  map (fun k => (k, count k s)) (unique (dropna s)).

(** Modelled from the spec: the order that [sort_values(ascending=False)]
    gives to entries of equal count.  app.py leaves it to the sorting
    routine of pandas (the default [kind]), which is not part of the
    program; section 4.2 of the specification states it as the order of
    first occurrence (a stable sort), and the sort is taken to be stable.
    The descending order of the counts is that of the call itself. *)
Definition sort_values_desc (t : list (K * nat)) : list (K * nat) :=
  isort (fun a b => snd b <=? snd a) t.

(** [Series.value_counts()]: sort=True, ascending=False, dropna=True. *)
Definition value_counts (s : list K) : list (K * nat) :=
  sort_values_desc (tally s).

End Counting.

(** [groupby(key).size()]: one group per present key value, groups in
    ascending key order (sort=True, dropna=True). *)
Definition groupby_size (keys : Series) : list (cell * nat) :=
  map (fun k => (k, count k keys)) (isort cell_leb (unique (dropna keys))).

(** [.head(n)] for a non-negative [n]. *)
Definition head {A} (n : nat) (l : list A) : list A := firstn n l.

Definition sum_counts {K} (t : list (K * nat)) : nat :=
  list_sum (map snd t).

(* ================================================================== *)
(** * Data frames *)

(** A table: column labels in order, and the rows, each holding one cell
    per column. *)
Record DataFrame : Type := mkDF {
  columns : list string;
  rows : list (list cell)
}.

(** The invariants of a frame produced by [read_csv]: distinct column
    labels and one cell per column in every row. *)
Definition wf_frame (df : DataFrame) : Prop :=
  NoDup (columns df) /\
  Forall (fun r => List.length r = List.length (columns df)) (rows df).

Fixpoint col_index (name : string) (cols : list string) : option nat :=
  match cols with
  | [] => None
  | c :: cs =>
      if String.eqb name c then Some 0 else option_map S (col_index name cs)
  end.

Definition column (j : nat) (df : DataFrame) : Series :=
  map (fun r => nth j r NaN) (rows df).

(** [df[name]]: [KeyError] when there is no such column. *)
Definition getitem (df : DataFrame) (name : string) : result Series :=
  match col_index name (columns df) with
  | Some j => Ok (column j df)
  | None => Raise (KeyError name)
  end.

(** [len(df)]. *)
Definition len (df : DataFrame) : nat := List.length (rows df).

Fixpoint col_indices (names cols : list string) : result (list nat) :=
  match names with
  | [] => Ok []
  | n :: ns =>
      match col_index n cols with
      | Some j => js <- col_indices ns cols ;; Ok (j :: js)
      | None => Raise (KeyError n)
      end
  end.

(** [df[[name1, ..., namek]]]: a new frame with the selected columns. *)
Definition getitem_cols (df : DataFrame) (names : list string)
  : result DataFrame :=
  js <- col_indices names (columns df) ;;
  Ok (mkDF names (map (fun r => map (fun j => nth j r NaN) js) (rows df))).

Fixpoint select {A} (mask : list bool) (l : list A) : list A :=
  match mask, l with
  | b :: mask', x :: l' =>
      if b then x :: select mask' l' else select mask' l'
  | _, _ => []
  end.

(** [df[mask]]: boolean indexing, the rows at which the mask is true. *)
Definition loc_mask (df : DataFrame) (mask : list bool) : DataFrame :=
  mkDF (columns df) (select mask (rows df)).

Fixpoint zip_with {A B C} (f : A -> B -> C) (l : list A) (l' : list B)
  : list C :=
  match l, l' with
  | a :: t, b :: t' => f a b :: zip_with f t t'
  | _, _ => []
  end.

(** [series == value], [series != value], [s1 == s2], [m1 | m2] and
    [series.notna()], all elementwise. *)
Definition series_eq_scalar (s : Series) (v : cell) : list bool :=
  map (fun c => py_eq c v) s.
Definition series_ne_scalar (s : Series) (v : cell) : list bool :=
  map (fun c => negb (py_eq c v)) s.
Definition series_eq (s1 s2 : Series) : list bool := zip_with py_eq s1 s2.
Definition mask_or (m1 m2 : list bool) : list bool := zip_with orb m1 m2.
Definition series_notna (s : Series) : list bool := map notna s.

(** Python's [+] on two present values of an object column: integers add
    (without bound), strings concatenate, an integer and a string raise
    [TypeError]. *)
Definition py_add (a b : cell) : result cell :=
  match a, b with
  | Num x, Num y => Ok (Num (x + y))
  | Str s, Str t => Ok (Str (String.append s t))
  | _, _ => Raise TypeError
  end.

(** The number a cell holds; a missing value counts for nothing in a
    sum. *)
Definition num_of (c : cell) : Z :=
  match c with
  | Num z => z
  | _ => 0%Z
  end.

(** One step of the sum of an int64 group: [sumx += val] in int64. *)
Definition add64 (acc val : Z) : Z := wrap64 (acc + val).

(** One step of the sum of a float64 group: the running sum and its
    compensation (Kahan summation), every operation rounded to float64. *)
Definition kahan_step (st : Z * Z) (val : Z) : Z * Z :=
  let '(sumx, compensation) := st in
  let y := to_float64 (val - compensation) in
  let t := to_float64 (sumx + y) in
  (t, to_float64 (to_float64 (t - sumx) - y)).

(** [.sum()] of the values of one group of a column of dtype [dt]:
    missing values are skipped (skipna) and a group without a present value
    sums to 0 (min_count=0).  An int64 column is added in int64, which
    wraps around; a float64 column in float64; the values of an object
    column with Python's [+], from the first present one on. *)
Definition sum_group (dt : dtype) (vals : Series) : result cell :=
  match dt with
  | int64 => Ok (Num (fold_left add64 (map num_of vals) 0%Z))
  | float64 =>
      Ok (Num (fst (fold_left kahan_step (map num_of (dropna vals))
                      (0%Z, 0%Z))))
  | object =>
      match dropna vals with
      | [] => Ok (Num 0)
      | v :: vs => fold_left (fun acc x => a <- acc ;; py_add a x) vs (Ok v)
      end
  end.

Fixpoint traverse {A B} (f : A -> result B) (l : list A) : result (list B) :=
  match l with
  | [] => Ok []
  | a :: l' => b <- f a ;; bs <- traverse f l' ;; Ok (b :: bs)
  end.

(** The values of the rows whose key is [k]. *)
Definition group_values (k : cell) (keys vals : Series) : Series :=
  select (map (cell_eqb k) keys) vals.

(** [groupby(key)[value].sum()]: one group per present key value, in
    ascending key order, with the sum of its values in the dtype of the
    value column. *)
Definition groupby_sum (keys vals : Series) : result (list (cell * cell)) :=
  traverse
    (fun k =>
       total <- sum_group (dtype_of vals) (group_values k keys vals) ;;
       Ok (k, total))
    (isort cell_leb (unique (dropna keys))).

(** [sort_values(ascending=False)] on a table of sums, by Python's [<];
    entries with equal sums keep their order, as in [sort_values_desc]. *)
Fixpoint insert_by_sum (x : cell * cell) (l : list (cell * cell))
  : result (list (cell * cell)) :=
  match l with
  | [] => Ok [x]
  | y :: l' =>
      lt <- py_lt (snd x) (snd y) ;;
      if lt then (r <- insert_by_sum x l' ;; Ok (y :: r)) else Ok (x :: l)
  end.

Fixpoint sort_sums_desc (t : list (cell * cell))
  : result (list (cell * cell)) :=
  match t with
  | [] => Ok []
  | x :: t' => s <- sort_sums_desc t' ;; insert_by_sum x s
  end.

(** A column label of one side of a merge that also labels a column of
    the other side gets that side's suffix. *)
Definition with_suffix (sfx : string) (others : list string) (name : string)
  : string :=
  if existsb (String.eqb name) others then String.append name sfx else name.

(** [_maybe_coerce_merge_keys]: the key columns of a merge must be of
    compatible kinds.  Columns of the same dtype, and two numeric columns,
    are; a column of strings and a numeric column are not, and the merge
    raises [ValueError] (an object column that holds an integer passes).
    A frame without rows is not checked. *)
Definition merge_keys_ok (lk rk : Series) : bool :=
  match lk, rk with
  | [], _ | _, [] => true
  | _, _ =>
      match dtype_of lk, dtype_of rk with
      | object, object => true
      | object, _ => existsb is_numb lk
      | _, object => existsb is_numb rk
      | _, _ => true
      end
  end.

(** The keys as they are compared: an int64 and a float64 key column are
    both taken to float64, their common type; otherwise the cells are
    compared as they are. *)
Definition merge_cast (l r : dtype) (c : cell) : cell :=
  match l, r with
  | int64, float64 | float64, int64 => as_float c
  | _, _ => c
  end.

(** The right rows a left row joins with, for a conversion [cast] of the
    keys. *)
Definition matching (cast : cell -> cell) (lk rk : nat) (right : DataFrame)
  (l : list cell) : list (list cell) :=
  filter (fun r => cell_eqb (cast (nth lk l NaN)) (cast (nth rk r NaN)))
    (rows right).

(** A right row in a result that has left rows without a match: the right
    columns hold missing values there, so an int64 column has become
    float64. *)
Definition promote (right : DataFrame) (r : list cell) : list cell :=
  zip_with
    (fun dt c =>
       match dt with
       | int64 => as_float c
       | _ => c
       end)
    (map (fun j => dtype_of (column j right))
       (seq 0 (List.length (columns right))))
    r.

(** [Index.duplicated()]: the labels that occurred before in the list. *)
Fixpoint duplicated_from (seen l : list string) : list bool :=
  match l with
  | [] => []
  | x :: l' => existsb (String.eqb x) seen :: duplicated_from (x :: seen) l'
  end.

Definition duplicated (l : list string) : list bool := duplicated_from [] l.

(** The suffixes make two labels of one side equal that were not: the
    merge raises [MergeError]. *)
Definition new_duplicates (labels renamed : list string) : bool :=
  existsb (fun b => b)
    (zip_with (fun r l => r && negb l) (duplicated renamed)
       (duplicated labels)).

Definition suffix_clash (left right : list string) : bool :=
  new_duplicates left (map (with_suffix "_x" right) left) ||
  new_duplicates right (map (with_suffix "_y" left) right).

Definition is_nil {A} (l : list A) : bool :=
  match l with
  | [] => true
  | _ => false
  end.

(** [left.merge(right, left_on=..., right_on=..., how='left')] for two
    differently named key columns: every left row, in order, once per
    right row with an equal key, or once with the right columns missing.
    All the columns of both frames are kept, the right key included.  The
    merge raises [KeyError] for a key column that is not there,
    [ValueError] for key columns of incompatible kinds, and [MergeError]
    when the suffixes make two labels of one side equal. *)
Definition merge_left (left right : DataFrame) (left_on right_on : string)
  : result DataFrame :=
  match col_index right_on (columns right) with
  | None => Raise (KeyError right_on)
  | Some rk =>
      match col_index left_on (columns left) with
      | None => Raise (KeyError left_on)
      | Some lk =>
          if negb (merge_keys_ok (column lk left) (column rk right)) then
            Raise ValueError
          else if suffix_clash (columns left) (columns right) then
            Raise MergeError
          else
            let cast :=
              merge_cast (dtype_of (column lk left))
                (dtype_of (column rk right)) in
            let unmatched :=
              existsb (fun l => is_nil (matching cast lk rk right l))
                (rows left) in
            Ok (mkDF
                  (map (with_suffix "_x" (columns right)) (columns left) ++
                   map (with_suffix "_y" (columns left)) (columns right))
                  (flat_map
                     (fun l =>
                        match matching cast lk rk right l with
                        | [] => [l ++ map (fun _ => NaN) (columns right)]
                        | rs =>
                            map (fun r =>
                                   l ++ (if unmatched then promote right r
                                         else r))
                              rs
                        end)
                     (rows left)))
      end
  end.

(* ================================================================== *)
(** * The loader *)

(** The pandas release app.py runs on.  [pandas_2] stands for the 2.x
    releases with their default options: [df[name]] is cached in the
    frame, and an in-place method called on it updates the frame.
    [pandas_3] stands for 3.0 and later, where copy-on-write is always on:
    [df[name]] is an object of its own, an in-place method changes that
    object only, and an in-place [fillna] whose value the column cannot
    hold raises [TypeError] instead of changing the dtype. *)
Inductive pandas_version : Type :=
| pandas_2
| pandas_3.

(** During the load the frames and the series taken from them are objects
    in a store; a series object is held as a frame of one column. *)
Definition loc := nat.
Definition heap := list DataFrame.

Record SeriesView : Type := mkView { sv_frame : loc; sv_col : nat }.

Definition M (A : Type) : Type := heap -> result (A * heap).

Definition mret {A} (a : A) : M A := fun h => Ok (a, h).
Definition mbind {A B} (c : M A) (k : A -> M B) : M B :=
  fun h => match c h with
           | Ok (a, h') => k a h'
           | Raise e => Raise e
           end.
Definition mraise {A} (e : exn) : M A := fun _ => Raise e.

Declare Scope store_scope.
Delimit Scope store_scope with store.
Notation "x <- c ;; k" := (mbind c (fun x => k))
  (at level 61, c at next level, right associativity) : store_scope.
Notation "c ;;; k" := (mbind c (fun _ => k))
  (at level 61, right associativity) : store_scope.

Definition empty_frame : DataFrame := mkDF [] [].

Definition alloc (df : DataFrame) : M loc :=
  fun h => Ok (List.length h, h ++ [df]).
Definition deref (l : loc) : M DataFrame :=
  fun h => Ok (nth l h empty_frame, h).
Definition lift {A} (r : result A) : M A :=
  fun h => match r with
           | Ok a => Ok (a, h)
           | Raise e => Raise e
           end.

Fixpoint update_nth {A} (n : nat) (f : A -> A) (l : list A) : list A :=
  match l, n with
  | [], _ => []
  | x :: l', O => f x :: l'
  | x :: l', S n' => x :: update_nth n' f l'
  end.

Local Open Scope store_scope.

(** [frame[name]] on a frame object: before pandas 3 a series through
    which the frame can be written; from pandas 3 on a new object with the
    cells of the column. *)
Definition view (pandas : pandas_version) (frame : loc) (name : string)
  : M SeriesView :=
  df <- deref frame ;;
  match col_index name (columns df) with
  | Some j =>
      match pandas with
      | pandas_2 => mret (mkView frame j)
      | pandas_3 =>
          s <- alloc (mkDF [name] (map (fun c => [c]) (column j df))) ;;
          mret (mkView s 0)
      end
  | None => mraise (KeyError name)
  end.

(** The frame with the missing cells of its column [j] replaced. *)
Definition fill_column (j : nat) (value : cell) (df : DataFrame)
  : DataFrame :=
  mkDF (columns df) (map (update_nth j (fill value)) (rows df)).

(** A column of dtype [dt] can take [value] without a change of dtype. *)
Definition can_hold (dt : dtype) (value : cell) : bool :=
  match dt, value with
  | object, _ => true
  | _, Str _ => false
  | _, _ => true
  end.

(** [series.fillna(value, inplace=True)]: the object the series stands for
    is updated in the store.  From pandas 3 on the call raises [TypeError]
    when there is a missing cell to fill and the column cannot hold the
    value. *)
Definition fillna_inplace (pandas : pandas_version) (s : SeriesView)
  (value : cell) : M unit :=
  fun h =>
    let col := column (sv_col s) (nth (sv_frame s) h empty_frame) in
    match pandas with
    | pandas_3 =>
        if existsb isna col && negb (can_hold (dtype_of col) value)
        then Raise TypeError
        else Ok (tt, update_nth (sv_frame s) (fill_column (sv_col s) value) h)
    | pandas_2 =>
        Ok (tt, update_nth (sv_frame s) (fill_column (sv_col s) value) h)
    end.

Section Loader.
(** The pandas release in use. *)
Variable pandas : pandas_version.
(** The two files as [pd.read_csv] finds them: a parsed table, or the
    exception the read raises. *)
Variable read_csv : string -> result DataFrame.

(** The body of the [try] block of [load_data]. *)
Definition load_body : M (DataFrame * DataFrame) :=
  matches <- (df <- lift (read_csv "matches.csv") ;; alloc df) ;;
  deliveries <- (df <- lift (read_csv "deliveries.csv") ;; alloc df) ;;
  city <- view pandas matches "city" ;;
  fillna_inplace pandas city (Str "Unknown") ;;;
  winner <- view pandas matches "winner" ;;
  fillna_inplace pandas winner (Str "No Result") ;;;
  player_of_match <- view pandas matches "player_of_match" ;;
  fillna_inplace pandas player_of_match (Str "Unknown") ;;;
  right <- (df <- deref matches ;;
            sel <- lift (getitem_cols df ["id"; "season"]) ;; alloc sel) ;;
  deliveries <- (l <- deref deliveries ;;
                 r <- deref right ;;
                 df <- lift (merge_left l r "match_id" "id") ;; alloc df) ;;
  m <- deref matches ;;
  d <- deref deliveries ;;
  mret (m, d).

(** [load_data()]: the pair the function returns, and the exception it
    reports with [st.error], if any.  The [except Exception] clause
    turns every exception of the body into the pair [(None, None)].
    The function reads nothing but the two files, so the memoization of
    [st.cache_data] does not change what it returns. *)
Definition load_data
  : (option DataFrame * option DataFrame) * option exn :=
  match load_body [] with
  | Ok ((m, d), _) => ((Some m, Some d), None)
  | Raise e => ((None, None), Some e)
  end.
End Loader.

Local Close Scope store_scope.

(* ================================================================== *)
(** * Python numbers *)

(** Python floats are the binary64 numbers of IEEE 754, here the
    [spec_float] of the standard library with 53 bits of precision. *)
Definition prec : Z := 53.
Definition emax : Z := 1024.

(** A Python number: an [int] or a [float]. *)
Inductive py_number : Type :=
| PyInt (z : Z)
| PyFloat (f : spec_float).

(** An [int] as the dividend or divisor of a true division: the integer
    itself, as a mantissa with exponent 0. *)
Definition int_operand (n : nat) : spec_float :=
  match n with
  | O => S754_zero false
  | S _ => S754_finite false (Pos.of_nat n) 0
  end.

(** [float(z)]. *)
Definition float_of_Z (z : Z) : spec_float :=
  binary_normalize prec emax z 0 false.

(** [a / b] on two row counts: a zero divisor raises
    [ZeroDivisionError]; otherwise the result is the float nearest to the
    quotient (one rounding, ties to even), and [OverflowError] if the
    quotient is too large for a float. *)
Definition py_truediv (a b : nat) : result spec_float :=
  match b with
  | O => Raise ZeroDivisionError
  | S _ =>
      match SFdiv prec emax (int_operand a) (int_operand b) with
      | S754_infinity _ => Raise OverflowError
      | q => Ok q
      end
  end.

(** [x * n] for a float [x] and an int [n]. *)
Definition py_mul_int (x : spec_float) (n : Z) : spec_float :=
  SFmul prec emax x (float_of_Z n).

(* ================================================================== *)
(** * The pages *)

(** Home page. *)
Module Home.

Definition total_matches (matches : DataFrame) : nat := len matches.

Definition total_seasons (matches : DataFrame) : result nat :=
  season <- getitem matches "season" ;; Ok (nunique season).

(** [matches['team1'].nunique()] *)
Definition total_teams (matches : DataFrame) : result nat :=
  team1 <- getitem matches "team1" ;; Ok (nunique team1).

Definition total_venues (matches : DataFrame) : result nat :=
  venue <- getitem matches "venue" ;; Ok (nunique venue).

(** [matches.groupby('season').size()] *)
Definition matches_per_season (matches : DataFrame)
  : result (list (cell * nat)) :=
  season <- getitem matches "season" ;; Ok (groupby_size season).

(** [matches['winner'].value_counts().head(n)] *)
Definition top_winners (n : nat) (matches : DataFrame)
  : result (list (cell * nat)) :=
  winner <- getitem matches "winner" ;; Ok (head n (value_counts winner)).

(** The page shows the first five. *)
Definition team_wins (matches : DataFrame) : result (list (cell * nat)) :=
  top_winners 5 matches.


(** [matches[matches['winner'] != 'No Result'].copy()] *)
Definition matches_with_result (matches : DataFrame) : result DataFrame :=
  winner <- getitem matches "winner" ;;
  Ok (loc_mask matches (series_ne_scalar winner (Str "No Result"))).

(** The column [toss_winner_is_match_winner], which the page stores on
    the copy and reads back. *)
Definition toss_winner_is_match_winner (with_result : DataFrame)
  : result (list bool) :=
  toss_winner <- getitem with_result "toss_winner" ;;
  winner <- getitem with_result "winner" ;;
  Ok (series_eq toss_winner winner).

Definition toss_impact (matches : DataFrame)
  : result (list (bool * nat)) :=
  with_result <- matches_with_result matches ;;
  flags <- toss_winner_is_match_winner with_result ;;
  Ok (value_counts flags).

(** The arguments of the pie chart:
    [go.Pie(labels=['Won Match', 'Lost Match'],
            values=toss_impact.values)]. *)
Definition toss_pie (matches : DataFrame)
  : result (list string * list nat) :=
  impact <- toss_impact matches ;;
  Ok (["Won Match"; "Lost Match"], map snd impact).

(** What the page shows: the four metrics and the data of the three
    charts. *)
Record home_view : Type := mkHome {
  metrics : nat * nat * nat * nat;
  season_chart : list (cell * nat);
  winners_chart : list (cell * nat);
  toss_chart : list string * list nat
}.

(** The body of the page, in the order of the script: an expression that
    raises ends the run of the script there. *)
Definition page (matches : DataFrame) : result home_view :=
  seasons <- total_seasons matches ;;
  teams <- total_teams matches ;;
  venues <- total_venues matches ;;
  per_season <- matches_per_season matches ;;
  wins <- team_wins matches ;;
  pie <- toss_pie matches ;;
  Ok (mkHome (total_matches matches, seasons, teams, venues)
        per_season wins pie).

End Home.

(** Team analysis page. *)
Module TeamAnalysis.

(** [sorted(matches['team1'].unique())], the options of the selector. *)
Definition teams (matches : DataFrame) : result (list cell) :=
  team1 <- getitem matches "team1" ;; py_sorted (unique team1).

Definition team_matches (matches : DataFrame) (selected_team : cell)
  : result DataFrame :=
  team1 <- getitem matches "team1" ;;
  team2 <- getitem matches "team2" ;;
  Ok (loc_mask matches
        (mask_or (series_eq_scalar team1 selected_team)
                 (series_eq_scalar team2 selected_team))).

Definition team_wins (matches : DataFrame) (selected_team : cell)
  : result DataFrame :=
  winner <- getitem matches "winner" ;;
  Ok (loc_mask matches (series_eq_scalar winner selected_team)).

(** [(len(team_wins) / len(team_matches) * 100)
     if len(team_matches) > 0 else 0] *)
Definition win_rate_of (team_wins team_matches : DataFrame)
  : result py_number :=
  if 0 <? len team_matches then
    q <- py_truediv (len team_wins) (len team_matches) ;;
    Ok (PyFloat (py_mul_int q 100))
  else Ok (PyInt 0).

Definition win_rate (matches : DataFrame) (selected_team : cell)
  : result py_number :=
  tm <- team_matches matches selected_team ;;
  tw <- team_wins matches selected_team ;;
  win_rate_of tw tm.

Definition total_losses (team_wins team_matches : DataFrame) : Z :=
  (Z.of_nat (len team_matches) - Z.of_nat (len team_wins))%Z.

(** [team_wins.groupby('season').size()] *)
Definition season_wins (matches : DataFrame) (selected_team : cell)
  : result (list (cell * nat)) :=
  tw <- team_wins matches selected_team ;;
  season <- getitem tw "season" ;;
  Ok (groupby_size season).

(** [team_wins['venue'].value_counts().head(5)] *)
Definition venue_performance (matches : DataFrame) (selected_team : cell)
  : result (list (cell * nat)) :=
  tw <- team_wins matches selected_team ;;
  venue <- getitem tw "venue" ;;
  Ok (head 5 (value_counts venue)).

End TeamAnalysis.

(** Player statistics page. *)
Module PlayerStats.

(** [deliveries[deliveries['player_dismissed'].notna()]] *)
Definition wickets (deliveries : DataFrame) : result DataFrame :=
  player_dismissed <- getitem deliveries "player_dismissed" ;;
  Ok (loc_mask deliveries (series_notna player_dismissed)).

(** [wickets.groupby('bowler').size().sort_values(ascending=False)] *)
Definition wickets_by_bowler (deliveries : DataFrame)
  : result (list (cell * nat)) :=
  w <- wickets deliveries ;;
  bowler <- getitem w "bowler" ;;
  Ok (sort_values_desc (groupby_size bowler)).

(** [... .head(num_bowlers)] *)
Definition top_bowlers (num_bowlers : nat) (deliveries : DataFrame)
  : result (list (cell * nat)) :=
  ranking <- wickets_by_bowler deliveries ;;
  Ok (head num_bowlers ranking).

(** [deliveries.groupby('batter')['batsman_runs'].sum()
       .sort_values(ascending=False)] *)
Definition runs_by_batter (deliveries : DataFrame)
  : result (list (cell * cell)) :=
  batter <- getitem deliveries "batter" ;;
  batsman_runs <- getitem deliveries "batsman_runs" ;;
  sums <- groupby_sum batter batsman_runs ;;
  sort_sums_desc sums.

(** [... .head(num_batsmen)] *)
Definition top_batsmen (num_batsmen : nat) (deliveries : DataFrame)
  : result (list (cell * cell)) :=
  ranking <- runs_by_batter deliveries ;;
  Ok (head num_batsmen ranking).

(** [matches['player_of_match'].value_counts().head(num_players)] *)
Definition top_pom (num_players : nat) (matches : DataFrame)
  : result (list (cell * nat)) :=
  player_of_match <- getitem matches "player_of_match" ;;
  Ok (head num_players (value_counts player_of_match)).

End PlayerStats.

(** Venue analysis page. *)
Module Venue.

(** [matches['venue'].value_counts().head(10)] *)
Definition top_venues (matches : DataFrame) : result (list (cell * nat)) :=
  venue <- getitem matches "venue" ;; Ok (head 10 (value_counts venue)).

(** [matches['city'].value_counts().head(10)] *)
Definition city_matches (matches : DataFrame) : result (list (cell * nat)) :=
  city <- getitem matches "city" ;; Ok (head 10 (value_counts city)).

(** The body of the page: the data of its two charts, in the order of the
    script. *)
Definition page (matches : DataFrame)
  : result (list (cell * nat) * list (cell * nat)) :=
  venues <- top_venues matches ;;
  cities <- city_matches matches ;;
  Ok (venues, cities).

End Venue.

(** Trends and insights page. *)
Module Trends.

(** [deliveries.groupby('season')['total_runs'].sum()] *)
Definition runs_per_season (deliveries : DataFrame)
  : result (list (cell * cell)) :=
  season <- getitem deliveries "season" ;;
  total_runs <- getitem deliveries "total_runs" ;;
  groupby_sum season total_runs.

(** [matches['result'].value_counts()] *)
Definition result_type (matches : DataFrame) : result (list (cell * nat)) :=
  res <- getitem matches "result" ;; Ok (value_counts res).

(** [deliveries['dismissal_kind'].value_counts().head(8)] *)
Definition dismissal_types (deliveries : DataFrame)
  : result (list (cell * nat)) :=
  dismissal_kind <- getitem deliveries "dismissal_kind" ;;
  Ok (head 8 (value_counts dismissal_kind)).

End Trends.

Local Close Scope result_scope.

(* ================================================================== *)
(** * Orders and counts used to state the properties *)

(** Larger key first; among equal keys, the order [P] of the input. *)
Definition desc_then {A} (key : A -> nat) (P : A -> A -> Prop) (a b : A)
  : Prop :=
  key b < key a \/ (key a = key b /\ P a b).

(** [a] ranks before [b] in a frequency table of the series [s]: a larger
    count, or the same count and an earlier first occurrence in [s]. *)
Definition ranked_before {K} `{Hashable K} (s : list K) (a b : K * nat)
  : Prop :=
  desc_then snd (fun x y => first_pos (fst x) s < first_pos (fst y) s) a b.

(** The cell of the row [r] of [df] in the column [name]. *)
Definition field (df : DataFrame) (name : string) (r : list cell) : cell :=
  match col_index name (columns df) with
  | Some j => nth j r NaN
  | None => NaN
  end.

(** Equality of cells is decidable. *)
Definition cell_eq_dec (a b : cell) : {a = b} + {a <> b}.
Proof.
  decide equality; [apply string_dec | apply Z.eq_dec].
Defined.

(** The two cells are the same cell. *)
Definition same (a b : cell) : bool :=
  if cell_eq_dec a b then true else false.

(** The number of rows of [matches] whose winner is [k]. *)
Definition won_rows (matches : DataFrame) (k : cell) : nat :=
  List.length
    (filter (fun r => same k (field matches "winner" r)) (rows matches)).

(** The rows of [matches] whose winner is not the sentinel [No Result]. *)
Definition decided (matches : DataFrame) : list (list cell) :=
  filter (fun r => negb (same (field matches "winner" r) (Str "No Result")))
    (rows matches).

(** The row names a winner, and it is the winner of the toss. *)
Definition toss_winner_won (matches : DataFrame) (r : list cell) : bool :=
  negb (same (field matches "winner" r) NaN) &&
  same (field matches "toss_winner" r) (field matches "winner" r).

(** The test [winner != 'No Result'] on a row: its winner is not the
    sentinel of an abandoned match (a missing winner passes the test). *)
Definition has_result (matches : DataFrame) (r : list cell) : bool :=
  negb (py_eq (field matches "winner" r) (Str "No Result")).

(** The toss winner of a row is its winner. *)
Definition toss_won (matches : DataFrame) (r : list cell) : bool :=
  py_eq (field matches "toss_winner" r) (field matches "winner" r).

(** The team [t] is one of the two teams of the row. *)
Definition plays_in (matches : DataFrame) (t : cell) (r : list cell) : bool :=
  py_eq (field matches "team1" r) t || py_eq (field matches "team2" r) t.

(** The team [t] is the winner of the row. *)
Definition won_by (matches : DataFrame) (t : cell) (r : list cell) : bool :=
  py_eq (field matches "winner" r) t.

(** A batter was dismissed on the delivery. *)
Definition dismissed (deliveries : DataFrame) (r : list cell) : bool :=
  notna (field deliveries "player_dismissed" r).

(** The number of deliveries with a dismissal whose bowler is [b]. *)
Definition credited (deliveries : DataFrame) (b : cell) : nat :=
  List.length
    (filter
       (fun r => dismissed deliveries r &&
                 cell_eqb b (field deliveries "bowler" r))
       (rows deliveries)).

(** The cell holds a string. *)
Definition is_str (c : cell) : Prop := exists s, c = Str s.

(** The match table after the three [fillna] calls, for the positions of
    the columns [city], [winner] and [player_of_match]. *)
Definition filled (m : DataFrame) (ic iw ip : nat) : DataFrame :=
  fill_column ip (Str "Unknown")
    (fill_column iw (Str "No Result")
       (fill_column ic (Str "Unknown") m)).

(** The sentinel of the specification for a column of the match table. *)
Definition sentinel (name : string) : option cell :=
  if String.eqb name "city" then Some (Str "Unknown")
  else if String.eqb name "winner" then Some (Str "No Result")
  else if String.eqb name "player_of_match" then Some (Str "Unknown")
  else None.

(** A cell of the column [name] after normalization. *)
Definition normalized (name : string) (c : cell) : cell :=
  match sentinel name with
  | Some v => fill v c
  | None => c
  end.

(** The match table as the loader holds it after the three [fillna]
    calls: filled before pandas 3; unchanged from pandas 3 on, where the
    calls fail when one of the three columns is numeric and has a missing
    value. *)
Definition fillna_blocked (pandas : pandas_version) (m : DataFrame) (j : nat)
  (value : cell) : bool :=
  match pandas with
  | pandas_2 => false
  | pandas_3 =>
      existsb isna (column j m) &&
      negb (can_hold (dtype_of (column j m)) value)
  end.

Definition after_fillna (pandas : pandas_version) (m : DataFrame)
  (ic iw ip : nat) : result DataFrame :=
  if fillna_blocked pandas m ic (Str "Unknown") ||
     fillna_blocked pandas m iw (Str "No Result") ||
     fillna_blocked pandas m ip (Str "Unknown")
  then Raise TypeError
  else Ok match pandas with
          | pandas_2 => filled m ic iw ip
          | pandas_3 => m
          end.

(** The frame [matches[['id', 'season']]], for the positions of the two
    columns. *)
Definition id_season (m : DataFrame) (ii js : nat) : DataFrame :=
  mkDF ["id"; "season"] (map (fun r => [nth ii r NaN; nth js r NaN]) (rows m)).

(** The keys of the join of the loader as they are compared: the cells of
    [match_id] and [id], both as floats when one of the two columns is
    int64 and the other float64. *)
Definition key_cast (matches deliveries : DataFrame) (c : cell) : cell :=
  merge_cast
    (dtype_of (map (field deliveries "match_id") (rows deliveries)))
    (dtype_of (map (field matches "id") (rows matches))) c.

Definition same_key (matches deliveries : DataFrame) (a b : cell) : bool :=
  cell_eqb (key_cast matches deliveries a) (key_cast matches deliveries b).

(** The number of match rows whose [id] equals [key] in the join. *)
Definition matches_with_id (matches deliveries : DataFrame) (key : cell)
  : nat :=
  List.length
    (filter (fun r => same_key matches deliveries key (field matches "id" r))
       (rows matches)).

(** Some delivery has no match. *)
Definition unmatched (matches deliveries : DataFrame) : bool :=
  existsb
    (fun r =>
       matches_with_id matches deliveries (field deliveries "match_id" r)
       =? 0)
    (rows deliveries).

(** A cell of the column [name] of the match table as the joined table
    holds it: when some delivery has no match the column has missing
    values in the joined table, and the numbers of an int64 column are
    held as floats. *)
Definition joined_cell (matches deliveries : DataFrame) (name : string)
  (c : cell) : cell :=
  if unmatched matches deliveries then
    match dtype_of (map (field matches name) (rows matches)) with
    | int64 => as_float c
    | _ => c
    end
  else c.

(** The [id] and [season] of the match row [r] in the joined table. *)
Definition joined_pair (matches deliveries : DataFrame) (r : list cell)
  : list cell :=
  [joined_cell matches deliveries "id" (field matches "id" r);
   joined_cell matches deliveries "season" (field matches "season" r)].


(** The right-hand columns of the rows that a delivery with match id
    [key] joins with: one pair per match with that id. *)
Definition join_with (matches deliveries : DataFrame) (key : cell)
  : list (list cell) :=
  match
    filter (fun r => same_key matches deliveries key (field matches "id" r))
      (rows matches)
  with
  | [] => [[NaN; NaN]]
  | rs => map (joined_pair matches deliveries) rs
  end.

(** The delivery table the loader returns, from the two tables read. *)
Definition joined_frame (m d : DataFrame) : DataFrame :=
  mkDF
    (map (with_suffix "_x" ["id"; "season"]) (columns d) ++
     map (with_suffix "_y" (columns d)) ["id"; "season"])
    (flat_map
       (fun l => map (fun x => l ++ x) (join_with m d (field d "match_id" l)))
       (rows d)).

(** The decided matches that the toss winner won, and those it lost. *)
Definition toss_wins (matches : DataFrame) : nat :=
  List.length
    (filter (toss_won matches) (filter (has_result matches) (rows matches))).

Definition toss_losses (matches : DataFrame) : nat :=
  List.length
    (filter (fun r => negb (toss_won matches r))
       (filter (has_result matches) (rows matches))).

(** The number of rows of [matches] whose [season] is [k]. *)
Definition in_season (matches : DataFrame) (k : cell) : nat :=
  List.length
    (filter (fun r => cell_eqb k (field matches "season" r)) (rows matches)).

(** The number of rows won by [t] whose column [name] holds [k]. *)
Definition wins_with (matches : DataFrame) (t : cell) (name : string)
  (k : cell) : nat :=
  List.length
    (filter (fun r => won_by matches t r && cell_eqb k (field matches name r))
       (rows matches)).

(** A cell of a numeric column: a number or a missing value. *)
Definition is_num (c : cell) : Prop := c = NaN \/ exists z, c = Num z.

Definition sum_Z (l : list Z) : Z := fold_right Z.add 0%Z l.

(** The sum of the column [val_name] over the rows of [df] whose column
    [key_name] holds [k]. *)
Definition group_total (df : DataFrame) (key_name val_name : string)
  (k : cell) : Z :=
  sum_Z
    (map (fun r => num_of (field df val_name r))
       (filter (fun r => cell_eqb k (field df key_name r)) (rows df))).

(** Descending order of the sums of a table. *)
Definition sum_geb (a b : cell * cell) : bool :=
  Z.leb (num_of (snd b)) (num_of (snd a)).



(** The cells of a column are integers of the int64 range. *)
Definition is_int64 (c : cell) : Prop :=
  exists z, c = Num z /\ (- 2 ^ 63 <= z < 2 ^ 63)%Z.

(** The quotient of two positive integers as the division hands it to
    the rounding: an exponent, the integer part of the scaled quotient, and
    the position of the quotient above it. *)
Definition div_exp (A B : positive) : Z :=
  Z.min (fexp prec emax (Zdigits2 (Z.pos A) - Zdigits2 (Z.pos B))) 0.

Definition div_mant (A B : positive) : Z :=
  (Z.pos A * 2 ^ (- div_exp A B) / Z.pos B)%Z.

Definition div_loc (A B : positive) : location :=
  new_location (Z.pos B) ((Z.pos A * 2 ^ (- div_exp A B)) mod Z.pos B)%Z.

(** A float between 0 and 1. *)
Definition unit_float (f : spec_float) : Prop :=
  match f with
  | S754_zero s => s = false
  | S754_finite s m e => s = false /\ (e <= 0 /\ Z.pos m <= 2 ^ (- e))%Z
  | _ => False
  end.

(** A float of magnitude below [2 ^ 70]. *)
Definition moderate (f : spec_float) : Prop :=
  match f with
  | S754_zero s => s = false
  | S754_finite s m e => s = false /\ (Zdigits2 (Z.pos m) + e <= 70)%Z
  | _ => False
  end.

(** A float between 0 and 100, given by a scaling of its mantissa. *)
Definition percent_float (f : spec_float) : Prop :=
  match f with
  | S754_zero s => s = false
  | S754_finite s m e =>
      s = false /\
      exists e1,
        (e1 <= e /\ e1 <= 0 /\
         Z.pos m * 2 ^ (e - e1) <= 100 * 2 ^ (- e1))%Z
  | _ => False
  end.

(** The float is a number (not an infinity, not a NaN). *)
Definition is_finite (f : spec_float) : bool :=
  match f with
  | S754_zero _ | S754_finite _ _ _ => true
  | _ => false
  end.

(** The rational number a float stands for. *)
Definition float_value (f : spec_float) : Q :=
  match f with
  | S754_finite s m e =>
      let n := if s then Z.neg m else Z.pos m in
      match e with
      | Z.neg p => Qmake n (2 ^ p)
      | _ => inject_Z (n * 2 ^ e)
      end
  | _ => inject_Z 0
  end.

(** The rational number a Python number stands for. *)
Definition py_value (v : py_number) : Q :=
  match v with
  | PyInt z => inject_Z z
  | PyFloat f => float_value f
  end.

Definition py_finite (v : py_number) : bool :=
  match v with
  | PyInt _ => true
  | PyFloat f => is_finite f
  end.

(** A file system without the two files. *)
Definition no_files (path : string) : result DataFrame :=
  Raise (FileNotFoundError path).

(* ================================================================== *)
(** * Sample tables *)

(** Three matches; the second was abandoned and has no city, winner,
    result or player of the match. *)
Definition sample_matches : DataFrame :=
  mkDF ["id"; "season"; "city"; "venue"; "team1"; "team2"; "toss_winner";
        "winner"; "result"; "player_of_match"]
    [ [Num 1; Str "2020"; Str "Pune"; Str "V1"; Str "A"; Str "B"; Str "A";
       Str "A"; Str "runs"; Str "p"];
      [Num 2; Str "2020"; NaN; Str "V1"; Str "B"; Str "C"; Str "B";
       NaN; NaN; NaN];
      [Num 3; Str "2021"; Str "Pune"; Str "V2"; Str "C"; Str "A"; Str "A";
       Str "C"; Str "wickets"; Str "q"] ].

(** Three deliveries: a boundary, a run-out, and a wicket in a match that
    the match table does not have. *)
Definition sample_deliveries : DataFrame :=
  mkDF ["match_id"; "batter"; "bowler"; "batsman_runs"; "total_runs";
        "player_dismissed"; "dismissal_kind"]
    [ [Num 1; Str "X"; Str "Y"; Num 4; Num 4; NaN; NaN];
      [Num 1; Str "X"; Str "Y"; Num 0; Num 0; Str "X"; Str "run out"];
      [Num 9; Str "Z"; Str "W"; Num 1; Num 1; Str "Z"; Str "bowled"] ].

Definition sample_files (path : string) : result DataFrame :=
  if String.eqb path "matches.csv" then Ok sample_matches
  else if String.eqb path "deliveries.csv" then Ok sample_deliveries
  else Raise (FileNotFoundError path).

(** The delivery table [load_data] returns for the sample files. *)
Definition sample_loaded_deliveries : DataFrame :=
  mkDF (columns sample_deliveries ++ ["id"; "season"])
    [ [Num 1; Str "X"; Str "Y"; Num 4; Num 4; NaN; NaN; Num 1; Str "2020"];
      [Num 1; Str "X"; Str "Y"; Num 0; Num 0; Str "X"; Str "run out";
       Num 1; Str "2020"];
      [Num 9; Str "Z"; Str "W"; Num 1; Num 1; Str "Z"; Str "bowled";
       NaN; NaN] ].

(** The match table [load_data] returns for the sample files. *)
Definition sample_loaded_matches : DataFrame :=
  mkDF (columns sample_matches)
    [ [Num 1; Str "2020"; Str "Pune"; Str "V1"; Str "A"; Str "B"; Str "A";
       Str "A"; Str "runs"; Str "p"];
      [Num 2; Str "2020"; Str "Unknown"; Str "V1"; Str "B"; Str "C"; Str "B";
       Str "No Result"; NaN; Str "Unknown"];
      [Num 3; Str "2021"; Str "Pune"; Str "V2"; Str "C"; Str "A"; Str "A";
       Str "C"; Str "wickets"; Str "q"] ].

(** A delivery file that has a column [season] of its own. *)
Definition clash_deliveries : DataFrame :=
  mkDF ["match_id"; "season"] [ [Num 1; Str "x"] ].

Definition clash_files (path : string) : result DataFrame :=
  if String.eqb path "matches.csv" then Ok sample_matches
  else Ok clash_deliveries.

(** A match table in which the season of the second match is missing. *)
Definition gap_matches : DataFrame :=
  mkDF ["id"; "season"] [ [Num 1; Str "2020"]; [Num 2; NaN] ].

(** A match table whose second row names as winner a team that did not
    play in it. *)
Definition odd_matches : DataFrame :=
  mkDF ["id"; "team1"; "team2"; "winner"]
    [ [Num 1; Str "C"; Str "B"; Str "C"];
      [Num 2; Str "A"; Str "B"; Str "C"] ].





(** Deliveries of one season whose runs leave the int64 range when
    added. *)
Definition huge_deliveries : DataFrame :=
  mkDF ["season"; "batter"; "batsman_runs"; "total_runs"]
    [ [Num 2024; Str "X"; Num 9223372036854775807;
       Num 9223372036854775807];
      [Num 2024; Str "X"; Num 1; Num 1] ].

(** Three matches of the team [A], which won the first. *)
Definition third_matches : DataFrame :=
  mkDF ["id"; "team1"; "team2"; "winner"]
    [ [Num 1; Str "A"; Str "B"; Str "A"];
      [Num 2; Str "A"; Str "C"; Str "C"];
      [Num 3; Str "B"; Str "A"; Str "B"] ].

(** Four matches: the toss winner won the first two and lost the third;
    the fourth was abandoned. *)
Definition toss_matches : DataFrame :=
  mkDF ["id"; "toss_winner"; "winner"]
    [ [Num 1; Str "A"; Str "A"]; [Num 2; Str "B"; Str "B"];
      [Num 3; Str "A"; Str "C"]; [Num 4; Str "B"; Str "No Result"] ].

(** A match table with the five columns the loader uses and no other. *)
Definition bare_matches : DataFrame :=
  mkDF ["id"; "season"; "city"; "winner"; "player_of_match"]
    [ [Num 1; Num 2024; Str "Pune"; Str "A"; Str "p"] ].

Definition bare_files (path : string) : result DataFrame :=
  if String.eqb path "matches.csv" then Ok bare_matches
  else Ok sample_deliveries.

(* ================================================================== *)
(** * Facts about lists *)

Lemma cell_eqb_eq (a b : cell) : cell_eqb a b = true <-> a = b.
Proof.
  destruct a, b; simpl; split; intros E; try discriminate; try reflexivity.
  - apply String.eqb_eq in E. now subst.
  - injection E as ->. apply String.eqb_refl.
  - apply Z.eqb_eq in E. now subst.
  - injection E as ->. apply Z.eqb_refl.
Qed.

#[export] Instance cell_HashableLaws : HashableLaws cell_Hashable.
Proof. constructor. exact cell_eqb_eq. Qed.

#[export] Instance bool_HashableLaws : HashableLaws bool_Hashable.
Proof. constructor. intros [] []; simpl; split; congruence. Qed.

Lemma list_sum_perm (l l' : list nat) :
  Permutation l l' -> list_sum l = list_sum l'.
Proof.
  induction 1; simpl; lia.
Qed.

Lemma select_map_filter {A} (p : A -> bool) (l : list A) :
  select (map p l) l = filter p l.
Proof.
  induction l as [|x l IH]; simpl; [reflexivity|].
  rewrite IH. reflexivity.
Qed.

Lemma select_map {A B} (f : A -> B) (mask : list bool) (l : list A) :
  select mask (map f l) = map f (select mask l).
Proof.
  revert l. induction mask as [|b mask IH]; intros [|x l]; simpl; trivial.
  destruct b; simpl; now rewrite IH.
Qed.

Lemma zip_with_map {A B C D} (f : B -> C -> D) (g : A -> B) (h : A -> C)
  (l : list A) :
  zip_with f (map g l) (map h l) = map (fun x => f (g x) (h x)) l.
Proof.
  induction l as [|x l IH]; simpl; [reflexivity|]. now rewrite IH.
Qed.

Lemma filter_map_comm {A B} (f : B -> bool) (g : A -> B) (l : list A) :
  filter f (map g l) = map g (filter (fun x => f (g x)) l).
Proof.
  induction l as [|x l IH]; simpl; [reflexivity|].
  destruct (f (g x)); simpl; now rewrite IH.
Qed.

Lemma filter_length_impl {A} (p q : A -> bool) (l : list A) :
  (forall x, In x l -> p x = true -> q x = true) ->
  List.length (filter p l) <= List.length (filter q l).
Proof.
  induction l as [|x l IH]; intros Hpq; simpl; [lia|].
  assert (IH' : List.length (filter p l) <= List.length (filter q l)).
  { apply IH. intros y Hy. apply Hpq. now right. }
  destruct (p x) eqn:Px.
  - rewrite (Hpq x (or_introl eq_refl) Px). simpl. lia.
  - destruct (q x); simpl; lia.
Qed.

Lemma nth_update_nth_same {A} (f : A -> A) (d : A) (j : nat) (l : list A) :
  j < List.length l -> nth j (update_nth j f l) d = f (nth j l d).
Proof.
  revert j. induction l as [|x l IH]; intros [|j] Hj; simpl in *;
    try lia; [reflexivity|].
  apply IH. lia.
Qed.

Lemma nth_update_nth_other {A} (f : A -> A) (d : A) (i j : nat) (l : list A) :
  i <> j -> nth i (update_nth j f l) d = nth i l d.
Proof.
  revert i j. induction l as [|x l IH]; intros [|i] [|j] Hij; simpl;
    trivial; try lia.
  apply IH. lia.
Qed.

Lemma update_nth_length {A} (f : A -> A) (j : nat) (l : list A) :
  List.length (update_nth j f l) = List.length l.
Proof.
  revert j. induction l as [|x l IH]; intros [|j]; simpl; trivial.
  now rewrite IH.
Qed.

(** ** Strongly sorted lists *)

Lemma SSorted_weaken {A} (R R' : A -> A -> Prop) (l : list A) :
  (forall a b, In a l -> In b l -> R a b -> R' a b) ->
  StronglySorted R l -> StronglySorted R' l.
Proof.
  intros Himp HS. induction HS as [|a l HS IH Hall]; constructor.
  - apply IH. intros x y Hx Hy. apply Himp; now right.
  - rewrite Forall_forall in *. intros y Hy.
    apply Himp; [now left | now right | now apply Hall].
Qed.

Lemma SSorted_filter {A} (R : A -> A -> Prop) (p : A -> bool) (l : list A) :
  StronglySorted R l -> StronglySorted R (filter p l).
Proof.
  induction 1 as [|a l HS IH Hall]; simpl; [constructor|].
  destruct (p a); [|exact IH].
  constructor; [exact IH|].
  rewrite Forall_forall in *. intros y Hy.
  apply filter_In in Hy. now apply Hall.
Qed.

Lemma SSorted_map {A B} (R : B -> B -> Prop) (f : A -> B) (l : list A) :
  StronglySorted (fun a b => R (f a) (f b)) l -> StronglySorted R (map f l).
Proof.
  induction 1 as [|a l HS IH Hall]; simpl; constructor; [exact IH|].
  rewrite Forall_forall in *. intros y Hy.
  apply in_map_iff in Hy. destruct Hy as [x [<- Hx]]. now apply Hall.
Qed.


Lemma SSorted_app_before {A} (R : A -> A -> Prop) (l1 l2 : list A) :
  StronglySorted R (l1 ++ l2) ->
  forall a b, In a l1 -> In b l2 -> R a b.
Proof.
  induction l1 as [|x l1 IH]; simpl; intros HS a b Ha Hb; [easy|].
  inversion HS as [|? ? HS' Hall]; subst.
  destruct Ha as [<- | Ha].
  - rewrite Forall_forall in Hall. apply Hall, in_or_app. now right.
  - now apply IH.
Qed.

(** ** Insertion sort *)

Section SortingFacts.
Variable A : Type.
Variable before : A -> A -> bool.

Lemma insert_perm (x : A) (l : list A) :
  Permutation (insert before x l) (x :: l).
Proof.
  induction l as [|y l IH]; simpl; [reflexivity|].
  destruct (before x y); [reflexivity|].
  rewrite IH. apply perm_swap.
Qed.

Lemma isort_perm (l : list A) : Permutation (isort before l) l.
Proof.
  induction l as [|x l IH]; simpl; [reflexivity|].
  rewrite insert_perm. now constructor.
Qed.
End SortingFacts.

Section StableSort.
Variable A : Type.
Variable key : A -> nat.
(** The order of the input. *)
Variable P : A -> A -> Prop.

Let before (a b : A) : bool := key b <=? key a.

Lemma insert_desc_sorted (x : A) (l : list A) :
  StronglySorted (desc_then key P) l -> Forall (P x) l ->
  StronglySorted (desc_then key P) (insert before x l).
Proof.
  induction l as [|y l IH]; simpl; intros HS HP.
  - repeat constructor.
  - inversion HS as [|? ? HS' Hall]; subst.
    inversion HP as [|? ? Py HP']; subst.
    unfold before at 1. destruct (key y <=? key x) eqn:E.
    + apply Nat.leb_le in E. constructor; [exact HS|].
      constructor.
      * unfold desc_then.
        destruct (Nat.eq_dec (key x) (key y)); [right; now split | left; lia].
      * rewrite Forall_forall in *. intros z Hz.
        specialize (Hall z Hz). specialize (HP' z Hz).
        unfold desc_then in *.
        destruct (Nat.eq_dec (key x) (key z)); [right; now split | left; lia].
    + apply Nat.leb_gt in E. constructor; [now apply IH|].
      rewrite Forall_forall in *. intros z Hz.
      apply (Permutation_in _ (insert_perm before x l)) in Hz.
      destruct Hz as [<- | Hz]; [left; exact E | now apply Hall].
Qed.

Lemma isort_desc_stable (l : list A) :
  StronglySorted P l -> StronglySorted (desc_then key P) (isort before l).
Proof.
  induction 1 as [|x l HS IH Hall]; simpl; [constructor|].
  apply insert_desc_sorted; [exact IH|].
  rewrite Forall_forall in *. intros z Hz. apply Hall.
  now apply (Permutation_in _ (isort_perm before l)).
Qed.
End StableSort.

(** ** Distinct values and counts *)

Section CountingFacts.
Context {K : Type} {H : Hashable K} {HL : HashableLaws H}.

Lemma key_eqb_true (a b : K) : key_eqb a b = true -> a = b.
Proof. apply (proj1 (key_eqb_eq a b)). Qed.

Lemma key_eqb_refl (k : K) : key_eqb k k = true.
Proof. now apply (proj2 (key_eqb_eq k k)). Qed.

Lemma key_eqb_neq (a b : K) : key_eqb a b = false <-> a <> b.
Proof.
  split.
  - intros E ->. rewrite key_eqb_refl in E. discriminate.
  - intros N. destruct (key_eqb a b) eqn:E; trivial.
    apply key_eqb_true in E. now destruct N.
Qed.

Lemma key_eq_dec (a b : K) : {a = b} + {a <> b}.
Proof.
  destruct (key_eqb a b) eqn:E.
  - left. now apply key_eqb_true.
  - right. now apply key_eqb_neq.
Qed.

Lemma unique_In (k : K) (s : list K) : In k (unique s) <-> In k s.
Proof.
  induction s as [|x s IH]; simpl; [tauto|].
  rewrite filter_In, IH, negb_true_iff, key_eqb_neq.
  destruct (key_eq_dec x k); intuition congruence.
Qed.

Lemma unique_NoDup (s : list K) : NoDup (unique s).
Proof.
  induction s as [|x s IH]; simpl; constructor.
  - rewrite filter_In, negb_true_iff, key_eqb_neq. tauto.
  - now apply NoDup_filter.
Qed.

Lemma count_notin (k : K) (s : list K) : ~ In k s -> count k s = 0.
Proof.
  induction s as [|x s IH]; simpl; intros N; [reflexivity|].
  destruct (key_eqb k x) eqn:E.
  - apply key_eqb_true in E. subst. tauto.
  - apply IH. tauto.
Qed.

Lemma count_in (k : K) (s : list K) : In k s -> 0 < count k s.
Proof.
  induction s as [|x s IH]; simpl; intros I; [easy|].
  destruct (key_eqb k x) eqn:E; [lia|].
  apply key_eqb_neq in E. destruct I as [-> | I]; [easy|].
  simpl. now apply IH.
Qed.

Lemma count_filter (p : K -> bool) (k : K) (s : list K) :
  p k = true -> count k (filter p s) = count k s.
Proof.
  intros Pk. induction s as [|x s IH]; simpl; [reflexivity|].
  destruct (p x) eqn:Px; simpl; rewrite IH; [reflexivity|].
  destruct (key_eqb k x) eqn:E; [|reflexivity].
  apply key_eqb_true in E. congruence.
Qed.

Lemma count_length (k : K) (s : list K) :
  count k s = List.length (filter (key_eqb k) s).
Proof.
  induction s as [|x s IH]; simpl; [reflexivity|].
  destruct (key_eqb k x); simpl; now rewrite IH.
Qed.

Lemma filter_neq_notin (k : K) (l : list K) :
  ~ In k l -> filter (fun x => negb (key_eqb k x)) l = l.
Proof.
  induction l as [|a l IH]; simpl; intros N; [reflexivity|].
  destruct (key_eqb k a) eqn:E.
  - apply key_eqb_true in E. subst. tauto.
  - simpl. rewrite IH; tauto.
Qed.

Lemma sum_split (f : K -> nat) (k : K) (l : list K) :
  NoDup l -> (~ In k l -> f k = 0) ->
  list_sum (map f l) =
  f k + list_sum (map f (filter (fun x => negb (key_eqb k x)) l)).
Proof.
  induction 1 as [|a l Na ND IH]; simpl; intros Z.
  - rewrite Z; tauto.
  - destruct (key_eqb k a) eqn:E; simpl.
    + apply key_eqb_true in E. subst a. now rewrite filter_neq_notin.
    + apply key_eqb_neq in E. rewrite IH; [lia|].
      intros N. apply Z. intros [->|I]; tauto.
Qed.

Lemma sum_count_unique (s : list K) :
  list_sum (map (fun k => count k s) (unique s)) = List.length s.
Proof.
  induction s as [|x s IH]; simpl; [reflexivity|].
  rewrite key_eqb_refl. simpl. f_equal.
  rewrite <- IH.
  rewrite (sum_split (fun k => count k s) x (unique_NoDup s)).
  - f_equal. f_equal. apply map_ext_in. intros a Ha.
    apply filter_In in Ha. destruct Ha as [_ Ha].
    apply negb_true_iff in Ha.
    destruct (key_eqb a x) eqn:E; [|reflexivity].
    apply key_eqb_true in E. subst a. rewrite key_eqb_refl in Ha.
    discriminate.
  - intros N. apply count_notin. now rewrite <- unique_In.
Qed.

Lemma tally_keys (s : list K) : map fst (tally s) = unique (dropna s).
Proof.
  unfold tally. rewrite map_map. simpl. apply map_id.
Qed.

Lemma tally_In (k : K) (c : nat) (s : list K) :
  In (k, c) (tally s) <->
  In k s /\ key_isna k = false /\ c = count k s.
Proof.
  unfold tally, dropna. rewrite in_map_iff. split.
  - intros [x [E I]]. injection E as -> ->.
    rewrite unique_In, filter_In, negb_true_iff in I. tauto.
  - intros [I [N ->]]. exists k. split; [reflexivity|].
    rewrite unique_In, filter_In, negb_true_iff. tauto.
Qed.

Lemma tally_sum (s : list K) :
  sum_counts (tally s) = List.length (dropna s).
Proof.
  unfold sum_counts, tally. rewrite map_map. simpl.
  rewrite <- (sum_count_unique (dropna s)).
  f_equal. apply map_ext_in. intros k Ik.
  unfold dropna in *. rewrite unique_In, filter_In in Ik.
  symmetry. apply count_filter. tauto.
Qed.

(** The distinct values of a series stand in the order of their first
    occurrences. *)
Lemma unique_first_pos (p : K -> bool) (s : list K) :
  StronglySorted (fun a b => first_pos a s < first_pos b s)
    (unique (filter p s)).
Proof.
  induction s as [|c s IH]; simpl; [constructor|].
  assert (shift : forall l,
    (forall y, In y l -> y <> c) ->
    StronglySorted (fun a b => first_pos a s < first_pos b s) l ->
    StronglySorted
      (fun a b => (if key_eqb a c then 0 else S (first_pos a s)) <
                  (if key_eqb b c then 0 else S (first_pos b s))) l).
  { intros l Hl. apply SSorted_weaken. intros a b Ia Ib Hab.
    apply Hl, key_eqb_neq in Ia. apply Hl, key_eqb_neq in Ib.
    rewrite Ia, Ib. lia. }
  destruct (p c) eqn:Pc; simpl.
  - constructor.
    + apply shift; [|now apply SSorted_filter].
      intros y Hy. apply filter_In in Hy. destruct Hy as [_ Hy].
      apply negb_true_iff, key_eqb_neq in Hy. congruence.
    + rewrite Forall_forall. intros y Hy.
      apply filter_In in Hy. destruct Hy as [_ Hy].
      apply negb_true_iff, key_eqb_neq in Hy.
      rewrite key_eqb_refl.
      assert (E : key_eqb y c = false) by (apply key_eqb_neq; congruence).
      rewrite E. lia.
  - apply shift; [|exact IH].
    intros y Hy ->. rewrite unique_In, filter_In in Hy. destruct Hy.
    congruence.
Qed.

Lemma sort_values_desc_perm (t : list (K * nat)) :
  Permutation (sort_values_desc t) t.
Proof. apply isort_perm. Qed.

Lemma value_counts_perm (s : list K) :
  Permutation (value_counts s) (tally s).
Proof. apply sort_values_desc_perm. Qed.

Lemma value_counts_In (k : K) (c : nat) (s : list K) :
  In (k, c) (value_counts s) <->
  In k s /\ key_isna k = false /\ c = count k s.
Proof.
  rewrite <- tally_In. split; apply Permutation_in.
  - apply value_counts_perm.
  - symmetry. apply value_counts_perm.
Qed.

Lemma value_counts_length (s : list K) :
  List.length (value_counts s) = nunique s.
Proof.
  rewrite (Permutation_length (value_counts_perm s)).
  unfold tally, nunique. apply length_map.
Qed.

Lemma value_counts_sum (s : list K) :
  sum_counts (value_counts s) = List.length (dropna s).
Proof.
  rewrite <- tally_sum. unfold sum_counts.
  apply list_sum_perm, Permutation_map, value_counts_perm.
Qed.

Lemma value_counts_ranked (s : list K) :
  StronglySorted (ranked_before s) (value_counts s).
Proof.
  unfold value_counts, sort_values_desc, ranked_before.
  apply isort_desc_stable. unfold tally.
  apply SSorted_map. simpl. apply unique_first_pos.
Qed.
End CountingFacts.

(* ================================================================== *)
(** * Facts about frames *)

Lemma col_index_In (name : string) (cols : list string) :
  In name cols -> exists j, col_index name cols = Some j.
Proof.
  induction cols as [|c cols IH]; simpl; [easy|].
  intros I. destruct (String.eqb name c) eqn:E; [now exists 0|].
  apply String.eqb_neq in E.
  destruct I as [-> | I]; [easy|].
  destruct (IH I) as [j ->]. now exists (S j).
Qed.

Lemma col_index_nth (name : string) (cols : list string) (j : nat) :
  col_index name cols = Some j ->
  j < List.length cols /\ nth j cols "" = name.
Proof.
  revert j. induction cols as [|c cols IH]; simpl; intros j; [easy|].
  destruct (String.eqb name c) eqn:E.
  - intros [= <-]. apply String.eqb_eq in E. split; [lia | now subst].
  - destruct (col_index name cols) as [i|]; simpl; [|easy].
    intros [= <-]. destruct (IH i eq_refl). split; [lia | easy].
Qed.

Lemma col_index_inj (a b : string) (cols : list string) (j : nat) :
  col_index a cols = Some j -> col_index b cols = Some j -> a = b.
Proof.
  intros Ha Hb. apply col_index_nth in Ha, Hb.
  destruct Ha as [_ <-], Hb as [_ <-]. reflexivity.
Qed.

Lemma getitem_field (df : DataFrame) (name : string) :
  In name (columns df) ->
  getitem df name = Ok (map (field df name) (rows df)).
Proof.
  intros I. unfold getitem, field, column.
  destruct (col_index_In _ _ I) as [j ->]. reflexivity.
Qed.

(** ** The aggregations of the home page, row by row *)

Lemma matches_with_result_rows (matches : DataFrame) :
  In "winner" (columns matches) ->
  Home.matches_with_result matches =
  Ok (mkDF (columns matches) (filter (has_result matches) (rows matches))).
Proof.
  intros I. unfold Home.matches_with_result.
  rewrite (getitem_field _ _ I). simpl.
  unfold series_ne_scalar, loc_mask. rewrite map_map.
  now rewrite select_map_filter.
Qed.

Lemma toss_flags_rows (matches : DataFrame) :
  In "winner" (columns matches) -> In "toss_winner" (columns matches) ->
  Home.toss_impact matches =
  Ok (value_counts
        (map (toss_won matches) (filter (has_result matches) (rows matches)))).
Proof.
  intros Iw It. unfold Home.toss_impact.
  rewrite (matches_with_result_rows _ Iw). simpl.
  unfold Home.toss_winner_is_match_winner.
  rewrite !getitem_field by assumption. simpl.
  unfold series_eq. now rewrite zip_with_map.
Qed.

Lemma groupby_size_perm (keys : Series) :
  Permutation (groupby_size keys) (tally keys).
Proof.
  unfold groupby_size, tally. apply Permutation_map, isort_perm.
Qed.

Lemma groupby_size_sum (keys : Series) :
  sum_counts (groupby_size keys) = List.length (filter notna keys).
Proof.
  unfold sum_counts.
  rewrite (list_sum_perm (Permutation_map snd (groupby_size_perm keys))).
  exact (tally_sum keys).
Qed.

Lemma groupby_size_In (k : cell) (c : nat) (keys : Series) :
  In (k, c) (groupby_size keys) <->
  In k keys /\ k <> NaN /\ c = count k keys.
Proof.
  assert (E : isna k = false <-> k <> NaN) by (destruct k; simpl; easy).
  rewrite <- E.
  transitivity (In (k, c) (tally keys)); [|exact (tally_In k c keys)].
  split; apply Permutation_in;
    [|symmetry]; apply groupby_size_perm.
Qed.

Lemma notna_iff (k : cell) : isna k = false <-> k <> NaN.
Proof. destruct k; simpl; easy. Qed.

Lemma firstn_incl_In {A} (n : nat) (l : list A) (x : A) :
  In x (firstn n l) -> In x l.
Proof.
  intros I. rewrite <- (firstn_skipn n l). apply in_or_app. now left.
Qed.

Lemma skipn_In_full {A} (n : nat) (l : list A) (x : A) :
  In x (skipn n l) -> List.length (firstn n l) = n.
Proof.
  intros I. rewrite length_firstn.
  destruct (Nat.le_gt_cases (List.length l) n) as [L|L]; [|lia].
  rewrite (skipn_all2 l L) in I. easy.
Qed.

(* ================================================================== *)
(** * Home page: the claims *)

(** The equality used to state the properties is the equality of the hash
    tables, and the elementwise [==] when the right-hand cell is present. *)
Lemma same_cell_eqb (a b : cell) : same a b = cell_eqb a b.
Proof.
  unfold same. destruct (cell_eq_dec a b) as [E|N].
  - symmetry. now apply cell_eqb_eq.
  - destruct (cell_eqb a b) eqn:E; [|reflexivity].
    apply cell_eqb_eq in E. contradiction.
Qed.

Lemma py_eq_same (a b : cell) : py_eq a b = negb (same b NaN) && same a b.
Proof.
  rewrite !same_cell_eqb. destruct a, b; simpl; trivial.
Qed.



Lemma count_positive_In {K} {H : Hashable K} {HL : HashableLaws H} (k : K)
  (s : list K) : 0 < count k s <-> In k s.
Proof.
  split; [|apply count_in].
  intros P. destruct (in_dec key_eq_dec k s) as [I|N]; trivial.
  rewrite (count_notin _ _ N) in P. lia.
Qed.







(** The tests of the toss chart, row by row. *)
Lemma has_result_decided (matches : DataFrame) :
  filter (has_result matches) (rows matches) = decided matches.
Proof.
  unfold decided. apply filter_ext. intros r. unfold has_result.
  rewrite py_eq_same. reflexivity.
Qed.

Lemma toss_won_spec (matches : DataFrame) (r : list cell) :
  toss_won matches r = toss_winner_won matches r.
Proof.
  unfold toss_won, toss_winner_won. apply py_eq_same.
Qed.

(** C5.  For every match table, the toss chart first keeps the rows whose
    winner is not [No Result]; its table is the frequency table of the flag
    [toss_winner == winner] over these rows: at most two buckets, one per
    value of the flag that occurs, each counting the kept rows with that
    value; the counts add up to the number of kept rows, which is the
    number of rows of the table less those whose winner is [No Result]. *)
Theorem toss_impact_partition (matches : DataFrame) :
  In "winner" (columns matches) -> In "toss_winner" (columns matches) ->
  exists with_result buckets,
    Home.matches_with_result matches = Ok with_result /\
    columns with_result = columns matches /\
    rows with_result = decided matches /\
    Home.toss_impact matches = Ok buckets /\
    NoDup (map fst buckets) /\
    (forall b c,
        In (b, c) buckets <->
        0 < c /\
        c = List.length
              (filter (fun r => Bool.eqb b (toss_winner_won matches r))
                 (decided matches))) /\
    sum_counts buckets = List.length (decided matches) /\
    List.length (decided matches) + won_rows matches (Str "No Result") =
    len matches.
Proof.
  intros Iw It.
  rewrite (toss_flags_rows _ Iw It), (matches_with_result_rows _ Iw).
  rewrite has_result_decided.
  set (kept := decided matches).
  set (flags := map (toss_won matches) kept).
  exists (mkDF (columns matches) kept), (value_counts flags).
  split; [reflexivity|]. split; [reflexivity|]. split; [reflexivity|].
  split; [reflexivity|].
  assert (C : forall b, count b flags =
                        List.length
                          (filter
                             (fun r => Bool.eqb b (toss_winner_won matches r))
                             kept)).
  { intros b. unfold flags. rewrite count_length, filter_map_comm, length_map.
    f_equal. apply filter_ext. intros r. simpl. now rewrite toss_won_spec. }
  split.
  { rewrite (Permutation_map fst (value_counts_perm flags)), tally_keys.
    apply unique_NoDup. }
  split.
  { intros b c. rewrite value_counts_In, <- C. simpl. split.
    - intros [I [_ ->]]. split; [now apply count_in | reflexivity].
    - intros [P ->]. repeat split. now apply count_positive_In. }
  split.
  { rewrite value_counts_sum. unfold dropna. simpl.
    rewrite forallb_filter_id.
    - unfold flags. apply length_map.
    - now apply forallb_forall. }
  unfold kept, decided, won_rows, len.
  induction (rows matches) as [|r l IH]; simpl; [reflexivity|].
  assert (E : same (Str "No Result") (field matches "winner" r) =
              same (field matches "winner" r) (Str "No Result")).
  { unfold same.
    destruct (cell_eq_dec (Str "No Result") (field matches "winner" r)),
             (cell_eq_dec (field matches "winner" r) (Str "No Result"));
      congruence. }
  rewrite E. destruct (same (field matches "winner" r) (Str "No Result"));
    simpl; lia.
Qed.

Lemma toss_impact_partition_witness :
  (Home.toss_impact toss_matches = Ok [(true, 2); (false, 1)] /\
   List.length (decided toss_matches) = 3 /\
   sum_counts [(true, 2); (false, 1)] = List.length (decided toss_matches) /\
   won_rows toss_matches (Str "No Result") = 1) /\
  (Home.toss_impact sample_matches = Ok [(false, 2); (true, 1)] /\
   List.length (decided sample_matches) = 3 /\
   won_rows sample_matches (Str "No Result") = 0).
Proof.
  split.
  - assert (Iw : In "winner" (columns toss_matches)) by (simpl; tauto).
    assert (It : In "toss_winner" (columns toss_matches)) by (simpl; tauto).
    destruct (toss_impact_partition toss_matches Iw It)
      as (wr & buckets & _ & _ & _ & E & _ & _ & S & T).
    assert (E' : Home.toss_impact toss_matches =
                 Ok [(true, 2); (false, 1)]) by reflexivity.
    rewrite E' in E. injection E as <-.
    split; [exact E'|].
    assert (L : List.length (decided toss_matches) = 3) by reflexivity.
    split; [exact L|]. split; [exact S|].
    rewrite L in T. change (len toss_matches) with 4 in T. lia.
  - assert (Iw : In "winner" (columns sample_matches)) by (simpl; tauto).
    assert (It : In "toss_winner" (columns sample_matches))
      by (simpl; tauto).
    destruct (toss_impact_partition sample_matches Iw It)
      as (wr & buckets & _ & _ & _ & E & _ & _ & S & T).
    assert (E' : Home.toss_impact sample_matches =
                 Ok [(false, 2); (true, 1)]) by reflexivity.
    rewrite E' in E. injection E as <-.
    split; [exact E'|].
    assert (L : List.length (decided sample_matches) = 3) by reflexivity.
    split; [exact L|].
    rewrite L in T. change (len sample_matches) with 3 in T. lia.
Defined.

Lemma matches_per_season_rows (matches : DataFrame) :
  In "season" (columns matches) ->
  Home.matches_per_season matches =
  Ok (groupby_size (map (field matches "season") (rows matches))).
Proof.
  intros I. unfold Home.matches_per_season.
  now rewrite (getitem_field _ _ I).
Qed.

(** C7, as the code has it.  For every match table, the counts of
    [matches.groupby('season').size()] add up to the number of rows whose
    season is present; they add up to the number of rows of the table when
    no season is missing. *)
Theorem matches_per_season_total (matches : DataFrame) :
  In "season" (columns matches) ->
  exists groups,
    Home.matches_per_season matches = Ok groups /\
    sum_counts groups =
    List.length
      (filter (fun r => notna (field matches "season" r)) (rows matches)) /\
    ((forall r, In r (rows matches) -> field matches "season" r <> NaN) ->
     sum_counts groups = Home.total_matches matches).
Proof.
  intros I. rewrite (matches_per_season_rows _ I).
  eexists. split; [reflexivity|].
  rewrite groupby_size_sum, filter_map_comm, length_map.
  split; [reflexivity|].
  intros P. rewrite forallb_filter_id; [reflexivity|].
  apply forallb_forall. intros r Ir. specialize (P r Ir).
  unfold notna. now destruct (field matches "season" r).
Qed.

(** C7 as stated fails on a table with a missing season: the row forms no
    group, so the counts add up to one for a table of two rows. *)
Lemma matches_per_season_gap :
  Home.matches_per_season gap_matches = Ok [(Str "2020", 1)] /\
  sum_counts [(Str "2020", 1)] <> Home.total_matches gap_matches.
Proof.
  split; [reflexivity|]. vm_compute. discriminate.
Qed.

Lemma matches_per_season_total_witness :
  exists groups,
    Home.matches_per_season sample_loaded_matches = Ok groups /\
    sum_counts groups = 3.
Proof.
  destruct (matches_per_season_total sample_loaded_matches)
    as [groups [E [_ T]]].
  - simpl; tauto.
  - exists groups. split; [exact E|].
    apply T. intros r Ir. simpl in Ir.
    repeat (destruct Ir as [<- | Ir]; [vm_compute; discriminate|]).
    destruct Ir.
Defined.

(* ================================================================== *)
(** * Python floats *)

Section Floats.
Local Open Scope Z_scope.

(** ** Shifting a mantissa to the right *)

Lemma iter_pos_nat {A} (f : A -> A) (p : positive) (x : A) :
  iter_pos f p x = Nat.iter (Pos.to_nat p) f x.
Proof.
  revert x. induction p as [p IH|p IH|]; intros x; cbn [iter_pos].
  - rewrite !IH, Pos2Nat.inj_xI.
    replace (S (2 * Pos.to_nat p))%nat
      with (Pos.to_nat p + S (Pos.to_nat p))%nat by lia.
    rewrite Nat.iter_add. f_equal.
    now rewrite Nat.iter_succ_r.
  - rewrite !IH, Pos2Nat.inj_xO.
    replace (2 * Pos.to_nat p)%nat
      with (Pos.to_nat p + Pos.to_nat p)%nat by lia.
    now rewrite Nat.iter_add.
  - reflexivity.
Qed.

Lemma shr_1_m (mrs : shr_record) :
  0 <= shr_m mrs -> shr_m (shr_1 mrs) = shr_m mrs / 2.
Proof.
  destruct mrs as [m r s]. simpl. intros P.
  destruct m as [|[p|p|]|p]; simpl; try lia; trivial.
  - rewrite Pos2Z.inj_xI. apply Z.div_unique with 1; lia.
  - rewrite Pos2Z.inj_xO. apply Z.div_unique with 0; lia.
Qed.

Lemma shr_1_exact (mrs : shr_record) :
  0 <= shr_m mrs -> shr_m mrs mod 2 = 0 ->
  shr_r mrs = false -> shr_s mrs = false ->
  shr_r (shr_1 mrs) = false /\ shr_s (shr_1 mrs) = false.
Proof.
  destruct mrs as [m r s]. simpl. intros P E -> ->.
  destruct m as [|[p|p|]|p]; simpl; try lia; try tauto.
  - rewrite Pos2Z.inj_xI in E.
    rewrite Z.add_comm, Z.mul_comm, Z.mod_add in E by lia. discriminate.
  - discriminate.
Qed.

Lemma shr_iter_m (n : nat) (mrs : shr_record) :
  0 <= shr_m mrs ->
  shr_m (Nat.iter n shr_1 mrs) = shr_m mrs / 2 ^ Z.of_nat n.
Proof.
  intros P. induction n as [|n IH].
  - simpl. now rewrite Z.div_1_r.
  - rewrite Nat2Z.inj_succ, Z.pow_succ_r by lia. simpl Nat.iter.
    rewrite shr_1_m, IH.
    + rewrite Z.div_div by lia. f_equal. lia.
    + rewrite IH. apply Z.div_pos; lia.
Qed.

Lemma shr_iter_exact (n : nat) (mrs : shr_record) :
  0 <= shr_m mrs -> shr_m mrs mod 2 ^ Z.of_nat n = 0 ->
  shr_r mrs = false -> shr_s mrs = false ->
  shr_r (Nat.iter n shr_1 mrs) = false /\
  shr_s (Nat.iter n shr_1 mrs) = false.
Proof.
  intros P. induction n as [|n IH]; intros E R S.
  - simpl. tauto.
  - rewrite Nat2Z.inj_succ, Z.pow_succ_r in E by lia.
    assert (E' : shr_m mrs mod 2 ^ Z.of_nat n = 0).
    { apply Z.mod_divide in E; [|lia]. apply Z.mod_divide; [lia|].
      destruct E as [c E]. exists (c * 2). lia. }
    destruct (IH E' R S) as [R' S'].
    simpl Nat.iter. apply shr_1_exact; trivial.
    + rewrite shr_iter_m by assumption. apply Z.div_pos; lia.
    + rewrite shr_iter_m by assumption.
      apply Z.mod_divide in E; [|lia]. destruct E as [c E].
      rewrite E.
      replace (c * (2 * 2 ^ Z.of_nat n)) with (c * 2 * 2 ^ Z.of_nat n) by lia.
      rewrite Z.div_mul by lia. now rewrite Z.mod_mul by lia.
Qed.

(** ** The number of digits of a mantissa *)

Lemma digits2_size (p : positive) : digits2_pos p = Pos.size p.
Proof.
  induction p as [p IH|p IH|]; simpl; now rewrite ?IH.
Qed.

Lemma Zdigits2_nonneg (m : Z) : 0 <= Zdigits2 m.
Proof. destruct m; simpl; lia. Qed.

Lemma Zdigits2_bounds (m : Z) :
  0 < m -> 2 ^ (Zdigits2 m - 1) <= m < 2 ^ Zdigits2 m.
Proof.
  destruct m as [|p|p]; try lia. intros _. simpl Zdigits2.
  rewrite digits2_size. split.
  - pose proof (Pos.size_le p) as L.
    apply Pos2Z.pos_le_pos in L. rewrite Pos2Z.inj_pow in L.
    assert (E : 2 ^ Z.pos (Pos.size p) =
                2 ^ (Z.pos (Pos.size p) - 1) * 2).
    { rewrite Z.mul_comm, <- Z.pow_succ_r by lia. f_equal. lia. }
    lia.
  - pose proof (Pos.size_gt p) as G.
    apply Pos2Z.pos_lt_pos in G. now rewrite Pos2Z.inj_pow in G.
Qed.

Lemma Zdigits2_le (m d : Z) : 0 <= m -> 0 <= d -> m < 2 ^ d -> Zdigits2 m <= d.
Proof.
  intros P D L. destruct (Z.eq_dec m 0) as [->|N]; [simpl; lia|].
  destruct (@Zdigits2_bounds m) as [B _]; [lia|].
  destruct (Z_le_gt_dec (Zdigits2 m) d) as [Y|G]; trivial.
  assert (2 ^ d <= 2 ^ (Zdigits2 m - 1)) by (apply Z.pow_le_mono_r; lia).
  lia.
Qed.

Lemma Zdigits2_lt (m : Z) : 0 <= m -> m < 2 ^ Zdigits2 m.
Proof.
  intros P. destruct (Z.eq_dec m 0) as [->|N]; [simpl; lia|].
  apply Zdigits2_bounds. lia.
Qed.

Lemma Zdigits2_mono (a b : Z) : 0 <= a <= b -> Zdigits2 a <= Zdigits2 b.
Proof.
  intros [P L]. apply Zdigits2_le; [lia | apply Zdigits2_nonneg|].
  pose proof (@Zdigits2_lt b). lia.
Qed.

Lemma fexp_mono (a b : Z) : a <= b -> fexp prec emax a <= fexp prec emax b.
Proof. unfold fexp. lia. Qed.

Lemma fexp_le_emax (a : Z) : a <= emax -> fexp prec emax a <= emax - prec.
Proof. unfold fexp, emin, prec, emax. lia. Qed.

(** ** Rounding *)

Lemma shr_m_of_loc (m : Z) (l : location) : shr_m (shr_record_of_loc m l) = m.
Proof. destruct l as [|[]]; reflexivity. Qed.

Lemma shr_fexp_spec (m e : Z) (l : location) :
  0 <= m ->
  exists mrs,
    shr_fexp prec emax m e l =
    (mrs, Z.max e (fexp prec emax (Zdigits2 m + e))) /\
    shr_m mrs = m / 2 ^ (Z.max e (fexp prec emax (Zdigits2 m + e)) - e) /\
    (l = loc_Exact ->
     m mod 2 ^ (Z.max e (fexp prec emax (Zdigits2 m + e)) - e) = 0 ->
     loc_of_shr_record mrs = loc_Exact).
Proof.
  intros P. unfold shr_fexp, shr.
  set (f := fexp prec emax (Zdigits2 m + e)).
  destruct (f - e) as [|p|p] eqn:D.
  - replace (Z.max e f) with e by lia. rewrite Z.sub_diag.
    eexists. split; [reflexivity|]. rewrite shr_m_of_loc. split.
    + now rewrite Z.div_1_r.
    + now intros ->.
  - replace (Z.max e f) with (e + Z.pos p) by lia.
    replace (e + Z.pos p - e) with (Z.pos p) by lia.
    eexists. split; [reflexivity|]. rewrite iter_pos_nat.
    rewrite <- (positive_nat_Z p). split.
    + rewrite shr_iter_m; rewrite shr_m_of_loc; trivial.
    + intros -> E.
      destruct (@shr_iter_exact (Pos.to_nat p)
                  (shr_record_of_loc m loc_Exact)) as [R S]; trivial.
      destruct (Nat.iter _ _ _) as [m' r s]. simpl in *. now subst.
  - replace (Z.max e f) with e by lia. rewrite Z.sub_diag.
    eexists. split; [reflexivity|]. rewrite shr_m_of_loc. split.
    + now rewrite Z.div_1_r.
    + now intros ->.
Qed.

Lemma round_nearest_even_bounds (m : Z) (l : location) :
  m <= round_nearest_even m l <= m + 1 /\
  (l = loc_Exact -> round_nearest_even m l = m).
Proof.
  split; [|now intros ->].
  destruct l as [|[]]; simpl; try destruct (Z.even m); lia.
Qed.

(** The result of a rounding of the value [mx * 2 ^ ex] (with the position
    [lx] of the exact value above it) does not exceed a bound
    [N * 2 ^ e1] on the grid of the rounding. *)
Lemma binary_round_aux_le (sx : bool) (mx ex : Z) (lx : location) (N : Z) :
  0 <= mx ->
  mx <= N * 2 ^ (Z.max ex (fexp prec emax (Zdigits2 mx + ex)) - ex) ->
  (mx = N * 2 ^ (Z.max ex (fexp prec emax (Zdigits2 mx + ex)) - ex) ->
   lx = loc_Exact) ->
  Zdigits2 N + Z.max ex (fexp prec emax (Zdigits2 mx + ex)) <= emax ->
  Z.max ex (fexp prec emax (Zdigits2 mx + ex)) <= emax - prec ->
  match binary_round_aux prec emax sx mx ex lx with
  | S754_zero s => s = sx
  | S754_finite s m e =>
      s = sx /\
      Z.max ex (fexp prec emax (Zdigits2 mx + ex)) <= e /\
      e <= emax - prec /\
      Z.pos m *
      2 ^ (e - Z.max ex (fexp prec emax (Zdigits2 mx + ex))) <= N
  | _ => False
  end.
Proof.
  intros P B X D E. unfold binary_round_aux.
  destruct (@shr_fexp_spec mx ex lx P) as (mrs & -> & M & L).
  set (e1 := Z.max ex (fexp prec emax (Zdigits2 mx + ex))) in *.
  set (m1 := round_nearest_even (shr_m mrs) (loc_of_shr_record mrs)).
  assert (K : 0 <= e1 - ex) by (unfold e1; lia).
  assert (Pk : 0 < 2 ^ (e1 - ex)) by (apply Z.pow_pos_nonneg; lia).
  assert (N0 : 0 <= N) by nia.
  assert (M1 : 0 <= m1 <= N).
  { destruct (round_nearest_even_bounds (shr_m mrs) (loc_of_shr_record mrs))
      as [[Lo Hi] Ex]. fold m1 in Lo, Hi, Ex.
    assert (0 <= shr_m mrs) by (rewrite M; apply Z.div_pos; lia).
    split; [lia|].
    destruct (Z.eq_dec mx (N * 2 ^ (e1 - ex))) as [Q|Q].
    - rewrite Ex.
      + rewrite M, Q. rewrite Z.div_mul; lia.
      + apply L; [now apply X|]. rewrite Q. apply Z.mod_mul. lia.
    - assert (mx / 2 ^ (e1 - ex) < N).
      { apply Z.div_lt_upper_bound; lia. }
      lia. }
  destruct (@shr_fexp_spec m1 e1 loc_Exact (proj1 M1)) as (mrs2 & -> & M2 & _).
  set (e2 := Z.max e1 (fexp prec emax (Zdigits2 m1 + e1))) in *.
  assert (E2 : e2 <= emax - prec).
  { unfold e2. apply Z.max_lub; [exact E|]. apply fexp_le_emax.
    pose proof (@Zdigits2_mono m1 N M1). lia. }
  assert (K2 : 0 <= e2 - e1) by (unfold e2; lia).
  assert (Pk2 : 0 < 2 ^ (e2 - e1)) by (apply Z.pow_pos_nonneg; lia).
  assert (Q2 : 0 <= shr_m mrs2) by (rewrite M2; apply Z.div_pos; lia).
  destruct (shr_m mrs2) as [|m|m] eqn:S2; [reflexivity| |lia].
  apply Z.leb_le in E2. rewrite E2.
  apply Z.leb_le in E2.
  split; [reflexivity|]. split; [lia|]. split; [lia|].
  rewrite M2.
  pose proof (Z.mul_div_le m1 (2 ^ (e2 - e1)) Pk2). lia.
Qed.

(** ** Division and multiplication *)

Lemma new_location_exact (nb k : Z) : k = 0 -> new_location nb k = loc_Exact.
Proof.
  intros ->. unfold new_location, new_location_even, new_location_odd.
  now destruct (Z.even nb).
Qed.

Lemma new_location_inexact (nb k : Z) :
  k <> 0 -> new_location nb k <> loc_Exact.
Proof.
  intros N. unfold new_location, new_location_even, new_location_odd.
  apply Z.eqb_neq in N. destruct (Z.even nb); now rewrite N.
Qed.

Lemma SFdiv_operands (A B : positive) :
  SFdiv prec emax (S754_finite false A 0) (S754_finite false B 0) =
  binary_round_aux prec emax false (div_mant A B) (div_exp A B) (div_loc A B).
Proof.
  unfold SFdiv, SFdiv_core_binary, div_mant, div_loc, div_exp.
  rewrite !Z.add_0_r, Z.sub_diag.
  set (e' := Z.min (fexp prec emax
                      (Zdigits2 (Z.pos A) - Zdigits2 (Z.pos B))) 0).
  assert (Le : e' <= 0) by (unfold e'; lia).
  assert (M : match 0 - e' with
              | Z.pos _ => Z.shiftl (Z.pos A) (0 - e')
              | 0 => Z.pos A
              | Z.neg _ => 0
              end = Z.pos A * 2 ^ (- e')).
  { replace (0 - e') with (- e') by lia.
    destruct (- e') as [|p|p] eqn:D; try lia.
    now rewrite Z.shiftl_mul_pow2. }
  rewrite M.
  unfold Z.div, Z.modulo.
  now destruct (Z.div_eucl (Z.pos A * 2 ^ (- e')) (Z.pos B)).
Qed.

Lemma div_mant_bounds (A B : positive) :
  0 <= div_mant A B <= Z.pos A * 2 ^ (- div_exp A B) /\
  div_exp A B <= 0 /\
  (Z.pos A <= Z.pos B -> div_mant A B <= 2 ^ (- div_exp A B)) /\
  (Z.pos A <= Z.pos B -> div_mant A B = 2 ^ (- div_exp A B) ->
   div_loc A B = loc_Exact).
Proof.
  unfold div_mant, div_loc.
  assert (Le : div_exp A B <= 0) by (unfold div_exp; lia).
  set (s := - div_exp A B). assert (S : 0 <= s) by (unfold s; lia).
  assert (P : 0 < 2 ^ s) by (apply Z.pow_pos_nonneg; lia).
  split.
  { split; [apply Z.div_pos; nia|].
    apply Z.div_le_upper_bound; nia. }
  split; [exact Le|]. split.
  - intros L. apply Z.div_le_upper_bound; nia.
  - intros L E. apply new_location_exact.
    assert (G : Z.pos B * 2 ^ s <= Z.pos A * 2 ^ s).
    { rewrite <- E at 1. apply Z.mul_div_le. lia. }
    assert (Z.pos A = Z.pos B) by nia.
    replace (Z.pos A) with (Z.pos B) by lia.
    rewrite Z.mul_comm. apply Z.mod_mul. lia.
Qed.

Lemma pow_split (a b : Z) : 0 <= a -> 0 <= b -> 2 ^ (a + b) = 2 ^ a * 2 ^ b.
Proof. intros. now apply Z.pow_add_r. Qed.

Lemma SFdiv_unit (A B : positive) :
  Z.pos A <= Z.pos B ->
  unit_float (SFdiv prec emax (S754_finite false A 0) (S754_finite false B 0)).
Proof.
  intros L. rewrite SFdiv_operands.
  destruct (div_mant_bounds A B) as ([M0 M1] & Le & U & X).
  specialize (U L). specialize (X L).
  set (mz := div_mant A B) in *. set (ez := div_exp A B) in *.
  set (e1 := Z.max ez (fexp prec emax (Zdigits2 mz + ez))).
  assert (D : Zdigits2 mz + ez <= 1).
  { assert (Zdigits2 mz <= - ez + 1); [|lia].
    apply Zdigits2_le; try lia.
    rewrite pow_split by lia. change (2 ^ 1) with 2.
    assert (0 < 2 ^ (- ez)) by (apply Z.pow_pos_nonneg; lia). lia. }
  assert (E1 : ez <= e1 <= 0).
  { unfold e1. split; [lia|]. apply Z.max_lub; [lia|].
    unfold fexp, emin, prec, emax. lia. }
  assert (Sp : 2 ^ (- ez) = 2 ^ (- e1) * 2 ^ (e1 - ez)).
  { rewrite <- pow_split by lia. f_equal. lia. }
  pose proof (@binary_round_aux_le false mz ez (div_loc A B) (2 ^ (- e1)) M0)
    as R.
  fold e1 in R.
  assert (P1 : 0 < 2 ^ (- e1)) by (apply Z.pow_pos_nonneg; lia).
  destruct (binary_round_aux prec emax false mz ez (div_loc A B))
    as [s|s| |s m e].
  - apply R; try (rewrite <- Sp; assumption).
    + assert (Zdigits2 (2 ^ (- e1)) <= - e1 + 1); [|unfold emax; lia].
      apply Zdigits2_le; try lia.
      rewrite pow_split by lia. change (2 ^ 1) with 2. lia.
    + unfold emax, prec. lia.
  - apply R; try (rewrite <- Sp; assumption).
    + assert (Zdigits2 (2 ^ (- e1)) <= - e1 + 1); [|unfold emax; lia].
      apply Zdigits2_le; try lia.
      rewrite pow_split by lia. change (2 ^ 1) with 2. lia.
    + unfold emax, prec. lia.
  - apply R; try (rewrite <- Sp; assumption).
    + assert (Zdigits2 (2 ^ (- e1)) <= - e1 + 1); [|unfold emax; lia].
      apply Zdigits2_le; try lia.
      rewrite pow_split by lia. change (2 ^ 1) with 2. lia.
    + unfold emax, prec. lia.
  - destruct R as (-> & Lo & Hi & V); try (rewrite <- Sp; assumption).
    + assert (Zdigits2 (2 ^ (- e1)) <= - e1 + 1); [|unfold emax; lia].
      apply Zdigits2_le; try lia.
      rewrite pow_split by lia. change (2 ^ 1) with 2. lia.
    + unfold emax, prec. lia.
    + simpl. split; [reflexivity|].
      assert (P2 : 0 < 2 ^ (e - e1)) by (apply Z.pow_pos_nonneg; lia).
      assert (Ee : e <= 0).
      { destruct (Z_le_gt_dec e 0) as [Y|G]; trivial. exfalso.
        assert (2 ^ (- e1 + 1) <= 2 ^ (e - e1))
          by (apply Z.pow_le_mono_r; lia).
        rewrite pow_split in H by lia. change (2 ^ 1) with 2 in H. nia. }
      split; [exact Ee|].
      assert (Sq : 2 ^ (- e1) = 2 ^ (- e) * 2 ^ (e - e1)).
      { rewrite <- pow_split by lia. f_equal. lia. }
      rewrite Sq in V.
      apply Z.mul_le_mono_pos_r in V; assumption.
Qed.

(** A rounding of a value below [2 ^ 1000] is a float, of about the same
    magnitude. *)
Lemma binary_round_aux_finite (sx : bool) (mx ex : Z) (lx : location) :
  0 <= mx -> Zdigits2 mx + ex <= 1000 -> ex <= 900 ->
  match binary_round_aux prec emax sx mx ex lx with
  | S754_zero s => s = sx
  | S754_finite s m e =>
      s = sx /\
      Zdigits2 (Z.pos m) + e <= Z.max (Zdigits2 mx + ex) (- 1074) + 1
  | _ => False
  end.
Proof.
  intros P D E.
  set (e1 := Z.max ex (fexp prec emax (Zdigits2 mx + ex))).
  assert (K : 0 <= e1 - ex) by (unfold e1; lia).
  assert (Pk : 0 < 2 ^ (e1 - ex)) by (apply Z.pow_pos_nonneg; lia).
  set (N := mx / 2 ^ (e1 - ex) + 1).
  assert (Q0 : 0 <= mx / 2 ^ (e1 - ex)) by (apply Z.div_pos; lia).
  assert (B : mx < N * 2 ^ (e1 - ex)).
  { unfold N. rewrite Z.mul_comm. apply Z.mul_succ_div_gt. lia. }
  assert (E1 : e1 <= Z.max (Zdigits2 mx + ex - 53) (Z.max ex (- 1074))).
  { unfold e1, fexp, emin, prec, emax. lia. }
  pose proof (Zdigits2_nonneg mx) as Dn.
  assert (DN : Zdigits2 N + e1 <= Z.max (Zdigits2 mx + ex) (- 1074) + 1).
  { set (d := Z.max (Zdigits2 mx - (e1 - ex)) 0).
    assert (Zdigits2 N <= d + 1); [|lia].
    apply Zdigits2_le; try lia.
    assert (Q1 : mx / 2 ^ (e1 - ex) < 2 ^ d).
    { apply Z.div_lt_upper_bound; [lia|].
      rewrite <- pow_split by lia.
      pose proof (Zdigits2_lt P) as U.
      assert (2 ^ Zdigits2 mx <= 2 ^ (e1 - ex + d))
        by (apply Z.pow_le_mono_r; lia).
      lia. }
    rewrite pow_split by lia. change (2 ^ 1) with 2. unfold N. lia. }
  pose proof (@binary_round_aux_le sx mx ex lx N P) as R. fold e1 in R.
  destruct (binary_round_aux prec emax sx mx ex lx) as [s|s| |s m e];
    try (apply R; unfold emax, prec; lia).
  destruct R as (-> & Lo & Hi & V); try (unfold emax, prec; lia).
  split; [reflexivity|].
  assert (P2 : 0 < 2 ^ (e - e1)) by (apply Z.pow_pos_nonneg; lia).
  assert (N0 : 0 <= N) by (unfold N; lia).
  pose proof (Zdigits2_lt N0) as UN.
  assert (G : e - e1 <= Zdigits2 N).
  { destruct (Z_le_gt_dec (e - e1) (Zdigits2 N)) as [Y|G]; trivial.
    assert (2 ^ Zdigits2 N <= 2 ^ (e - e1))
      by (apply Z.pow_le_mono_r; [lia | lia]).
    nia. }
  assert (Zdigits2 (Z.pos m) <= Zdigits2 N - (e - e1)); [|lia].
  apply Zdigits2_le; try lia.
  assert (Sq : 2 ^ Zdigits2 N =
               2 ^ (Zdigits2 N - (e - e1)) * 2 ^ (e - e1)).
  { rewrite <- pow_split by lia. f_equal. lia. }
  rewrite Sq in UN. nia.
Qed.

Lemma float_100 : float_of_Z 100 = S754_finite false 7036874417766400 (-46).
Proof. reflexivity. Qed.

Lemma SFdiv_moderate (A B : positive) :
  Z.pos A < 2 ^ 63 ->
  moderate (SFdiv prec emax (S754_finite false A 0) (S754_finite false B 0)).
Proof.
  intros L. rewrite SFdiv_operands.
  destruct (div_mant_bounds A B) as ([M0 M1] & Le & _).
  assert (D : Zdigits2 (div_mant A B) + div_exp A B <= 63).
  { assert (Zdigits2 (div_mant A B) <= 63 - div_exp A B); [|lia].
    apply Zdigits2_le; try lia.
    replace (63 - div_exp A B) with (63 + - div_exp A B) by lia.
    rewrite pow_split by lia.
    assert (0 < 2 ^ (- div_exp A B)) by (apply Z.pow_pos_nonneg; lia).
    nia. }
  pose proof (@binary_round_aux_finite false (div_mant A B) (div_exp A B)
                (div_loc A B) M0) as R.
  destruct (binary_round_aux _ _ _ _ _ _) as [s|s| |s m e]; cbn [moderate];
    try (apply R; lia).
  destruct R as [-> R]; first [lia | split; [reflexivity | lia]].
Qed.

Lemma Zdigits2_mul (a b : positive) :
  Zdigits2 (Z.pos (a * b)) <= Zdigits2 (Z.pos a) + Zdigits2 (Z.pos b).
Proof.
  pose proof (Zdigits2_nonneg (Z.pos a)).
  pose proof (Zdigits2_nonneg (Z.pos b)).
  apply Zdigits2_le; try lia.
  rewrite pow_split by lia. rewrite Pos2Z.inj_mul.
  pose proof (@Zdigits2_lt (Z.pos a)). pose proof (@Zdigits2_lt (Z.pos b)).
  nia.
Qed.

Lemma SFmul_100_moderate (f : spec_float) :
  moderate f ->
  match SFmul prec emax f (float_of_Z 100) with
  | S754_zero s => s = false
  | S754_finite s m e => s = false
  | _ => False
  end.
Proof.
  rewrite float_100.
  destruct f as [s|s| |s m e]; cbn [SFmul moderate xorb]; try easy.
  - now intros ->.
  - intros [-> D].
    pose proof (Zdigits2_mul m 7036874417766400) as Dm.
    change (Zdigits2 7036874417766400) with 53 in Dm.
    pose proof (@binary_round_aux_finite false
                  (Z.pos (m * 7036874417766400)) (e + -46) loc_Exact) as R.
    pose proof (Zdigits2_nonneg (Z.pos m)).
    destruct (binary_round_aux _ _ _ _ _ _) as [s|s| |s m' e'];
      apply R; lia.
Qed.

Lemma SFmul_100_unit (f : spec_float) :
  unit_float f -> percent_float (SFmul prec emax f (float_of_Z 100)).
Proof.
  rewrite float_100.
  destruct f as [s|s| |s m e]; cbn [SFmul unit_float percent_float xorb];
    try easy.
  - now intros ->.
  - intros (-> & Le & U).
    set (M := Z.pos (m * 7036874417766400)).
    set (E := e + -46).
    set (e1 := Z.max E (fexp prec emax (Zdigits2 M + E))).
    assert (Pe : 0 < 2 ^ (- e)) by (apply Z.pow_pos_nonneg; lia).
    assert (Mb : M <= 100 * 2 ^ 46 * 2 ^ (- e)).
    { unfold M. rewrite Pos2Z.inj_mul.
      change (Z.pos 7036874417766400) with (100 * 2 ^ 46). nia. }
    assert (D : Zdigits2 M + E <= 7).
    { assert (Zdigits2 M <= 53 - e); [|unfold E; lia].
      apply Zdigits2_le; try lia.
      replace (53 - e) with (53 + - e) by lia. rewrite pow_split by lia.
      assert (100 * 2 ^ 46 < 2 ^ 53) by reflexivity. nia. }
    assert (E1 : E <= e1 <= -46).
    { unfold e1. split; [lia|]. apply Z.max_lub; [unfold E; lia|].
      unfold fexp, emin, prec, emax. lia. }
    assert (P1 : 0 < 2 ^ (- e1)) by (apply Z.pow_pos_nonneg; lia).
    assert (Sp : 100 * 2 ^ 46 * 2 ^ (- e) =
                 100 * 2 ^ (- e1) * 2 ^ (e1 - E)).
    { rewrite <- !Z.mul_assoc, <- !pow_split by (unfold E; lia).
      do 2 f_equal. unfold E. lia. }
    assert (DN : Zdigits2 (100 * 2 ^ (- e1)) + e1 <= emax).
    { assert (Zdigits2 (100 * 2 ^ (- e1)) <= 7 + - e1);
        [|unfold emax; lia].
      apply Zdigits2_le; try lia. rewrite pow_split by lia.
      assert (100 < 2 ^ 7) by reflexivity. nia. }
    assert (H1 : 0 <= M) by (unfold M; lia).
    assert (H2 : M <= 100 * 2 ^ (- e1) * 2 ^ (e1 - E))
      by (rewrite <- Sp; exact Mb).
    assert (H5 : e1 <= emax - prec) by (unfold emax, prec; lia).
    pose proof (@binary_round_aux_le false M E loc_Exact
                  (100 * 2 ^ (- e1)) H1 H2 (fun _ => eq_refl) DN H5) as R.
    destruct (binary_round_aux _ _ _ _ _ _) as [s|s| |s m' e'];
      try exact R.
    destruct R as (-> & Lo & Hi & V).
    split; [reflexivity|]. exists e1.
    split; [exact Lo|]. split; [lia | exact V].
Qed.

Lemma percent_float_value (f : spec_float) :
  percent_float f ->
  is_finite f = true /\
  (inject_Z 0 <= float_value f)%Q /\ (float_value f <= inject_Z 100)%Q.
Proof.
  destruct f as [s|s| |s m e]; cbn [percent_float]; try easy.
  intros (-> & e1 & Lo & Neg & V). split; [reflexivity|].
  assert (P1 : 0 < 2 ^ (- e1)) by (apply Z.pow_pos_nonneg; lia).
  unfold float_value. destruct e as [|p|p].
  - unfold Qle; simpl. split; [lia|].
    replace (0 - e1) with (- e1) in V by lia. nia.
  - assert (P2 : 0 < 2 ^ Z.pos p) by (apply Z.pow_pos_nonneg; lia).
    unfold Qle; cbn [Qnum Qden inject_Z]. split; [nia|].
    rewrite !Z.mul_1_r.
    replace (Z.pos p - e1) with (Z.pos p + - e1) in V by lia.
    rewrite pow_split in V by lia. nia.
  - assert (P2 : 0 < 2 ^ Z.pos p) by (apply Z.pow_pos_nonneg; lia).
    unfold Qle; cbn [Qnum Qden inject_Z]. rewrite Pos2Z.inj_pow.
    split; [lia|]. rewrite Z.mul_1_r.
    assert (Sq : 2 ^ (- e1) = 2 ^ Z.pos p * 2 ^ (Z.neg p - e1)).
    { rewrite <- pow_split by lia. f_equal. lia. }
    assert (P3 : 0 < 2 ^ (Z.neg p - e1))
      by (apply Z.pow_pos_nonneg; lia).
    rewrite Sq in V. nia.
Qed.

(** [a / b] on row counts: with a divisor that is not 0 and fewer than
    [2 ^ 63] rows no exception is raised. *)
Lemma py_truediv_moderate (a b : nat) :
  (0 < b)%nat -> Z.of_nat a < 2 ^ 63 ->
  py_truediv a b = Ok (SFdiv prec emax (int_operand a) (int_operand b)) /\
  moderate (SFdiv prec emax (int_operand a) (int_operand b)).
Proof.
  intros Pb La. unfold py_truediv.
  destruct b as [|b]; [lia|].
  assert (M : moderate (SFdiv prec emax (int_operand a)
                          (int_operand (S b)))).
  { destruct a as [|a]; [reflexivity|].
    cbn [int_operand]. apply SFdiv_moderate.
    rewrite <- positive_nat_Z, Nat2Pos.id by lia. exact La. }
  split; [|exact M].
  destruct (SFdiv prec emax (int_operand a) (int_operand (S b)));
    try reflexivity; destruct M.
Qed.

Lemma py_truediv_unit (a b : nat) :
  (0 < b)%nat -> (a <= b)%nat ->
  py_truediv a b = Ok (SFdiv prec emax (int_operand a) (int_operand b)) /\
  unit_float (SFdiv prec emax (int_operand a) (int_operand b)).
Proof.
  intros Pb L. unfold py_truediv.
  destruct b as [|b]; [lia|].
  assert (U : unit_float (SFdiv prec emax (int_operand a)
                            (int_operand (S b)))).
  { destruct a as [|a]; [reflexivity|].
    cbn [int_operand]. apply SFdiv_unit.
    rewrite <- !positive_nat_Z, !Nat2Pos.id by lia. lia. }
  split; [|exact U].
  destruct (SFdiv prec emax (int_operand a) (int_operand (S b)));
    try reflexivity; destruct U.
Qed.

End Floats.

(* ================================================================== *)
(** * Team analysis page *)

Lemma team_matches_rows (matches : DataFrame) (t : cell) :
  In "team1" (columns matches) -> In "team2" (columns matches) ->
  TeamAnalysis.team_matches matches t =
  Ok (mkDF (columns matches) (filter (plays_in matches t) (rows matches))).
Proof.
  intros I1 I2. unfold TeamAnalysis.team_matches.
  rewrite !getitem_field by assumption. simpl.
  unfold mask_or, series_eq_scalar, loc_mask.
  rewrite !map_map, zip_with_map.
  now rewrite select_map_filter.
Qed.

Lemma team_wins_rows (matches : DataFrame) (t : cell) :
  In "winner" (columns matches) ->
  TeamAnalysis.team_wins matches t =
  Ok (mkDF (columns matches) (filter (won_by matches t) (rows matches))).
Proof.
  intros I. unfold TeamAnalysis.team_wins.
  rewrite (getitem_field _ _ I). simpl.
  unfold series_eq_scalar, loc_mask. rewrite map_map.
  now rewrite select_map_filter.
Qed.

Lemma filter_length_le {A} (p : A -> bool) (l : list A) :
  List.length (filter p l) <= List.length l.
Proof.
  induction l as [|x l IH]; simpl; [lia|]. destruct (p x); simpl; lia.
Qed.

(** The conditional expression of the win rate never divides by zero,
    and on row counts below [2 ^ 63] the division yields a float. *)
Lemma win_rate_of_cases (tw tm : DataFrame) :
  (0 < len tm -> (Z.of_nat (len tw) < 2 ^ 63)%Z ->
   TeamAnalysis.win_rate_of tw tm =
   Ok (PyFloat
         (SFmul prec emax
            (SFdiv prec emax (int_operand (len tw)) (int_operand (len tm)))
            (float_of_Z 100))) /\
   is_finite
     (SFmul prec emax
        (SFdiv prec emax (int_operand (len tw)) (int_operand (len tm)))
        (float_of_Z 100)) = true) /\
  (len tm = 0 -> TeamAnalysis.win_rate_of tw tm = Ok (PyInt 0)).
Proof.
  unfold TeamAnalysis.win_rate_of. split.
  - intros L B. destruct (0 <? len tm) eqn:E; [|apply Nat.ltb_ge in E; lia].
    destruct (py_truediv_moderate (len tw) L B) as [-> M].
    split; [reflexivity|].
    apply SFmul_100_moderate in M.
    destruct (SFmul prec emax _ _); try reflexivity; destruct M.
  - intros L. now rewrite L.
Qed.

(** C4.  For every match table (of fewer than [2 ^ 63] rows, the bound of
    a length in Python) and every team, the win rate is the value of
    [len(team_wins) / len(team_matches) * 100] when the team has matches:
    the float nearest to the quotient of the two counts, multiplied as a
    float by 100.0; it is the int 0, which Python shows as 0.0, when the
    team has none.  In both cases the expression yields a number: the
    division is evaluated only with a positive divisor, so no
    [ZeroDivisionError] arises. *)
Theorem win_rate_defined (matches : DataFrame) (t : cell) :
  In "team1" (columns matches) -> In "team2" (columns matches) ->
  In "winner" (columns matches) ->
  (Z.of_nat (len matches) < 2 ^ 63)%Z ->
  exists tm tw,
    TeamAnalysis.team_matches matches t = Ok tm /\
    TeamAnalysis.team_wins matches t = Ok tw /\
    (0 < len tm ->
     TeamAnalysis.win_rate matches t =
     Ok (PyFloat
           (SFmul prec emax
              (SFdiv prec emax (int_operand (len tw)) (int_operand (len tm)))
              (float_of_Z 100))) /\
     is_finite
       (SFmul prec emax
          (SFdiv prec emax (int_operand (len tw)) (int_operand (len tm)))
          (float_of_Z 100)) = true) /\
    (len tm = 0 -> TeamAnalysis.win_rate matches t = Ok (PyInt 0)) /\
    (exists v, TeamAnalysis.win_rate matches t = Ok v).
Proof.
  intros I1 I2 Iw B.
  pose proof (team_matches_rows matches t I1 I2) as Em.
  pose proof (team_wins_rows matches t Iw) as Ew.
  do 2 eexists. split; [exact Em|]. split; [exact Ew|].
  unfold TeamAnalysis.win_rate. rewrite Em, Ew. cbn [rbind].
  match goal with
  | |- context [TeamAnalysis.win_rate_of ?a ?b] =>
      destruct (win_rate_of_cases a b) as [P Z];
      set (tw := a) in *; set (tm := b) in *
  end.
  assert (Bw : (Z.of_nat (len tw) < 2 ^ 63)%Z).
  { unfold tw, len in *. cbn [rows].
    pose proof (filter_length_le (won_by matches t) (rows matches)). lia. }
  split; [intros L; now apply P|]. split; [exact Z|].
  destruct (Nat.eq_dec (len tm) 0) as [E|E].
  - eexists. now apply Z.
  - eexists. apply P; [lia | exact Bw].
Qed.

Lemma win_rate_defined_witness :
  TeamAnalysis.win_rate third_matches (Str "A") =
  Ok (PyFloat (S754_finite false 4691249611844266 (-47))) /\
  TeamAnalysis.win_rate sample_loaded_matches (Str "A") =
  Ok (PyFloat (S754_finite false 7036874417766400 (-47))) /\
  TeamAnalysis.win_rate sample_loaded_matches (Str "Z") = Ok (PyInt 0).
Proof.
  assert (I1 : In "team1" (columns sample_loaded_matches)) by (simpl; tauto).
  assert (I2 : In "team2" (columns sample_loaded_matches)) by (simpl; tauto).
  assert (Iw : In "winner" (columns sample_loaded_matches)) by (simpl; tauto).
  assert (B : (Z.of_nat (len sample_loaded_matches) < 2 ^ 63)%Z)
    by reflexivity.
  assert (J1 : In "team1" (columns third_matches)) by (simpl; tauto).
  assert (J2 : In "team2" (columns third_matches)) by (simpl; tauto).
  assert (Jw : In "winner" (columns third_matches)) by (simpl; tauto).
  assert (C : (Z.of_nat (len third_matches) < 2 ^ 63)%Z) by reflexivity.
  split; [|split].
  - destruct (win_rate_defined third_matches (Str "A") J1 J2 Jw C)
      as [tm [tw [Em [Ew [P _]]]]].
    injection Em as <-. injection Ew as <-.
    destruct P as [-> _]; [vm_compute; lia | reflexivity].
  - destruct (win_rate_defined sample_loaded_matches (Str "A") I1 I2 Iw B)
      as [tm [tw [Em [Ew [P _]]]]].
    injection Em as <-. injection Ew as <-.
    destruct P as [-> _]; [vm_compute; lia | reflexivity].
  - destruct (win_rate_defined sample_loaded_matches (Str "Z") I1 I2 Iw B)
      as [tm [tw [Em [Ew [_ [Z _]]]]]].
    injection Em as <-. apply Z. reflexivity.
Defined.

(** C6, as the code has it.  For every match table and team [t] such that
    every row won by [t] has [t] as one of its two teams, the matches of
    [t] are at least as many as its wins. *)
Theorem team_wins_le_matches (matches : DataFrame) (t : cell) :
  In "team1" (columns matches) -> In "team2" (columns matches) ->
  In "winner" (columns matches) ->
  (forall r, In r (rows matches) ->
             won_by matches t r = true -> plays_in matches t r = true) ->
  exists tm tw,
    TeamAnalysis.team_matches matches t = Ok tm /\
    TeamAnalysis.team_wins matches t = Ok tw /\
    rows tm = filter (plays_in matches t) (rows matches) /\
    rows tw = filter (won_by matches t) (rows matches) /\
    len tw <= len tm.
Proof.
  intros I1 I2 Iw P.
  do 2 eexists.
  split; [now apply team_matches_rows|].
  split; [now apply team_wins_rows|].
  simpl. repeat split. unfold len. simpl.
  now apply filter_length_impl.
Qed.

Lemma team_wins_le_matches_witness :
  exists tm tw,
    TeamAnalysis.team_matches sample_loaded_matches (Str "A") = Ok tm /\
    TeamAnalysis.team_wins sample_loaded_matches (Str "A") = Ok tw /\
    len tw <= len tm.
Proof.
  assert (I1 : In "team1" (columns sample_loaded_matches)) by (simpl; tauto).
  assert (I2 : In "team2" (columns sample_loaded_matches)) by (simpl; tauto).
  assert (Iw : In "winner" (columns sample_loaded_matches)) by (simpl; tauto).
  assert (P : forall r, In r (rows sample_loaded_matches) ->
                        won_by sample_loaded_matches (Str "A") r = true ->
                        plays_in sample_loaded_matches (Str "A") r = true).
  { intros r Ir. simpl in Ir.
    repeat (destruct Ir as [<- | Ir]; [vm_compute; congruence|]).
    destruct Ir. }
  destruct (team_wins_le_matches sample_loaded_matches (Str "A") I1 I2 Iw P)
    as [tm [tw [Em [Ew [_ [_ L]]]]]].
  now exists tm, tw.
Defined.

(** C6 as stated fails on a table in which a team is recorded as the
    winner of a match it did not play: [C], which the selector offers, has
    one match and two wins. *)
Lemma team_wins_exceed_matches :
  TeamAnalysis.teams odd_matches = Ok [Str "A"; Str "C"] /\
  exists tm tw,
    TeamAnalysis.team_matches odd_matches (Str "C") = Ok tm /\
    TeamAnalysis.team_wins odd_matches (Str "C") = Ok tw /\
    len tm = 1 /\ len tw = 2 /\ ~ len tm >= len tw.
Proof.
  split; [reflexivity|].
  do 2 eexists. split; [reflexivity|]. split; [reflexivity|].
  vm_compute. repeat split. lia.
Qed.

(** ** The team selector *)

Lemma py_insert_perm (x : cell) (l r : list cell) :
  py_insert x l = Ok r -> Permutation r (x :: l).
Proof.
  revert r. induction l as [|y l IH]; simpl; intros r.
  - intros [= <-]. reflexivity.
  - destruct (py_lt y x) as [[|]|e]; simpl; try discriminate.
    + destruct (py_insert x l) as [r'|e]; simpl; [|discriminate].
      intros [= <-]. rewrite (IH r' eq_refl). apply perm_swap.
    + intros [= <-]. reflexivity.
Qed.

Lemma py_sorted_perm (l s : list cell) :
  py_sorted l = Ok s -> Permutation s l.
Proof.
  revert s. induction l as [|x l IH]; simpl; intros s.
  - intros [= <-]. reflexivity.
  - destruct (py_sorted l) as [s'|e]; simpl; [|discriminate].
    intros E. rewrite (py_insert_perm _ _ E). constructor. now apply IH.
Qed.

Lemma py_insert_strs (x : cell) (l : list cell) :
  is_str x -> Forall is_str l -> exists r, py_insert x l = Ok r.
Proof.
  intros [s ->]. induction 1 as [|y l [t ->] Hl [r IH]]; simpl.
  - now eexists.
  - destruct (String.ltb t s); [|now eexists].
    rewrite IH. simpl. now eexists.
Qed.

Lemma py_sorted_strs (l : list cell) :
  Forall is_str l -> exists s, py_sorted l = Ok s.
Proof.
  induction 1 as [|x l Hx Hl [s IH]]; simpl; [now eexists|].
  rewrite IH. simpl. apply py_insert_strs; [exact Hx|].
  rewrite Forall_forall in *. intros y Hy. apply Hl.
  now apply (Permutation_in _ (py_sorted_perm _ IH)).
Qed.

(** C10.  For every match table, the team count of the home page is the
    number of distinct present values of the [team1] column, and the
    options of the team selector, whenever [sorted] yields them (as it does
    when the column holds strings), are the distinct values of that column
    and nothing else; two tables with the same [team1] column give the same
    count and the same options.  Hence a team that occurs in [team2] but
    not in [team1] is neither among the counted teams nor an option. *)
Theorem teams_from_team1 (matches : DataFrame) (team1 : Series) :
  getitem matches "team1" = Ok team1 ->
  exists counted,
    NoDup counted /\
    (forall k, In k counted <-> In k team1 /\ k <> NaN) /\
    Home.total_teams matches = Ok (List.length counted) /\
    (forall options,
        TeamAnalysis.teams matches = Ok options ->
        NoDup options /\ forall k, In k options <-> In k team1) /\
    (Forall is_str team1 ->
     exists options, TeamAnalysis.teams matches = Ok options) /\
    (forall other,
        getitem other "team1" = Ok team1 ->
        Home.total_teams other = Home.total_teams matches /\
        TeamAnalysis.teams other = TeamAnalysis.teams matches) /\
    (forall team2 t,
        getitem matches "team2" = Ok team2 ->
        In t team2 -> ~ In t team1 ->
        ~ In t counted /\
        forall options,
          TeamAnalysis.teams matches = Ok options -> ~ In t options).
Proof.
  intros G. exists (unique (dropna team1)).
  assert (Opt : forall options,
             TeamAnalysis.teams matches = Ok options ->
             NoDup options /\ forall k, In k options <-> In k team1).
  { unfold TeamAnalysis.teams. rewrite G. simpl. intros options E.
    apply py_sorted_perm in E. split.
    - apply (Permutation_NoDup (Permutation_sym E)), unique_NoDup.
    - intros k. rewrite <- (unique_In k team1).
      split; apply Permutation_in; [exact E | now symmetry]. }
  assert (Cnt : forall k,
             In k (unique (dropna team1)) <-> In k team1 /\ k <> NaN).
  { intros k. unfold dropna. rewrite unique_In, filter_In, negb_true_iff.
    simpl. now rewrite notna_iff. }
  split; [apply unique_NoDup|].
  split; [exact Cnt|].
  split; [unfold Home.total_teams; now rewrite G|].
  split; [exact Opt|].
  split.
  { intros S. unfold TeamAnalysis.teams. rewrite G. simpl.
    apply py_sorted_strs. rewrite Forall_forall in *. intros k Ik.
    apply S. now apply unique_In. }
  split.
  { intros other G'. unfold Home.total_teams, TeamAnalysis.teams.
    now rewrite G, G'. }
  intros team2 t _ _ N. split.
  - rewrite Cnt. tauto.
  - intros options E. destruct (Opt options E) as [_ O]. now rewrite O.
Qed.

Lemma teams_from_team1_witness :
  TeamAnalysis.teams odd_matches = Ok [Str "A"; Str "C"] /\
  ~ In (Str "B") [Str "A"; Str "C"].
Proof.
  split; [reflexivity|].
  destruct (teams_from_team1 odd_matches (team1 := [Str "C"; Str "A"])
              eq_refl)
    as [counted [_ [_ [_ [_ [_ [_ Only]]]]]]].
  assert (I2 : In (Str "B") [Str "B"; Str "B"]) by (simpl; tauto).
  assert (N1 : ~ In (Str "B") [Str "C"; Str "A"]).
  { simpl. intros [E|[E|[]]]; discriminate. }
  destruct (Only [Str "B"; Str "B"] (Str "B") eq_refl I2 N1) as [_ NotOpt].
  exact (NotOpt [Str "A"; Str "C"] eq_refl).
Defined.

(* ================================================================== *)
(** * Player statistics page *)

Lemma filter_filter {A} (p q : A -> bool) (l : list A) :
  filter q (filter p l) = filter (fun x => p x && q x) l.
Proof.
  induction l as [|x l IH]; simpl; [reflexivity|].
  destruct (p x); simpl; [destruct (q x)|]; now rewrite IH.
Qed.

Lemma getitem_loc_mask (df : DataFrame) (mask : list bool) (name : string)
  (s : Series) :
  getitem df name = Ok s ->
  getitem (loc_mask df mask) name = Ok (select mask s).
Proof.
  unfold getitem, column. simpl.
  destruct (col_index name (columns df)); [|discriminate].
  intros [= <-]. now rewrite select_map.
Qed.

(** The ranking of the bowlers is a function of two columns only. *)
Lemma wickets_by_bowler_columns (deliveries : DataFrame)
  (player_dismissed bowler : Series) :
  getitem deliveries "player_dismissed" = Ok player_dismissed ->
  getitem deliveries "bowler" = Ok bowler ->
  PlayerStats.wickets_by_bowler deliveries =
  Ok (sort_values_desc
        (groupby_size (select (series_notna player_dismissed) bowler))).
Proof.
  intros Gp Gb. unfold PlayerStats.wickets_by_bowler, PlayerStats.wickets.
  rewrite Gp. simpl.
  now rewrite (getitem_loc_mask _ (series_notna player_dismissed) _ Gb).
Qed.

Lemma wickets_rows (deliveries : DataFrame) :
  In "player_dismissed" (columns deliveries) ->
  PlayerStats.wickets deliveries =
  Ok (mkDF (columns deliveries)
        (filter (dismissed deliveries) (rows deliveries))).
Proof.
  intros I. unfold PlayerStats.wickets.
  rewrite (getitem_field _ _ I). simpl.
  unfold series_notna, loc_mask. rewrite map_map.
  now rewrite select_map_filter.
Qed.

Lemma sort_values_desc_sorted {K} `{Hashable K} (t : list (K * nat)) :
  StronglySorted (fun a b => snd b <= snd a) (sort_values_desc t).
Proof.
  apply SSorted_weaken
    with (R := desc_then (@snd K nat) (fun _ _ => True)).
  - intros a b _ _ [L | [E _]]; lia.
  - apply isort_desc_stable.
    induction t; constructor; trivial.
    now apply Forall_forall.
Qed.

(** C8.  For every delivery table and every [n], the wickets are the
    deliveries whose [player_dismissed] is present, the ranking has an
    entry for a bowler exactly when some such delivery names that bowler,
    the entry counts all of these deliveries, in descending order of count,
    and [top_bowlers] is the first [n] entries.  The ranking is determined
    by the [player_dismissed] and [bowler] columns: tables that agree on
    them, whatever their dismissal kinds, have the same top bowlers. *)
Theorem top_bowlers_credit (deliveries : DataFrame) (n : nat) :
  In "player_dismissed" (columns deliveries) ->
  In "bowler" (columns deliveries) ->
  exists ranking,
    PlayerStats.wickets deliveries =
    Ok (mkDF (columns deliveries)
          (filter (dismissed deliveries) (rows deliveries))) /\
    PlayerStats.wickets_by_bowler deliveries = Ok ranking /\
    PlayerStats.top_bowlers n deliveries = Ok (firstn n ranking) /\
    (forall b c,
        In (b, c) ranking <->
        b <> NaN /\ 0 < c /\ c = credited deliveries b) /\
    StronglySorted (fun a b => snd b <= snd a) ranking /\
    (forall other,
        getitem other "player_dismissed" =
        getitem deliveries "player_dismissed" ->
        getitem other "bowler" = getitem deliveries "bowler" ->
        PlayerStats.top_bowlers n other =
        PlayerStats.top_bowlers n deliveries).
Proof.
  intros Ip Ib.
  pose proof (getitem_field _ _ Ip) as Gp.
  pose proof (getitem_field _ _ Ib) as Gb.
  pose proof (wickets_by_bowler_columns _ Gp Gb) as W.
  eexists. split; [now apply wickets_rows|].
  split; [exact W|].
  split; [unfold PlayerStats.top_bowlers; now rewrite W|].
  set (keys := select _ _).
  assert (Ek : keys =
               map (field deliveries "bowler")
                 (filter (dismissed deliveries) (rows deliveries))).
  { unfold keys, series_notna. rewrite map_map, select_map.
    now rewrite select_map_filter. }
  assert (C : forall b, count b keys = credited deliveries b).
  { intros b. rewrite Ek, count_length, filter_map_comm, length_map.
    now rewrite filter_filter. }
  split.
  { intros b c.
    transitivity (In (b, c) (groupby_size keys)).
    { split; apply Permutation_in;
        [|symmetry]; apply sort_values_desc_perm. }
    rewrite groupby_size_In, <- C. split.
    - intros [I [N ->]]. repeat split; trivial. now apply count_in.
    - intros [N [P ->]]. repeat split; trivial.
      destruct (in_dec key_eq_dec b keys) as [I|NI]; trivial.
      rewrite (count_notin _ _ NI) in P. lia. }
  split; [apply sort_values_desc_sorted|].
  intros other Gp' Gb'. rewrite Gp in Gp'. rewrite Gb in Gb'.
  unfold PlayerStats.top_bowlers.
  now rewrite W, (wickets_by_bowler_columns _ Gp' Gb').
Qed.

Lemma top_bowlers_credit_witness :
  PlayerStats.top_bowlers 3 sample_deliveries =
  Ok [(Str "W", 1); (Str "Y", 1)] /\
  credited sample_deliveries (Str "Y") = 1.
Proof.
  assert (Ip : In "player_dismissed" (columns sample_deliveries))
    by (simpl; tauto).
  assert (Ib : In "bowler" (columns sample_deliveries)) by (simpl; tauto).
  destruct (top_bowlers_credit sample_deliveries 3 Ip Ib)
    as [ranking [_ [W [T _]]]].
  injection W as <-. split; [exact T | reflexivity].
Defined.

(* ================================================================== *)
(** * The loader *)

Lemma column_series (name : string) (s : Series) :
  column 0 (mkDF [name] (map (fun c => [c]) s)) = s.
Proof.
  unfold column. cbn [rows]. rewrite map_map. apply map_id.
Qed.

Ltac run_store :=
  cbn [app List.length nth update_nth columns rows sv_frame sv_col
       fill_column].

(** One run of the loader on two readable files whose match table has the
    three columns to normalize. *)
Lemma load_data_run (pandas : pandas_version)
  (read_csv : string -> result DataFrame) (m d : DataFrame) (ic iw ip : nat) :
  read_csv "matches.csv" = Ok m ->
  read_csv "deliveries.csv" = Ok d ->
  col_index "city" (columns m) = Some ic ->
  col_index "winner" (columns m) = Some iw ->
  col_index "player_of_match" (columns m) = Some ip ->
  load_data pandas read_csv =
  match after_fillna pandas m ic iw ip with
  | Ok m1 =>
      match getitem_cols m1 ["id"; "season"] with
      | Ok sel =>
          match merge_left d sel "match_id" "id" with
          | Ok d' => ((Some m1, Some d'), None)
          | Raise e => ((None, None), Some e)
          end
      | Raise e => ((None, None), Some e)
      end
  | Raise e => ((None, None), Some e)
  end.
Proof.
  intros Hm Hd Hc Hw Hp. unfold load_data, after_fillna, filled.
  cbv beta iota delta
    [load_body mbind lift alloc deref view mret mraise fillna_inplace].
  rewrite Hm, Hd. destruct pandas; cbn [fillna_blocked orb].
  - run_store. rewrite Hc. run_store. rewrite Hw. run_store. rewrite Hp.
    run_store.
    destruct (getitem_cols _ _) as [sel|e]; [|reflexivity].
    cbn [app List.length nth].
    destruct (merge_left d sel "match_id" "id") as [d'|e]; reflexivity.
  - run_store. rewrite Hc. run_store. rewrite column_series.
    destruct (existsb isna (column ic m) &&
              negb (can_hold (dtype_of (column ic m)) (Str "Unknown")));
      [reflexivity|].
    cbn [orb]. run_store. rewrite Hw. run_store. rewrite column_series.
    destruct (existsb isna (column iw m) &&
              negb (can_hold (dtype_of (column iw m)) (Str "No Result")));
      [reflexivity|].
    cbn [orb]. run_store. rewrite Hp. run_store. rewrite column_series.
    destruct (existsb isna (column ip m) &&
              negb (can_hold (dtype_of (column ip m)) (Str "Unknown")));
      [reflexivity|].
    run_store.
    destruct (getitem_cols _ _) as [sel|e]; [|reflexivity].
    cbn [app List.length nth].
    destruct (merge_left d sel "match_id" "id") as [d'|e]; reflexivity.
Qed.

Lemma load_data_missing_column (pandas : pandas_version)
  (read_csv : string -> result DataFrame) (m d : DataFrame) (name : string) :
  read_csv "matches.csv" = Ok m ->
  read_csv "deliveries.csv" = Ok d ->
  In name ["city"; "winner"; "player_of_match"] ->
  ~ In name (columns m) ->
  exists e, load_data pandas read_csv = ((None, None), Some e).
Proof.
  intros Hm Hd Iname N.
  assert (Has : forall c j, col_index c (columns m) = Some j ->
                            In c (columns m)).
  { intros c j H. apply col_index_nth in H. destruct H as [L <-].
    now apply nth_In. }
  unfold load_data.
  cbv beta iota delta
    [load_body mbind lift alloc deref view mret mraise fillna_inplace].
  rewrite Hm, Hd. run_store.
  destruct (col_index "city" (columns m)) as [ic|] eqn:Hc; [|now eexists].
  destruct pandas.
  - run_store.
    destruct (col_index "winner" (columns m)) as [iw|] eqn:Hw;
      [|now eexists].
    run_store.
    destruct (col_index "player_of_match" (columns m)) as [ip|] eqn:Hp;
      [|now eexists].
    exfalso. apply N. simpl in Iname.
    destruct Iname as [<-|[<-|[<-|[]]]]; eapply Has; eassumption.
  - run_store.
    destruct (existsb isna _ && _); [now eexists|]. run_store.
    destruct (col_index "winner" (columns m)) as [iw|] eqn:Hw;
      [|now eexists].
    run_store.
    destruct (existsb isna _ && _); [now eexists|]. run_store.
    destruct (col_index "player_of_match" (columns m)) as [ip|] eqn:Hp;
      [|now eexists].
    exfalso. apply N. simpl in Iname.
    destruct Iname as [<-|[<-|[<-|[]]]]; eapply Has; eassumption.
Qed.

Lemma after_fillna_columns (pandas : pandas_version) (m m1 : DataFrame)
  (ic iw ip : nat) :
  after_fillna pandas m ic iw ip = Ok m1 -> columns m1 = columns m.
Proof.
  unfold after_fillna. destruct (_ || _); [discriminate|].
  intros [= <-]. now destruct pandas.
Qed.

(** C9.  For every state of the two files and either pandas release,
    [load_data] returns a pair: an exception raised anywhere in its body (a
    failed or unparsable read, a missing column, a failed join) is caught,
    reported, and turned into the pair [(None, None)]; otherwise both
    tables are returned.  No run returns one table without the other. *)
Theorem load_data_all_or_nothing (pandas : pandas_version)
  (read_csv : string -> result DataFrame) :
  (forall e,
      load_body pandas read_csv [] = Raise e ->
      load_data pandas read_csv = ((None, None), Some e)) /\
  ((exists m d, load_data pandas read_csv = ((Some m, Some d), None)) \/
   (exists e, load_data pandas read_csv = ((None, None), Some e))) /\
  (forall e,
      read_csv "matches.csv" = Raise e ->
      load_data pandas read_csv = ((None, None), Some e)) /\
  (forall m e,
      read_csv "matches.csv" = Ok m ->
      read_csv "deliveries.csv" = Raise e ->
      load_data pandas read_csv = ((None, None), Some e)) /\
  (forall m d name,
      read_csv "matches.csv" = Ok m ->
      read_csv "deliveries.csv" = Ok d ->
      (In name ["city"; "winner"; "player_of_match"; "id"; "season"] /\
       ~ In name (columns m) \/
       name = "match_id" /\ ~ In name (columns d)) ->
      exists e, load_data pandas read_csv = ((None, None), Some e)).
Proof.
  split.
  { intros e E. unfold load_data. now rewrite E. }
  split.
  { unfold load_data.
    destruct (load_body pandas read_csv []) as [[[m d] h]|e].
    - left. now exists m, d.
    - right. now exists e. }
  split.
  { intros e E. unfold load_data, load_body, mbind, lift. now rewrite E. }
  split.
  { intros m e Hm Hd. unfold load_data, load_body, mbind, lift, alloc.
    now rewrite Hm, Hd. }
  intros m d name Hm Hd Miss.
  destruct (in_dec string_dec "city" (columns m)) as [Ic|Nc];
    [|apply (load_data_missing_column pandas read_csv Hm Hd
               (name := "city")); simpl; tauto].
  destruct (in_dec string_dec "winner" (columns m)) as [Iw|Nw];
    [|apply (load_data_missing_column pandas read_csv Hm Hd
               (name := "winner")); simpl; tauto].
  destruct (in_dec string_dec "player_of_match" (columns m)) as [Ip|Np];
    [|apply (load_data_missing_column pandas read_csv Hm Hd
               (name := "player_of_match")); simpl; tauto].
  destruct (col_index_In _ _ Ic) as [ic Hc].
  destruct (col_index_In _ _ Iw) as [iw Hw].
  destruct (col_index_In _ _ Ip) as [ip Hp].
  rewrite (load_data_run pandas read_csv Hm Hd Hc Hw Hp).
  destruct (after_fillna pandas m ic iw ip) as [m1|e] eqn:A; [|now eexists].
  apply after_fillna_columns in A.
  unfold getitem_cols. rewrite A. cbn [col_indices].
  destruct (col_index "id" (columns m)) as [ii|] eqn:Hi; [|now eexists].
  destruct (col_index "season" (columns m)) as [js|] eqn:Hs; [|now eexists].
  cbn [rbind]. unfold merge_left. cbn [columns col_index String.eqb].
  simpl (col_index "id" ["id"; "season"]).
  destruct (col_index "match_id" (columns d)) as [ik|] eqn:Hk;
    [|now eexists].
  exfalso.
  destruct Miss as [[I N]|[-> N]].
  - apply N. simpl in I.
    destruct I as [<-|[<-|[<-|[<-|[<-|[]]]]]]; trivial.
    + apply col_index_nth in Hi. destruct Hi as [L <-]. now apply nth_In.
    + apply col_index_nth in Hs. destruct Hs as [L <-]. now apply nth_In.
  - apply N. apply col_index_nth in Hk. destruct Hk as [L <-].
    now apply nth_In.
Qed.

Lemma load_data_all_or_nothing_witness :
  load_data pandas_2 no_files =
  ((None, None), Some (FileNotFoundError "matches.csv")) /\
  load_data pandas_3 no_files =
  ((None, None), Some (FileNotFoundError "matches.csv")).
Proof.
  split.
  - destruct (load_data_all_or_nothing pandas_2 no_files) as [_ [_ [Read _]]].
    apply Read. reflexivity.
  - destruct (load_data_all_or_nothing pandas_3 no_files) as [_ [_ [Read _]]].
    apply Read. reflexivity.
Defined.

(** ** The normalized match table *)

Lemma filled_row (r : list cell) (ic iw ip j : nat) :
  ic < List.length r -> iw < List.length r -> ip < List.length r ->
  ic <> iw -> ic <> ip -> iw <> ip ->
  nth j
    (update_nth ip (fill (Str "Unknown"))
       (update_nth iw (fill (Str "No Result"))
          (update_nth ic (fill (Str "Unknown")) r))) NaN =
  if j =? ip then fill (Str "Unknown") (nth j r NaN)
  else if j =? iw then fill (Str "No Result") (nth j r NaN)
  else if j =? ic then fill (Str "Unknown") (nth j r NaN)
  else nth j r NaN.
Proof.
  intros Lc Lw Lp Ncw Ncp Nwp.
  destruct (Nat.eqb_spec j ip) as [->|Np].
  { rewrite nth_update_nth_same by now rewrite !update_nth_length.
    now rewrite !nth_update_nth_other by congruence. }
  rewrite nth_update_nth_other by assumption.
  destruct (Nat.eqb_spec j iw) as [->|Nw].
  { rewrite nth_update_nth_same by now rewrite !update_nth_length.
    now rewrite !nth_update_nth_other by congruence. }
  rewrite nth_update_nth_other by assumption.
  destruct (Nat.eqb_spec j ic) as [->|Nc].
  { now rewrite nth_update_nth_same. }
  now rewrite nth_update_nth_other.
Qed.

Lemma normalized_by_position (cols : list string) (name : string)
  (ic iw ip j : nat) (c : cell) :
  col_index "city" cols = Some ic ->
  col_index "winner" cols = Some iw ->
  col_index "player_of_match" cols = Some ip ->
  col_index name cols = Some j ->
  normalized name c =
  if j =? ip then fill (Str "Unknown") c
  else if j =? iw then fill (Str "No Result") c
  else if j =? ic then fill (Str "Unknown") c
  else c.
Proof.
  intros Hc Hw Hp Hj. unfold normalized, sentinel.
  destruct (Nat.eqb_spec j ip) as [->|Np].
  { rewrite (col_index_inj _ _ _ Hj Hp). reflexivity. }
  destruct (Nat.eqb_spec j iw) as [->|Nw].
  { rewrite (col_index_inj _ _ _ Hj Hw). reflexivity. }
  destruct (Nat.eqb_spec j ic) as [->|Nc].
  { rewrite (col_index_inj _ _ _ Hj Hc). reflexivity. }
  destruct (String.eqb_spec name "city") as [->|_]; [congruence|].
  destruct (String.eqb_spec name "winner") as [->|_]; [congruence|].
  destruct (String.eqb_spec name "player_of_match") as [->|_];
    [congruence | reflexivity].
Qed.

Lemma filled_getitem (m : DataFrame) (ic iw ip : nat) (name : string)
  (s : Series) :
  wf_frame m ->
  col_index "city" (columns m) = Some ic ->
  col_index "winner" (columns m) = Some iw ->
  col_index "player_of_match" (columns m) = Some ip ->
  getitem m name = Ok s ->
  getitem (filled m ic iw ip) name = Ok (map (normalized name) s).
Proof.
  intros [_ WF] Hc Hw Hp. unfold getitem, filled. cbn [columns fill_column].
  destruct (col_index name (columns m)) as [j|] eqn:Hj; [|discriminate].
  intros [= <-]. f_equal. unfold column. cbn [rows fill_column].
  rewrite !map_map. apply map_ext_in. intros r Ir.
  rewrite Forall_forall in WF. specialize (WF r Ir).
  destruct (col_index_nth _ _ Hc) as [Lc _].
  destruct (col_index_nth _ _ Hw) as [Lw _].
  destruct (col_index_nth _ _ Hp) as [Lp _].
  rewrite filled_row; try lia.
  - symmetry. now apply normalized_by_position with (cols := columns m).
  - intros ->. discriminate (col_index_inj _ _ _ Hc Hw).
  - intros ->. discriminate (col_index_inj _ _ _ Hc Hp).
  - intros ->. discriminate (col_index_inj _ _ _ Hw Hp).
Qed.

(** ** The joined delivery table *)

Lemma field_nth (df : DataFrame) (name : string) (j : nat) (r : list cell) :
  col_index name (columns df) = Some j -> field df name r = nth j r NaN.
Proof. intros H. unfold field. now rewrite H. Qed.

Lemma column_field (df : DataFrame) (name : string) (j : nat) :
  col_index name (columns df) = Some j ->
  column j df = map (field df name) (rows df).
Proof.
  intros H. unfold column. apply map_ext. intros r.
  now rewrite (@field_nth _ _ _ _ H).
Qed.


Lemma getitem_cols_id_season (m : DataFrame) (ii js : nat) :
  col_index "id" (columns m) = Some ii ->
  col_index "season" (columns m) = Some js ->
  getitem_cols m ["id"; "season"] = Ok (id_season m ii js).
Proof.
  intros Hi Hs. unfold getitem_cols. cbn [col_indices].
  now rewrite Hi, Hs.
Qed.

(** The [fillna] calls leave the columns [id] and [season] as they are. *)
Lemma after_fillna_id_season (pandas : pandas_version) (m m1 : DataFrame)
  (ic iw ip ii js : nat) :
  after_fillna pandas m ic iw ip = Ok m1 ->
  col_index "city" (columns m) = Some ic ->
  col_index "winner" (columns m) = Some iw ->
  col_index "player_of_match" (columns m) = Some ip ->
  col_index "id" (columns m) = Some ii ->
  col_index "season" (columns m) = Some js ->
  getitem_cols m1 ["id"; "season"] = Ok (id_season m ii js).
Proof.
  intros A Hc Hw Hp Hi Hs. unfold after_fillna in A.
  destruct (_ || _); [discriminate|]. injection A as <-.
  destruct pandas; [|now apply getitem_cols_id_season].
  unfold getitem_cols, filled. cbn [columns fill_column col_indices].
  rewrite Hi, Hs. cbn [rbind]. unfold id_season. do 2 f_equal.
  cbn [rows fill_column]. rewrite !map_map. apply map_ext. intros r.
  cbn [map]. rewrite !nth_update_nth_other; trivial.
  - intros ->. discriminate (col_index_inj _ _ _ Hs Hc).
  - intros ->. discriminate (col_index_inj _ _ _ Hs Hw).
  - intros ->. discriminate (col_index_inj _ _ _ Hs Hp).
  - intros ->. discriminate (col_index_inj _ _ _ Hi Hc).
  - intros ->. discriminate (col_index_inj _ _ _ Hi Hw).
  - intros ->. discriminate (col_index_inj _ _ _ Hi Hp).
Qed.

Lemma existsb_ext {A} (f g : A -> bool) (l : list A) :
  (forall a, f a = g a) -> existsb f l = existsb g l.
Proof.
  intros E. induction l as [|a l IH]; simpl; [reflexivity|].
  now rewrite E, IH.
Qed.

Lemma is_nil_map {A B} (f : A -> B) (l : list A) :
  is_nil (map f l) = is_nil l.
Proof. now destruct l. Qed.

Lemma is_nil_length {A} (l : list A) : is_nil l = (List.length l =? 0).
Proof. now destruct l. Qed.

(** The merge of the loader, in terms of the two tables read. *)
Lemma merge_id_season (m d : DataFrame) (ii js ik : nat) :
  col_index "id" (columns m) = Some ii ->
  col_index "season" (columns m) = Some js ->
  col_index "match_id" (columns d) = Some ik ->
  merge_left d (id_season m ii js) "match_id" "id" =
  if negb (merge_keys_ok (map (field d "match_id") (rows d))
             (map (field m "id") (rows m)))
  then Raise ValueError
  else if suffix_clash (columns d) ["id"; "season"] then Raise MergeError
  else
    Ok (mkDF
          (map (with_suffix "_x" ["id"; "season"]) (columns d) ++
           map (with_suffix "_y" (columns d)) ["id"; "season"])
          (flat_map
             (fun l =>
                map (fun x => l ++ x) (join_with m d (field d "match_id" l)))
             (rows d))).
Proof.
  intros Hi Hs Hk. unfold merge_left. cbn [columns id_season].
  simpl (col_index "id" ["id"; "season"]). rewrite Hk.
  assert (C0 : column 0 (id_season m ii js) = map (field m "id") (rows m)).
  { unfold column, id_season. cbn [rows]. rewrite map_map.
    apply map_ext. intros r. now rewrite (@field_nth _ _ _ _ Hi). }
  assert (C1 : column 1 (id_season m ii js) =
               map (field m "season") (rows m)).
  { unfold column, id_season. cbn [rows]. rewrite map_map.
    apply map_ext. intros r. now rewrite (@field_nth _ _ _ _ Hs). }
  fold (id_season m ii js). rewrite C0, (@column_field _ _ _ Hk).
  destruct (negb (merge_keys_ok _ _)); [reflexivity|].
  destruct (suffix_clash _ _); [reflexivity|].
  change (merge_cast (dtype_of (map (field d "match_id") (rows d)))
            (dtype_of (map (field m "id") (rows m))))
    with (key_cast m d).
  assert (Mt : forall l,
             matching (key_cast m d) ik 0 (id_season m ii js) l =
             map (fun r => [nth ii r NaN; nth js r NaN])
               (filter
                  (fun r =>
                     same_key m d (field d "match_id" l) (field m "id" r))
                  (rows m))).
  { intros l. unfold matching, id_season. cbn [rows].
    rewrite filter_map_comm. f_equal. apply filter_ext. intros r.
    cbn [nth]. unfold same_key.
    now rewrite (@field_nth _ _ _ _ Hk), (@field_nth _ _ _ _ Hi). }
  assert (Un : existsb
                 (fun l =>
                    is_nil (matching (key_cast m d) ik 0
                              (id_season m ii js) l))
                 (rows d) = unmatched m d).
  { unfold unmatched. apply existsb_ext. intros l.
    now rewrite Mt, is_nil_map, is_nil_length. }
  rewrite Un. do 2 f_equal. apply flat_map_ext. intros l.
  rewrite Mt. unfold join_with.
  destruct (filter _ (rows m)) as [|r0 rs]; [reflexivity|].
  cbn [map]. rewrite !map_map.
  f_equal; [|apply map_ext; intros r]; f_equal;
    unfold joined_pair, joined_cell, promote;
    cbn [columns id_season List.length seq map]; fold (id_season m ii js);
    rewrite C0, C1; cbn [zip_with];
    rewrite !(@field_nth _ _ _ _ Hi), !(@field_nth _ _ _ _ Hs);
    destruct (unmatched m d); reflexivity.
Qed.

Lemma col_index_notin (name : string) (cols : list string) :
  ~ In name cols -> col_index name cols = None.
Proof.
  intros N. destruct (col_index name cols) as [j|] eqn:E; [|reflexivity].
  apply col_index_nth in E. destruct E as [L <-].
  exfalso. apply N. now apply nth_In.
Qed.







Lemma filter_none {A} (p : A -> bool) (l : list A) :
  (forall a, In a l -> p a = false) -> filter p l = [].
Proof.
  induction l as [|a l IH]; simpl; intros N; [reflexivity|].
  rewrite (N a (or_introl eq_refl)). apply IH. intros b Ib. apply N.
  now right.
Qed.









Lemma after_fillna_inv (pandas : pandas_version) (m m1 : DataFrame)
  (ic iw ip : nat) :
  after_fillna pandas m ic iw ip = Ok m1 ->
  m1 = match pandas with
       | pandas_2 => filled m ic iw ip
       | pandas_3 => m
       end.
Proof.
  unfold after_fillna. destruct (_ || _); [discriminate|]. now intros [= <-].
Qed.

(** What a successful load tells about the files: both were read, the
    match table has the five columns and the delivery table the key the
    loader uses, the [fillna] calls and the merge raised nothing, and the
    tables returned are the match table after the [fillna] calls and the
    joined delivery table. *)
Lemma load_data_success_inv (pandas : pandas_version)
  (read_csv : string -> result DataFrame) (m' d' : DataFrame) :
  load_data pandas read_csv = ((Some m', Some d'), None) ->
  exists m d ic iw ip ii js ik,
    read_csv "matches.csv" = Ok m /\
    read_csv "deliveries.csv" = Ok d /\
    col_index "city" (columns m) = Some ic /\
    col_index "winner" (columns m) = Some iw /\
    col_index "player_of_match" (columns m) = Some ip /\
    col_index "id" (columns m) = Some ii /\
    col_index "season" (columns m) = Some js /\
    col_index "match_id" (columns d) = Some ik /\
    after_fillna pandas m ic iw ip = Ok m' /\
    merge_keys_ok (map (field d "match_id") (rows d))
      (map (field m "id") (rows m)) = true /\
    suffix_clash (columns d) ["id"; "season"] = false /\
    d' = joined_frame m d.
Proof.
  intros E.
  destruct (read_csv "matches.csv") as [m|e] eqn:Hm.
  2:{ unfold load_data, load_body, mbind, lift in E. rewrite Hm in E.
      discriminate. }
  destruct (read_csv "deliveries.csv") as [d|e] eqn:Hd.
  2:{ unfold load_data, load_body, mbind, lift, alloc in E.
      rewrite Hm, Hd in E. discriminate. }
  assert (Miss : forall name,
             In name ["city"; "winner"; "player_of_match"] ->
             In name (columns m)).
  { intros name I.
    destruct (in_dec string_dec name (columns m)) as [Y|N]; trivial.
    destruct (load_data_missing_column pandas read_csv Hm Hd I N) as [e E'].
    rewrite E in E'. discriminate. }
  destruct (col_index_In "city" (columns m)) as [ic Hc];
    [apply Miss; simpl; tauto|].
  destruct (col_index_In "winner" (columns m)) as [iw Hw];
    [apply Miss; simpl; tauto|].
  destruct (col_index_In "player_of_match" (columns m)) as [ip Hp];
    [apply Miss; simpl; tauto|].
  pose proof (load_data_run pandas read_csv Hm Hd Hc Hw Hp) as R.
  rewrite E in R.
  destruct (after_fillna pandas m ic iw ip) as [m1|e] eqn:A; [|discriminate].
  destruct (col_index "id" (columns m)) as [ii|] eqn:Hi.
  2:{ unfold getitem_cols in R.
      rewrite (@after_fillna_columns _ _ _ _ _ _ A) in R.
      cbn [col_indices] in R. rewrite Hi in R. discriminate. }
  destruct (col_index "season" (columns m)) as [js|] eqn:Hs.
  2:{ unfold getitem_cols in R.
      rewrite (@after_fillna_columns _ _ _ _ _ _ A) in R.
      cbn [col_indices] in R. rewrite Hi, Hs in R. discriminate. }
  rewrite (@after_fillna_id_season _ _ _ _ _ _ _ _ A Hc Hw Hp Hi Hs) in R.
  destruct (col_index "match_id" (columns d)) as [ik|] eqn:Hk.
  2:{ unfold merge_left in R. cbn [columns id_season] in R.
      simpl (col_index "id" ["id"; "season"]) in R. rewrite Hk in R.
      discriminate. }
  rewrite (@merge_id_season _ _ _ _ _ Hi Hs Hk) in R.
  destruct (merge_keys_ok _ _) eqn:K; [|discriminate]. cbn [negb] in R.
  destruct (suffix_clash _ _) eqn:C; [discriminate|].
  injection R as -> ->.
  exists m, d, ic, iw, ip, ii, js, ik. repeat split; trivial.
Qed.




(** ** The sample files *)

Ltac not_among :=
  let H := fresh in
  simpl; intros H;
  repeat (destruct H as [H|H]; [discriminate H|]); exact H.

Ltac distinct_labels :=
  repeat (constructor; [not_among|]); constructor.

Lemma sample_matches_wf : wf_frame sample_matches.
Proof.
  split; [distinct_labels | repeat constructor].
Qed.


Lemma sample_matches_columns :
  incl ["city"; "winner"; "player_of_match"; "id"; "season"]
    (columns sample_matches).
Proof.
  intros c Ic. simpl in *. tauto.
Qed.




Lemma load_data_sample :
  load_data pandas_2 sample_files =
  ((Some sample_loaded_matches, Some sample_loaded_deliveries), None).
Proof. reflexivity. Qed.

(** From pandas 3 on the three [fillna] calls leave the match table of the
    sample as it was read. *)
Lemma load_data_sample_unfilled :
  load_data pandas_3 sample_files =
  ((Some sample_matches, Some sample_loaded_deliveries), None).
Proof. reflexivity. Qed.






(* ================================================================== *)
(** * Further properties of the loader *)








Lemma normalized_present (name : string) (c : cell) :
  In name ["city"; "winner"; "player_of_match"] ->
  normalized name c <> NaN.
Proof.
  simpl. intros [<-|[<-|[<-|[]]]]; destruct c; discriminate.
Qed.

Lemma getitem_same_columns (df df' : DataFrame) (name : string) (s : Series) :
  columns df' = columns df ->
  getitem df' name = Ok s -> exists s0, getitem df name = Ok s0.
Proof.
  unfold getitem. intros ->.
  destruct (col_index name (columns df)); [now eexists | discriminate].
Qed.

(** For every run of the loader that returns the tables (the match table
    read having one cell per column in every row): on pandas 2 the columns
    [city], [winner] and [player_of_match] of the returned match table hold
    no missing value; on pandas 3 they are the columns that were read, with
    their missing values. *)
Theorem load_data_leaves_no_gap (pandas : pandas_version)
  (read_csv : string -> result DataFrame)
  (m m' d' : DataFrame) (name : string) (s : Series) :
  read_csv "matches.csv" = Ok m ->
  wf_frame m ->
  load_data pandas read_csv = ((Some m', Some d'), None) ->
  In name ["city"; "winner"; "player_of_match"] ->
  getitem m' name = Ok s ->
  (pandas = pandas_2 -> ~ In NaN s) /\
  (pandas = pandas_3 -> getitem m name = Ok s).
Proof.
  intros Hm WF E Iname G.
  destruct (load_data_success_inv pandas read_csv E)
    as (m0 & d0 & ic & iw & ip & ii & js & ik &
        Hm0 & Hd0 & Hc & Hw & Hp & Hi & Hs & Hk & A & _ & _ & ->).
  rewrite Hm in Hm0. injection Hm0 as <-.
  destruct (@getitem_same_columns m m' name s
              (@after_fillna_columns _ _ _ _ _ _ A) G)
    as [s0 Gm].
  apply after_fillna_inv in A. split; intros ->; subst m'.
  - rewrite (@filled_getitem m ic iw ip name s0 WF Hc Hw Hp Gm) in G.
    injection G as <-.
    intros I. apply in_map_iff in I. destruct I as [c [N _]].
    exact (@normalized_present name c Iname N).
  - exact G.
Qed.

Lemma load_data_leaves_no_gap_witness :
  (exists m' d' s,
      load_data pandas_2 sample_files = ((Some m', Some d'), None) /\
      getitem m' "winner" = Ok s /\ ~ In NaN s) /\
  (exists m' d',
      load_data pandas_3 sample_files = ((Some m', Some d'), None) /\
      getitem m' "winner" = Ok [Str "A"; NaN; Str "C"] /\
      getitem sample_matches "winner" = Ok [Str "A"; NaN; Str "C"]).
Proof.
  assert (I : In "winner" ["city"; "winner"; "player_of_match"])
    by (simpl; tauto).
  split.
  - exists sample_loaded_matches. do 2 eexists.
    split; [exact load_data_sample|]. split; [reflexivity|].
    exact (proj1 (load_data_leaves_no_gap pandas_2 sample_files
                    (name := "winner") eq_refl sample_matches_wf
                    load_data_sample I eq_refl) eq_refl).
  - exists sample_matches. eexists.
    split; [exact load_data_sample_unfilled|]. split; [reflexivity|].
    exact (proj2 (load_data_leaves_no_gap pandas_3 sample_files
                    (name := "winner") eq_refl sample_matches_wf
                    load_data_sample_unfilled I eq_refl) eq_refl).
Defined.

Lemma existsb_eqb_in (name : string) (cols : list string) :
  In name cols -> existsb (String.eqb name) cols = true.
Proof.
  intros I. apply existsb_exists. exists name. split; [exact I|].
  apply String.eqb_refl.
Qed.

(** For every run of the loader that returns the tables on a delivery file
    that has a column [season] of its own, the joined table has the columns
    [season_x] and [season_y] and no column [season], so the seasonal run
    totals of the trends page raise [KeyError]. *)
Theorem load_data_season_clash (pandas : pandas_version)
  (read_csv : string -> result DataFrame) (d m' d' : DataFrame) :
  read_csv "deliveries.csv" = Ok d ->
  In "season" (columns d) ->
  load_data pandas read_csv = ((Some m', Some d'), None) ->
  ~ In "season" (columns d') /\
  In "season_x" (columns d') /\
  In "season_y" (columns d') /\
  Trends.runs_per_season d' = Raise (KeyError "season").
Proof.
  intros Hd Is E.
  destruct (load_data_success_inv pandas read_csv E)
    as (m0 & d0 & ic & iw & ip & ii & js & ik &
        Hm0 & Hd0 & Hc & Hw & Hp & Hi & Hs & Hk & A & _ & _ & ->).
  rewrite Hd in Hd0. injection Hd0 as <-.
  unfold joined_frame. cbn [columns].
  assert (Y : map (with_suffix "_y" (columns d)) ["id"; "season"] =
              [with_suffix "_y" (columns d) "id"; "season_y"]).
  { cbn [map]. unfold with_suffix at 2.
    now rewrite (existsb_eqb_in _ _ Is). }
  assert (N : ~ In "season"
                (map (with_suffix "_x" ["id"; "season"]) (columns d) ++
                 map (with_suffix "_y" (columns d)) ["id"; "season"])).
  { rewrite Y. intros I. apply in_app_or in I. destruct I as [I|I].
    - apply in_map_iff in I. destruct I as [c [Ec _]].
      unfold with_suffix in Ec. simpl in Ec.
      destruct (String.eqb_spec c "id") as [Ei|_];
        [rewrite Ei in Ec; discriminate|].
      destruct (String.eqb_spec c "season") as [Es|Nc]; simpl in Ec;
        [rewrite Es in Ec; discriminate | congruence].
    - unfold with_suffix in I.
      destruct (existsb (String.eqb "id") (columns d)); simpl in I;
        destruct I as [I|[I|[]]]; discriminate. }
  split; [exact N|]. split.
  { apply in_or_app. left. apply in_map_iff. exists "season".
    split; [reflexivity | exact Is]. }
  split.
  { apply in_or_app. right. rewrite Y. simpl. tauto. }
  unfold Trends.runs_per_season, getitem. cbn [columns].
  now rewrite (col_index_notin _ _ N).
Qed.

Lemma load_data_season_clash_witness :
  exists m' d',
    load_data pandas_2 clash_files = ((Some m', Some d'), None) /\
    columns d' = ["match_id"; "season_x"; "id"; "season_y"] /\
    Trends.runs_per_season d' = Raise (KeyError "season").
Proof.
  assert (E : load_data pandas_2 clash_files =
              ((Some sample_loaded_matches,
                Some (mkDF ["match_id"; "season_x"; "id"; "season_y"]
                        [[Num 1; Str "x"; Num 1; Str "2020"]])), None))
    by reflexivity.
  assert (Is : In "season" (columns clash_deliveries)) by (simpl; tauto).
  do 2 eexists. split; [exact E|]. split; [reflexivity|].
  exact (proj2 (proj2 (proj2
           (load_data_season_clash pandas_2 clash_files
              eq_refl Is E)))).
Defined.

Lemma getitem_present (df : DataFrame) (name : string) :
  In name (columns df) -> exists s, getitem df name = Ok s.
Proof.
  intros I. unfold getitem.
  destruct (col_index_In name (columns df) I) as [j ->]. now eexists.
Qed.

Lemma getitem_absent (df : DataFrame) (name : string) :
  ~ In name (columns df) -> getitem df name = Raise (KeyError name).
Proof.
  intros N. unfold getitem. now rewrite (col_index_notin _ _ N).
Qed.

(** For every run of the loader that returns the tables, the home page and
    the venue page run on the match table returned as the script has them,
    from top to bottom.  The match table has the columns [season],
    [winner] and [city]; the home page shows its metrics and charts when
    the file also has the columns [team1], [venue] and [toss_winner], and
    otherwise stops with [KeyError] at the first of the three that is
    missing, in this order: without [team1] or [venue] it stops at the
    metrics, before any chart.  The venue page shows its two charts when
    the file has the column [venue] and stops with [KeyError] before both
    otherwise. *)
Theorem pages_after_load (pandas : pandas_version)
  (read_csv : string -> result DataFrame) (m m' d' : DataFrame) :
  read_csv "matches.csv" = Ok m ->
  load_data pandas read_csv = ((Some m', Some d'), None) ->
  (In "team1" (columns m) -> In "venue" (columns m) ->
   In "toss_winner" (columns m) ->
   exists seasons teams venues per_season wins pie,
     Home.total_seasons m' = Ok seasons /\
     Home.total_teams m' = Ok teams /\
     Home.total_venues m' = Ok venues /\
     Home.matches_per_season m' = Ok per_season /\
     Home.team_wins m' = Ok wins /\
     Home.toss_pie m' = Ok pie /\
     Home.page m' =
     Ok (Home.mkHome (len m, seasons, teams, venues) per_season wins pie)) /\
  (~ In "team1" (columns m) ->
   Home.page m' = Raise (KeyError "team1")) /\
  (In "team1" (columns m) -> ~ In "venue" (columns m) ->
   Home.page m' = Raise (KeyError "venue")) /\
  (In "team1" (columns m) -> In "venue" (columns m) ->
   ~ In "toss_winner" (columns m) ->
   Home.page m' = Raise (KeyError "toss_winner")) /\
  (In "venue" (columns m) ->
   exists venues cities,
     Venue.top_venues m' = Ok venues /\
     Venue.city_matches m' = Ok cities /\
     Venue.page m' = Ok (venues, cities)) /\
  (~ In "venue" (columns m) ->
   Venue.page m' = Raise (KeyError "venue")).
Proof.
  intros Hm E.
  destruct (load_data_success_inv pandas read_csv E)
    as (m0 & d0 & ic & iw & ip & ii & js & ik &
        Hm0 & Hd0 & Hc & Hw & Hp & Hi & Hs & Hk & A & _ & _ & ->).
  rewrite Hm in Hm0. injection Hm0 as <-.
  pose proof (@after_fillna_columns _ _ _ _ _ _ A) as C.
  assert (L : len m' = len m).
  { apply after_fillna_inv in A. rewrite A. destruct pandas; [|reflexivity].
    unfold len, filled; simpl. now rewrite !length_map. }
  assert (P : forall name, In name (columns m) ->
                           exists s, getitem m' name = Ok s).
  { intros name I. apply getitem_present. now rewrite C. }
  assert (Q : forall name, ~ In name (columns m) ->
                           getitem m' name = Raise (KeyError name)).
  { intros name N. apply getitem_absent. now rewrite C. }
  assert (Has : forall c j, col_index c (columns m) = Some j ->
                            In c (columns m)).
  { intros c j H. apply col_index_nth in H. destruct H as [Lj <-].
    now apply nth_In. }
  destruct (P "season" (Has _ _ Hs)) as [season Gs].
  destruct (P "winner" (Has _ _ Hw)) as [winner Gw].
  destruct (P "city" (Has _ _ Hc)) as [city Gc].
  unfold Home.page, Home.total_seasons, Home.total_teams, Home.total_venues,
    Home.matches_per_season, Home.team_wins, Home.top_winners, Home.toss_pie,
    Home.toss_impact, Home.matches_with_result,
    Home.toss_winner_is_match_winner, Home.total_matches,
    Venue.page, Venue.top_venues, Venue.city_matches.
  rewrite Gs, Gw, Gc, L. cbn [rbind].
  split.
  { intros I1 I2 I3.
    destruct (P "team1" I1) as [team1 G1]. destruct (P "venue" I2) as [venue G2].
    rewrite G1, G2. cbn [rbind].
    assert (T : exists s, getitem
                            (loc_mask m' (series_ne_scalar winner
                                            (Str "No Result")))
                            "toss_winner" = Ok s).
    { apply getitem_present. cbn [loc_mask columns]. now rewrite C. }
    assert (W : exists s, getitem
                            (loc_mask m' (series_ne_scalar winner
                                            (Str "No Result")))
                            "winner" = Ok s).
    { apply getitem_present. cbn [loc_mask columns]. rewrite C.
      exact (Has _ _ Hw). }
    destruct T as [tw T]. destruct W as [w W]. rewrite T, W. cbn [rbind].
    do 6 eexists. repeat (split; [reflexivity|]). reflexivity. }
  split.
  { intros N. now rewrite (Q _ N). }
  split.
  { intros I1 N. destruct (P "team1" I1) as [team1 G1].
    rewrite G1. cbn [rbind]. now rewrite (Q _ N). }
  split.
  { intros I1 I2 N.
    destruct (P "team1" I1) as [team1 G1]. destruct (P "venue" I2) as [venue G2].
    rewrite G1, G2. cbn [rbind].
    assert (T : getitem
                  (loc_mask m' (series_ne_scalar winner (Str "No Result")))
                  "toss_winner" = Raise (KeyError "toss_winner")).
    { apply getitem_absent. cbn [loc_mask columns]. now rewrite C. }
    now rewrite T. }
  split.
  { intros I2. destruct (P "venue" I2) as [venue G2]. rewrite G2.
    cbn [rbind]. do 2 eexists. repeat split; reflexivity. }
  intros N. now rewrite (Q _ N).
Qed.

Lemma pages_after_load_witness :
  (exists v,
      Home.page sample_loaded_matches = Ok v /\
      Home.metrics v = (3, 2, 3, 2) /\
      List.length (Home.winners_chart v) = 3 /\
      Home.toss_chart v = (["Won Match"; "Lost Match"], [1; 1])) /\
  (exists m' d',
      load_data pandas_2 bare_files = ((Some m', Some d'), None) /\
      Home.page m' = Raise (KeyError "team1") /\
      Venue.page m' = Raise (KeyError "venue")).
Proof.
  split.
  - assert (I1 : In "team1" (columns sample_matches)) by (simpl; tauto).
    assert (I2 : In "venue" (columns sample_matches)) by (simpl; tauto).
    assert (I3 : In "toss_winner" (columns sample_matches))
      by (simpl; tauto).
    destruct (pages_after_load pandas_2 sample_files eq_refl
                load_data_sample)
      as [R _].
    destruct (R I1 I2 I3) as (s & t & v & ps & w & p & _ & _ & _ & _ & _ & _ & Pg).
    eexists. split; [exact Pg|].
    vm_compute in Pg. injection Pg as <- <- <- <- <- <-.
    repeat split; reflexivity.
  - assert (E : load_data pandas_2 bare_files =
                ((Some bare_matches,
                  Some (mkDF (columns sample_deliveries ++ ["id"; "season"])
                          [ [Num 1; Str "X"; Str "Y"; Num 4; Num 4; NaN; NaN;
                             Num 1; Num 2024];
                            [Num 1; Str "X"; Str "Y"; Num 0; Num 0; Str "X";
                             Str "run out"; Num 1; Num 2024];
                            [Num 9; Str "Z"; Str "W"; Num 1; Num 1; Str "Z";
                             Str "bowled"; NaN; NaN] ])), None))
      by (vm_compute; reflexivity).
    assert (N1 : ~ In "team1" (columns bare_matches)) by not_among.
    assert (N2 : ~ In "venue" (columns bare_matches)) by not_among.
    destruct (pages_after_load pandas_2 bare_files eq_refl E)
      as [_ [H1 [_ [_ [_ V]]]]].
    do 2 eexists. split; [exact E|].
    split; [exact (H1 N1) | exact (V N2)].
Defined.

(* ================================================================== *)
(** * Orders *)

Lemma ascii_compare_N (a b : ascii) :
  Ascii.compare a b = N.compare (N_of_ascii a) (N_of_ascii b).
Proof. reflexivity. Qed.

Lemma string_compare_refl (s : string) : String.compare s s = Eq.
Proof.
  induction s as [|a s IH]; simpl; [reflexivity|].
  rewrite ascii_compare_N, N.compare_refl. exact IH.
Qed.

Lemma string_leb_trans (a b c : string) :
  String.leb a b = true -> String.leb b c = true -> String.leb a c = true.
Proof.
  unfold String.leb. revert b c.
  induction a as [|x a IH]; intros [|y b] [|z c]; simpl; trivial;
    try discriminate.
  rewrite !ascii_compare_N.
  destruct (N.compare_spec (N_of_ascii x) (N_of_ascii y)) as [Exy|Lxy|Gxy];
    destruct (N.compare_spec (N_of_ascii y) (N_of_ascii z)) as [Eyz|Lyz|Gyz];
    destruct (N.compare_spec (N_of_ascii x) (N_of_ascii z)) as [Exz|Lxz|Gxz];
    trivial; try discriminate; try lia.
  apply IH.
Qed.

Lemma string_not_ltb_leb (a b : string) :
  String.ltb a b = false -> String.leb b a = true.
Proof.
  unfold String.ltb, String.leb. rewrite (String.compare_antisym b a).
  destruct (String.compare a b); simpl; congruence.
Qed.

Lemma string_ltb_leb (a b : string) :
  String.ltb a b = true -> String.leb a b = true.
Proof.
  unfold String.ltb, String.leb. destruct (String.compare a b); congruence.
Qed.

Lemma cell_leb_total (a b : cell) : cell_leb a b = true \/ cell_leb b a = true.
Proof.
  destruct a as [|s|x], b as [|t|y]; simpl; auto.
  - apply String.leb_total.
  - destruct (Z.leb_spec x y); [now left|right]. apply Z.leb_le. lia.
Qed.

Lemma cell_leb_trans (a b c : cell) :
  cell_leb a b = true -> cell_leb b c = true -> cell_leb a c = true.
Proof.
  destruct a as [|s|x], b as [|t|y], c as [|u|z]; simpl; trivial;
    try discriminate.
  - apply string_leb_trans.
  - rewrite !Z.leb_le. lia.
Qed.

Section SortedInsertion.
Variable A : Type.
Variable leb : A -> A -> bool.
Hypothesis leb_total : forall a b, leb a b = true \/ leb b a = true.
Hypothesis leb_trans :
  forall a b c, leb a b = true -> leb b c = true -> leb a c = true.

Lemma insert_sorted (x : A) (l : list A) :
  StronglySorted (fun a b => leb a b = true) l ->
  StronglySorted (fun a b => leb a b = true) (insert leb x l).
Proof.
  induction 1 as [|y l HS IH Hall]; simpl; [repeat constructor|].
  destruct (leb x y) eqn:E.
  - constructor; [now constructor|]. constructor; [exact E|].
    rewrite Forall_forall in *. intros z Hz. apply (leb_trans E).
    now apply Hall.
  - constructor; [exact IH|].
    rewrite Forall_forall in *. intros z Hz.
    apply (Permutation_in _ (insert_perm leb x l)) in Hz.
    destruct Hz as [<-|Hz]; [|now apply Hall].
    destruct (leb_total x y) as [T|T]; congruence.
Qed.

Lemma isort_sorted (l : list A) :
  StronglySorted (fun a b => leb a b = true) (isort leb l).
Proof.
  induction l as [|x l IH]; simpl; [constructor | now apply insert_sorted].
Qed.
End SortedInsertion.

Lemma groupby_size_keys (keys : Series) :
  map fst (groupby_size keys) = isort cell_leb (unique (dropna keys)).
Proof.
  unfold groupby_size. rewrite map_map. simpl. apply map_id.
Qed.

Lemma groupby_size_sorted (keys : Series) :
  StronglySorted (fun a b => cell_leb a b = true) (map fst (groupby_size keys)).
Proof.
  rewrite groupby_size_keys.
  apply isort_sorted; [exact cell_leb_total | exact cell_leb_trans].
Qed.

Lemma groupby_size_NoDup (keys : Series) :
  NoDup (map fst (groupby_size keys)).
Proof.
  rewrite groupby_size_keys.
  apply (Permutation_NoDup (Permutation_sym (isort_perm cell_leb _))).
  apply unique_NoDup.
Qed.

Lemma groupby_size_length (keys : Series) :
  List.length (groupby_size keys) = nunique keys.
Proof.
  unfold groupby_size, nunique. rewrite length_map.
  apply Permutation_length, isort_perm.
Qed.

(* ================================================================== *)
(** * Further properties of the home page *)

Lemma count_map_filter {A} (f : A -> cell) (k : cell) (l : list A) :
  count k (map f l) = List.length (filter (fun a => cell_eqb k (f a)) l).
Proof.
  rewrite count_length, filter_map_comm. apply length_map.
Qed.

(** The season chart has one bar per distinct present season, as many as
    the metric "Total Seasons" says, in ascending order of season; a bar
    counts the matches of its season. *)
Theorem matches_per_season_groups (matches : DataFrame) :
  In "season" (columns matches) ->
  exists groups,
    Home.matches_per_season matches = Ok groups /\
    Home.total_seasons matches = Ok (List.length groups) /\
    NoDup (map fst groups) /\
    StronglySorted (fun a b => cell_leb a b = true) (map fst groups) /\
    (forall k c,
        In (k, c) groups <->
        k <> NaN /\ 0 < c /\ c = in_season matches k).
Proof.
  intros I. rewrite (matches_per_season_rows _ I).
  eexists. split; [reflexivity|].
  split.
  { unfold Home.total_seasons. rewrite (getitem_field _ _ I). simpl.
    now rewrite groupby_size_length. }
  split; [apply groupby_size_NoDup|].
  split; [apply groupby_size_sorted|].
  intros k c. rewrite groupby_size_In, count_map_filter.
  fold (in_season matches k). split.
  - intros [Ik [N ->]]. repeat split; trivial.
    unfold in_season. rewrite <- count_map_filter. now apply count_in.
  - intros [N [P ->]]. repeat split; trivial.
    destruct (in_dec key_eq_dec k (map (field matches "season")
                                     (rows matches))) as [Y|No]; trivial.
    unfold in_season in P. rewrite <- count_map_filter in P.
    rewrite (count_notin _ _ No) in P. lia.
Qed.

Lemma matches_per_season_groups_witness :
  exists groups,
    Home.matches_per_season sample_loaded_matches = Ok groups /\
    Home.total_seasons sample_loaded_matches = Ok (List.length groups).
Proof.
  assert (I : In "season" (columns sample_loaded_matches)) by (simpl; tauto).
  destruct (matches_per_season_groups sample_loaded_matches I)
    as [groups [E [T _]]].
  now exists groups.
Defined.

Lemma all_equal_NoDup {A} (v : A) (l : list A) :
  NoDup l -> (forall x, In x l -> x = v) -> l = [] \/ l = [v].
Proof.
  intros ND All. destruct l as [|a [|b l]]; [now left | right | exfalso].
  - now rewrite (All a (or_introl eq_refl)).
  - inversion ND as [|? ? Na _]; subst. apply Na.
    rewrite (All a), (All b); simpl; tauto.
Qed.

(** The counts of a frequency table of booleans, in the order of the
    table: the larger count first, and no entry for a value that does not
    occur. *)
Lemma value_counts_bool (flags : list bool) :
  map snd (value_counts flags) =
  filter (Nat.ltb 0)
    [Nat.max (count true flags) (count false flags);
     Nat.min (count true flags) (count false flags)].
Proof.
  destruct flags as [|b l]; [reflexivity|].
  set (flags := b :: l).
  assert (D : dropna flags = flags).
  { unfold dropna. apply forallb_filter_id. now apply forallb_forall. }
  unfold value_counts, tally. rewrite D. unfold flags at 2. cbn [unique].
  set (others := filter (fun x => negb (key_eqb b x)) (unique l)).
  assert (Cb : 0 < count b flags) by (apply count_in; now left).
  assert (O : others = [] \/ others = [negb b]).
  { apply all_equal_NoDup.
    - apply NoDup_filter, unique_NoDup.
    - intros x Ix. apply filter_In in Ix. destruct Ix as [_ Ix].
      simpl in Ix. destruct b, x; simpl in *; congruence. }
  destruct O as [O|O]; rewrite O.
  - assert (Cn : count (negb b) flags = 0).
    { apply count_notin. intros [Eb|Il]; [now destruct b|].
      assert (Io : In (negb b) others).
      { apply filter_In. split; [now apply unique_In|]. now destruct b. }
      rewrite O in Io. exact Io. }
    cbn [map sort_values_desc isort insert snd].
    destruct b; simpl negb in Cn; rewrite Cn.
    + rewrite Nat.max_0_r, Nat.min_0_r. cbn [filter].
      now rewrite (proj2 (Nat.ltb_lt _ _) Cb).
    + rewrite Nat.max_0_l, Nat.min_0_l. cbn [filter].
      now rewrite (proj2 (Nat.ltb_lt _ _) Cb).
  - assert (Cn : 0 < count (negb b) flags).
    { apply count_in. right. apply unique_In.
      assert (Io : In (negb b) others) by (rewrite O; now left).
      apply filter_In in Io. tauto. }
    cbn [map sort_values_desc isort insert snd].
    destruct b; simpl negb in *.
    + destruct (count false flags <=? count true flags) eqn:L;
        [apply Nat.leb_le in L; rewrite Nat.max_l, Nat.min_r by lia
        |apply Nat.leb_gt in L; rewrite Nat.max_r, Nat.min_l by lia];
        cbn [map snd filter];
        rewrite (proj2 (Nat.ltb_lt _ _) Cb), (proj2 (Nat.ltb_lt _ _) Cn);
        reflexivity.
    + destruct (count true flags <=? count false flags) eqn:L;
        [apply Nat.leb_le in L; rewrite Nat.max_r, Nat.min_l by lia
        |apply Nat.leb_gt in L; rewrite Nat.max_l, Nat.min_r by lia];
        cbn [map snd filter];
        rewrite (proj2 (Nat.ltb_lt _ _) Cb), (proj2 (Nat.ltb_lt _ _) Cn);
        reflexivity.
Qed.

Lemma count_flags (p : list cell -> bool) (b : bool) (l : list (list cell)) :
  count b (map p l) =
  List.length (filter (fun r => Bool.eqb b (p r)) l).
Proof.
  rewrite count_length, filter_map_comm. apply length_map.
Qed.

(** The pie chart of the toss pairs the fixed labels [Won Match],
    [Lost Match] with the counts of the toss table in the order of the
    table, larger count first.  So its first value, which stands under
    [Won Match], is the number of decided matches the toss winner lost
    whenever that number is the larger one. *)
Theorem toss_pie_slices (matches : DataFrame) :
  In "winner" (columns matches) -> In "toss_winner" (columns matches) ->
  Home.toss_pie matches =
  Ok (["Won Match"; "Lost Match"],
      filter (Nat.ltb 0)
        [Nat.max (toss_wins matches) (toss_losses matches);
         Nat.min (toss_wins matches) (toss_losses matches)]) /\
  (toss_wins matches < toss_losses matches ->
   Home.toss_pie matches =
   Ok (["Won Match"; "Lost Match"],
       toss_losses matches :: filter (Nat.ltb 0) [toss_wins matches])).
Proof.
  intros Iw It.
  assert (E : Home.toss_pie matches =
              Ok (["Won Match"; "Lost Match"],
                  filter (Nat.ltb 0)
                    [Nat.max (toss_wins matches) (toss_losses matches);
                     Nat.min (toss_wins matches) (toss_losses matches)])).
  { unfold Home.toss_pie. rewrite (toss_flags_rows _ Iw It). simpl rbind.
    rewrite value_counts_bool, !count_flags.
    rewrite (filter_ext (fun r => Bool.eqb true (toss_won matches r))
               (toss_won matches))
      by (intros r; now destruct (toss_won matches r)).
    rewrite (filter_ext (fun r => Bool.eqb false (toss_won matches r))
               (fun r => negb (toss_won matches r)))
      by (intros r; now destruct (toss_won matches r)).
    reflexivity. }
  split; [exact E|].
  intros L. rewrite E. rewrite Nat.max_r, Nat.min_l by lia.
  cbn [filter]. destruct (0 <? toss_losses matches) eqn:P; [reflexivity|].
  apply Nat.ltb_ge in P. lia.
Qed.

Lemma toss_pie_slices_witness :
  Home.toss_pie
    (mkDF ["toss_winner"; "winner"]
       [[Str "A"; Str "B"]; [Str "A"; Str "B"]; [Str "A"; Str "A"]]) =
  Ok (["Won Match"; "Lost Match"], [2; 1]).
Proof.
  set (t := mkDF ["toss_winner"; "winner"]
              [[Str "A"; Str "B"]; [Str "A"; Str "B"]; [Str "A"; Str "A"]]).
  assert (Iw : In "winner" (columns t)) by (simpl; tauto).
  assert (It : In "toss_winner" (columns t)) by (simpl; tauto).
  destruct (toss_pie_slices t Iw It) as [_ L].
  apply L. vm_compute. lia.
Defined.

(* ================================================================== *)
(** * The first rows of a frequency table *)

Section TopCounts.
Context {K : Type} {H : Hashable K} {HL : HashableLaws H}.

Lemma sum_counts_app (t1 t2 : list (K * nat)) :
  sum_counts (t1 ++ t2) = sum_counts t1 + sum_counts t2.
Proof.
  unfold sum_counts. rewrite map_app. induction (map snd t1); simpl; lia.
Qed.

Lemma sum_counts_positive (t : list (K * nat)) :
  t <> [] -> Forall (fun e => 0 < snd e) t -> 0 < sum_counts t.
Proof.
  destruct t as [|e t]; [easy|]. intros _ P.
  inversion P; subst. unfold sum_counts. simpl. lia.
Qed.

Lemma head_value_counts_length (n : nat) (s : list K) :
  List.length (head n (value_counts s)) = Nat.min n (nunique s).
Proof.
  unfold head. now rewrite length_firstn, value_counts_length.
Qed.

Lemma head_value_counts_In (n : nat) (s : list K) (k : K) (c : nat) :
  In (k, c) (head n (value_counts s)) ->
  In k s /\ key_isna k = false /\ c = count k s /\ 0 < c.
Proof.
  intros I. apply firstn_incl_In, value_counts_In in I.
  destruct I as [Ik [N ->]]. repeat split; trivial. now apply count_in.
Qed.

(** A value without a row in the first [n] has no more occurrences than
    any value that has one. *)
Lemma head_value_counts_top (n : nat) (s : list K) (k : K) :
  In k s -> key_isna k = false ->
  In (k, count k s) (head n (value_counts s)) \/
  (List.length (head n (value_counts s)) = n /\
   Forall (fun e => count k s <= snd e) (head n (value_counts s))).
Proof.
  intros Ik N. unfold head.
  assert (I : In (k, count k s) (value_counts s))
    by (apply value_counts_In; tauto).
  rewrite <- (firstn_skipn n (value_counts s)) in I.
  apply in_app_or in I. destruct I as [I|I]; [now left|right].
  split; [now apply skipn_In_full with (x := (k, count k s))|].
  rewrite Forall_forall. intros e Ie.
  assert (R : ranked_before s e (k, count k s)).
  { eapply SSorted_app_before; [|exact Ie|exact I].
    rewrite firstn_skipn. apply value_counts_ranked. }
  destruct R as [L|[E _]]; simpl in *; lia.
Qed.

Lemma head_value_counts_sum (n : nat) (s : list K) :
  sum_counts (head n (value_counts s)) <= List.length (dropna s) /\
  (nunique s <= n ->
   sum_counts (head n (value_counts s)) = List.length (dropna s)) /\
  (n < nunique s ->
   sum_counts (head n (value_counts s)) < List.length (dropna s)).
Proof.
  assert (S : sum_counts (value_counts s) =
              sum_counts (firstn n (value_counts s)) +
              sum_counts (skipn n (value_counts s))).
  { now rewrite <- sum_counts_app, firstn_skipn. }
  rewrite <- (value_counts_sum s), S. unfold head.
  split; [lia|]. split.
  - intros L. rewrite <- value_counts_length in L.
    rewrite (skipn_all2 _ L). unfold sum_counts. simpl. lia.
  - intros L. rewrite <- value_counts_length in L.
    assert (P : 0 < sum_counts (skipn n (value_counts s))); [|lia].
    apply sum_counts_positive.
    + intros E. apply (f_equal (@List.length _)) in E.
      rewrite length_skipn in E. simpl in E. lia.
    + rewrite Forall_forall. intros [k c] I.
      assert (I' : In (k, c) (value_counts s)).
      { rewrite <- (firstn_skipn n (value_counts s)). apply in_or_app.
        now right. }
      apply value_counts_In in I'. destruct I' as [Ik [_ ->]].
      simpl. now apply count_in.
Qed.
End TopCounts.

(* ================================================================== *)
(** * Further properties of the team analysis page *)

(** A column of the wins of a team. *)
Lemma team_wins_column (matches : DataFrame) (t : cell) (name : string) :
  In "winner" (columns matches) -> In name (columns matches) ->
  exists tw,
    TeamAnalysis.team_wins matches t = Ok tw /\
    getitem tw name =
    Ok (map (field matches name) (filter (won_by matches t) (rows matches))).
Proof.
  intros Iw In_name. eexists. split; [now apply team_wins_rows|].
  now rewrite getitem_field.
Qed.

Lemma count_wins_with (matches : DataFrame) (t : cell) (name : string)
  (k : cell) :
  count k
    (map (field matches name) (filter (won_by matches t) (rows matches))) =
  wins_with matches t name k.
Proof.
  rewrite count_map_filter, filter_filter. reflexivity.
Qed.

Lemma positive_count_In (k : cell) (s : Series) : 0 < count k s -> In k s.
Proof.
  intros P. destruct (in_dec key_eq_dec k s) as [I|N]; trivial.
  rewrite (count_notin _ _ N) in P. lia.
Qed.

(** The season chart of a team has one point per season in which the team
    has a win, in ascending order of season, with the number of the team's
    wins of that season; wins in a match without a season are in no
    point. *)
Theorem season_wins_groups (matches : DataFrame) (t : cell) :
  In "winner" (columns matches) -> In "season" (columns matches) ->
  exists groups,
    TeamAnalysis.season_wins matches t = Ok groups /\
    NoDup (map fst groups) /\
    StronglySorted (fun a b => cell_leb a b = true) (map fst groups) /\
    (forall k c,
        In (k, c) groups <->
        k <> NaN /\ 0 < c /\ c = wins_with matches t "season" k) /\
    sum_counts groups =
    List.length
      (filter
         (fun r => won_by matches t r && notna (field matches "season" r))
         (rows matches)).
Proof.
  intros Iw Is.
  destruct (team_wins_column matches t "season" Iw Is) as [tw [Etw Gs]].
  unfold TeamAnalysis.season_wins. rewrite Etw. simpl rbind. rewrite Gs.
  simpl rbind. eexists. split; [reflexivity|].
  split; [apply groupby_size_NoDup|].
  split; [apply groupby_size_sorted|].
  split.
  - intros k c. rewrite groupby_size_In, count_wins_with. split.
    + intros [I [N ->]]. repeat split; trivial.
      rewrite <- count_wins_with. now apply count_in.
    + intros [N [P ->]]. repeat split; trivial.
      apply positive_count_In. now rewrite count_wins_with.
  - rewrite groupby_size_sum, filter_map_comm, length_map.
    now rewrite filter_filter.
Qed.

Lemma season_wins_groups_witness :
  TeamAnalysis.season_wins sample_loaded_matches (Str "A") =
  Ok [(Str "2020", 1)].
Proof.
  assert (Iw : In "winner" (columns sample_loaded_matches)) by (simpl; tauto).
  assert (Is : In "season" (columns sample_loaded_matches)) by (simpl; tauto).
  destruct (season_wins_groups sample_loaded_matches (Str "A") Iw Is)
    as [groups [E _]].
  rewrite E. f_equal. injection E as <-. reflexivity.
Defined.

(** The venue chart of a team shows at most five venues, each with the
    number of the team's wins there; a venue with wins that is not shown
    has no more wins than any venue shown. *)
Theorem venue_performance_top (matches : DataFrame) (t : cell) :
  In "winner" (columns matches) -> In "venue" (columns matches) ->
  exists top,
    TeamAnalysis.venue_performance matches t = Ok top /\
    List.length top <= 5 /\
    (forall k c,
        In (k, c) top ->
        k <> NaN /\ 0 < c /\ c = wins_with matches t "venue" k) /\
    (forall k,
        k <> NaN -> 0 < wins_with matches t "venue" k ->
        In (k, wins_with matches t "venue" k) top \/
        (List.length top = 5 /\
         Forall (fun e => wins_with matches t "venue" k <= snd e) top)).
Proof.
  intros Iw Iv.
  destruct (team_wins_column matches t "venue" Iw Iv) as [tw [Etw Gv]].
  unfold TeamAnalysis.venue_performance. rewrite Etw. cbn [rbind].
  rewrite Gv. cbn [rbind]. eexists. split; [reflexivity|].
  set (venue := map (field matches "venue")
                  (filter (won_by matches t) (rows matches))).
  split; [rewrite head_value_counts_length; lia|].
  split.
  - intros k c I. apply head_value_counts_In in I.
    destruct I as [_ [N [-> P]]]. simpl in N. rewrite notna_iff in N.
    unfold venue in *. now rewrite count_wins_with in *.
  - intros k N P. rewrite <- !(count_wins_with matches t "venue" k) in *.
    fold venue in P |- *.
    apply head_value_counts_top.
    + now apply positive_count_In.
    + simpl. now apply notna_iff.
Qed.

Lemma venue_performance_top_witness :
  TeamAnalysis.venue_performance sample_loaded_matches (Str "A") =
  Ok [(Str "V1", 1)].
Proof.
  assert (Iw : In "winner" (columns sample_loaded_matches)) by (simpl; tauto).
  assert (Iv : In "venue" (columns sample_loaded_matches)) by (simpl; tauto).
  destruct (venue_performance_top sample_loaded_matches (Str "A") Iw Iv)
    as [top [E _]].
  rewrite E. f_equal. injection E as <-. reflexivity.
Defined.

Lemma filter_split_length {A} (p q : A -> bool) (l : list A) :
  List.length (filter p l) =
  List.length (filter (fun x => p x && q x) l) +
  List.length (filter (fun x => p x && negb (q x)) l).
Proof.
  induction l as [|x l IH]; simpl; [reflexivity|].
  destruct (p x), (q x); simpl; lia.
Qed.

(** The metric "Total Losses" is the number of rows the team played and
    did not win (abandoned matches among them), less the number of rows
    that name the team as winner of a match it did not play. *)
Theorem total_losses_split (matches : DataFrame) (t : cell) :
  In "team1" (columns matches) -> In "team2" (columns matches) ->
  In "winner" (columns matches) ->
  exists tm tw,
    TeamAnalysis.team_matches matches t = Ok tm /\
    TeamAnalysis.team_wins matches t = Ok tw /\
    TeamAnalysis.total_losses tw tm =
    (Z.of_nat
       (List.length
          (filter (fun r => plays_in matches t r && negb (won_by matches t r))
             (rows matches))) -
     Z.of_nat
       (List.length
          (filter (fun r => won_by matches t r && negb (plays_in matches t r))
             (rows matches))))%Z.
Proof.
  intros I1 I2 Iw. do 2 eexists.
  split; [now apply team_matches_rows|].
  split; [now apply team_wins_rows|].
  unfold TeamAnalysis.total_losses, len. cbn [rows].
  rewrite (filter_split_length (plays_in matches t) (won_by matches t)).
  rewrite (filter_split_length (won_by matches t) (plays_in matches t)).
  rewrite (filter_ext (fun x => won_by matches t x && plays_in matches t x)
             (fun x => plays_in matches t x && won_by matches t x))
    by (intros x; apply andb_comm).
  lia.
Qed.

Lemma total_losses_split_witness :
  exists tm tw,
    TeamAnalysis.team_matches odd_matches (Str "C") = Ok tm /\
    TeamAnalysis.team_wins odd_matches (Str "C") = Ok tw /\
    TeamAnalysis.total_losses tw tm = (-1)%Z.
Proof.
  assert (I1 : In "team1" (columns odd_matches)) by (simpl; tauto).
  assert (I2 : In "team2" (columns odd_matches)) by (simpl; tauto).
  assert (Iw : In "winner" (columns odd_matches)) by (simpl; tauto).
  destruct (total_losses_split odd_matches (Str "C") I1 I2 Iw)
    as [tm [tw [Em [Ew L]]]].
  exists tm, tw. split; [exact Em|]. split; [exact Ew|].
  rewrite L. reflexivity.
Defined.

(** When every row won by the team is a row the team played, the win rate
    is a number between 0 and 100: the quotient of the two lengths is a
    float of at most 1, and its product with 100, rounded to the nearest
    float, is at most 100. *)
Theorem win_rate_bounds (matches : DataFrame) (t : cell) :
  In "team1" (columns matches) -> In "team2" (columns matches) ->
  In "winner" (columns matches) ->
  (forall r, In r (rows matches) ->
             won_by matches t r = true -> plays_in matches t r = true) ->
  exists v,
    TeamAnalysis.win_rate matches t = Ok v /\
    py_finite v = true /\
    (inject_Z 0 <= py_value v)%Q /\ (py_value v <= inject_Z 100)%Q.
Proof.
  intros I1 I2 Iw P.
  unfold TeamAnalysis.win_rate.
  rewrite (team_matches_rows matches t I1 I2), (team_wins_rows matches t Iw).
  cbn [rbind].
  set (tm := mkDF _ (filter (plays_in matches t) _)).
  set (tw := mkDF _ (filter (won_by matches t) _)).
  assert (L : len tw <= len tm).
  { unfold len, tw, tm. cbn [rows]. now apply filter_length_impl. }
  unfold TeamAnalysis.win_rate_of.
  destruct (0 <? len tm) eqn:E.
  - apply Nat.ltb_lt in E.
    destruct (py_truediv_unit E L) as [-> U]. cbn [rbind].
    eexists. split; [reflexivity|].
    unfold py_mul_int, py_finite, py_value.
    apply percent_float_value, SFmul_100_unit, U.
  - eexists. split; [reflexivity|]. split; [reflexivity|].
    split; unfold Qle; simpl; lia.
Qed.

Lemma win_rate_bounds_witness :
  exists v,
    TeamAnalysis.win_rate third_matches (Str "A") = Ok v /\
    v = PyFloat (S754_finite false 4691249611844266 (-47)) /\
    py_finite v = true /\
    (inject_Z 0 <= py_value v)%Q /\ (py_value v <= inject_Z 100)%Q.
Proof.
  assert (I1 : In "team1" (columns third_matches)) by (simpl; tauto).
  assert (I2 : In "team2" (columns third_matches)) by (simpl; tauto).
  assert (Iw : In "winner" (columns third_matches)) by (simpl; tauto).
  assert (P : forall r, In r (rows third_matches) ->
                        won_by third_matches (Str "A") r = true ->
                        plays_in third_matches (Str "A") r = true).
  { intros r Ir. simpl in Ir.
    repeat (destruct Ir as [<- | Ir]; [vm_compute; congruence|]).
    destruct Ir. }
  destruct (win_rate_bounds third_matches (Str "A") I1 I2 Iw P)
    as [v [E B]].
  exists v. split; [exact E|]. split; [|exact B].
  vm_compute in E. now injection E as <-.
Defined.

(** ** The order of the team selector *)

Lemma is_strb_iff (c : cell) : is_strb c = true <-> is_str c.
Proof.
  destruct c; simpl; split; try discriminate; try (intros [s E]; discriminate).
  - intros _. now eexists.
  - reflexivity.
Qed.

Lemma py_lt_ok_kind (a b : cell) (v : bool) :
  py_lt a b = Ok v -> is_strb a = is_strb b.
Proof. destruct a, b; simpl; congruence. Qed.

Lemma py_lt_raise (a b : cell) (e : exn) :
  py_lt a b = Raise e -> e = TypeError.
Proof. destruct a, b; simpl; congruence. Qed.

Lemma py_insert_raise (x : cell) (l : list cell) (e : exn) :
  py_insert x l = Raise e -> e = TypeError.
Proof.
  induction l as [|y l IH]; simpl; [discriminate|].
  destruct (py_lt y x) as [[|]|e'] eqn:E; simpl.
  - destruct (py_insert x l); simpl; [discriminate|].
    intros [= <-]. now apply IH.
  - discriminate.
  - intros [= <-]. now apply py_lt_raise in E.
Qed.

Lemma py_sorted_raise (l : list cell) (e : exn) :
  py_sorted l = Raise e -> e = TypeError.
Proof.
  induction l as [|x l IH]; simpl; [discriminate|].
  destruct (py_sorted l) as [s|e']; simpl.
  - apply py_insert_raise.
  - intros [= <-]. now apply IH.
Qed.

(** [sorted] yields a list only when all the values are strings or none
    is. *)
Lemma py_sorted_ok_kind (l s : list cell) :
  py_sorted l = Ok s ->
  forall a b, In a l -> In b l -> is_strb a = is_strb b.
Proof.
  revert s. induction l as [|x l IH]; simpl; intros s E a b Ia Ib; [easy|].
  destruct (py_sorted l) as [s'|e] eqn:Es; simpl in E; [|discriminate].
  specialize (IH s' eq_refl).
  assert (Kx : forall y, In y l -> is_strb y = is_strb x).
  { intros y Iy. destruct s' as [|z s''].
    - apply (Permutation_in _ (Permutation_sym (py_sorted_perm _ Es))) in Iy.
      destruct Iy.
    - simpl in E. destruct (py_lt z x) as [v|e] eqn:Ez; [|discriminate].
      rewrite (IH y z Iy), (py_lt_ok_kind _ _ Ez); trivial.
      apply (Permutation_in _ (py_sorted_perm _ Es)). now left. }
  destruct Ia as [<-|Ia], Ib as [<-|Ib]; trivial.
  - symmetry. now apply Kx.
  - now apply Kx.
  - now apply IH.
Qed.

(** A match without [team1] among matches with team names breaks the team
    selector: [sorted] compares the missing value with a name and raises
    [TypeError]; so does a number among the names. *)
Theorem teams_type_error (matches : DataFrame) (team1 : Series)
  (s : string) (c : cell) :
  getitem matches "team1" = Ok team1 ->
  In (Str s) team1 -> In c team1 -> ~ is_str c ->
  TeamAnalysis.teams matches = Raise TypeError.
Proof.
  intros G Is Ic Nc. unfold TeamAnalysis.teams. rewrite G. cbn [rbind].
  destruct (py_sorted (unique team1)) as [options|e] eqn:E.
  - exfalso. apply Nc, is_strb_iff.
    rewrite (py_sorted_ok_kind _ E c (Str s)); trivial; now apply unique_In.
  - now rewrite (py_sorted_raise _ E).
Qed.

Lemma teams_type_error_witness :
  TeamAnalysis.teams (mkDF ["team1"] [[Str "A"]; [NaN]]) = Raise TypeError.
Proof.
  assert (Is : In (Str "A") [Str "A"; NaN]) by (simpl; tauto).
  assert (Ic : In NaN [Str "A"; NaN]) by (simpl; tauto).
  assert (Nc : ~ is_str NaN) by (intros [s E]; discriminate).
  exact (@teams_type_error (mkDF ["team1"] [[Str "A"]; [NaN]])
           [Str "A"; NaN] "A" NaN eq_refl Is Ic Nc).
Defined.

Lemma py_insert_sorted (x : cell) (l r : list cell) :
  is_str x -> Forall is_str l ->
  StronglySorted (fun a b => cell_leb a b = true) l ->
  py_insert x l = Ok r ->
  StronglySorted (fun a b => cell_leb a b = true) r.
Proof.
  intros [s ->] Hl HS. revert r.
  induction HS as [|y l HS IH Hall]; simpl; intros r.
  - intros [= <-]. repeat constructor.
  - inversion Hl as [|? ? [t ->] Hl']; subst. simpl.
    destruct (String.ltb t s) eqn:L.
    + destruct (py_insert (Str s) l) as [r'|e] eqn:E; simpl; [|discriminate].
      intros [= <-]. constructor; [now apply IH|].
      rewrite Forall_forall in *. intros z Hz.
      apply (Permutation_in _ (py_insert_perm _ _ E)) in Hz.
      destruct Hz as [<-|Hz]; [|now apply Hall].
      simpl. now apply string_ltb_leb.
    + intros [= <-]. constructor; [now constructor|].
      assert (Lst : cell_leb (Str s) (Str t) = true)
        by (simpl; now apply string_not_ltb_leb).
      constructor; [exact Lst|].
      rewrite Forall_forall in *. intros z Hz.
      apply (cell_leb_trans _ _ _ Lst). now apply Hall.
Qed.

Lemma py_sorted_sorted (l s : list cell) :
  Forall is_str l -> py_sorted l = Ok s ->
  StronglySorted (fun a b => cell_leb a b = true) s.
Proof.
  intros Hl. revert s. induction Hl as [|x l Hx Hl IH]; simpl; intros s.
  - intros [= <-]. constructor.
  - destruct (py_sorted l) as [s'|e] eqn:E; simpl; [|discriminate].
    apply py_insert_sorted; trivial; [|now apply IH].
    rewrite Forall_forall in *. intros y Hy. apply Hl.
    now apply (Permutation_in _ (py_sorted_perm _ E)).
Qed.

Lemma SSorted_strict (l : list cell) :
  NoDup l -> StronglySorted (fun a b => cell_leb a b = true) l ->
  StronglySorted (fun a b => cell_leb a b = true /\ a <> b) l.
Proof.
  intros ND HS. induction HS as [|a l HS IH Hall]; constructor.
  - apply IH. now inversion ND.
  - inversion ND as [|? ? Na _]; subst.
    rewrite Forall_forall in *. intros b Ib. split; [now apply Hall|].
    intros ->. contradiction.
Qed.

(** When [team1] holds team names only, the selector offers each name
    once, in strictly ascending order of the names (by code point). *)
Theorem teams_sorted (matches : DataFrame) (team1 : Series) :
  getitem matches "team1" = Ok team1 ->
  Forall is_str team1 ->
  exists options,
    TeamAnalysis.teams matches = Ok options /\
    (forall k, In k options <-> In k team1) /\
    StronglySorted (fun a b => cell_leb a b = true /\ a <> b) options.
Proof.
  intros G S.
  assert (Su : Forall is_str (unique team1)).
  { rewrite Forall_forall in *. intros k Ik. apply S. now apply unique_In. }
  unfold TeamAnalysis.teams. rewrite G. cbn [rbind].
  destruct (py_sorted_strs Su) as [options E]. rewrite E.
  exists options. split; [reflexivity|].
  pose proof (py_sorted_perm _ E) as Pm.
  split.
  - intros k. rewrite <- (unique_In k team1).
    split; apply Permutation_in; [exact Pm | now symmetry].
  - apply SSorted_strict.
    + apply (Permutation_NoDup (Permutation_sym Pm)), unique_NoDup.
    + now apply (py_sorted_sorted Su).
Qed.

Lemma teams_sorted_witness :
  TeamAnalysis.teams odd_matches = Ok [Str "A"; Str "C"].
Proof.
  assert (S : Forall is_str [Str "C"; Str "A"]).
  { repeat constructor; now eexists. }
  destruct (teams_sorted odd_matches (team1 := [Str "C"; Str "A"])
              eq_refl S) as [options [E _]].
  rewrite E. f_equal. injection E as <-. reflexivity.
Defined.

(* ================================================================== *)
(** * Further properties of the venue, awards and trends tables *)

Lemma getitem_length (df : DataFrame) (name : string) (s : Series) :
  getitem df name = Ok s -> List.length s = len df.
Proof.
  unfold getitem, column, len.
  destruct (col_index name (columns df)); [|discriminate].
  intros [= <-]. apply length_map.
Qed.

Lemma dropna_length (s : Series) :
  List.length (dropna s) + count NaN s = List.length s.
Proof.
  induction s as [|c s IH]; simpl; [reflexivity|].
  destruct c; simpl; lia.
Qed.

(** The venue table has as many rows as the metric "Total Venues" says,
    up to ten; a row counts the matches of its venue, and a venue that is
    not shown has no more matches than any venue shown. *)
Theorem top_venues_rows (matches : DataFrame) (venue : Series) :
  getitem matches "venue" = Ok venue ->
  exists top total,
    Venue.top_venues matches = Ok top /\
    Home.total_venues matches = Ok total /\
    List.length top = Nat.min 10 total /\
    (forall k c,
        In (k, c) top -> k <> NaN /\ 0 < c /\ c = count k venue) /\
    (forall k,
        In k venue -> k <> NaN ->
        In (k, count k venue) top \/
        (List.length top = 10 /\
         Forall (fun e => count k venue <= snd e) top)).
Proof.
  intros G. unfold Venue.top_venues, Home.total_venues. rewrite G.
  cbn [rbind]. do 2 eexists. split; [reflexivity|]. split; [reflexivity|].
  split; [apply head_value_counts_length|]. split.
  - intros k c I. apply head_value_counts_In in I.
    destruct I as [_ [N [-> P]]]. simpl in N. now rewrite notna_iff in N.
  - intros k Ik N. apply head_value_counts_top; trivial.
    simpl. now apply notna_iff.
Qed.

Lemma top_venues_rows_witness :
  Venue.top_venues sample_loaded_matches = Ok [(Str "V1", 2); (Str "V2", 1)]
  /\ Home.total_venues sample_loaded_matches = Ok 2.
Proof.
  destruct (top_venues_rows sample_loaded_matches
              (venue := [Str "V1"; Str "V1"; Str "V2"]) eq_refl)
    as [top [total [E [T _]]]].
  split; [rewrite E | rewrite T]; f_equal;
    [injection E as <- | injection T as <-]; reflexivity.
Defined.

(** The city pie shows the ten most frequent cities.  Its slices add up to
    the number of matches with a city when there are at most ten cities,
    and to fewer than that when there are more. *)
Theorem city_matches_coverage (matches : DataFrame) (city : Series) :
  getitem matches "city" = Ok city ->
  exists top,
    Venue.city_matches matches = Ok top /\
    List.length top = Nat.min 10 (nunique city) /\
    sum_counts top + count NaN city <= len matches /\
    (nunique city <= 10 -> sum_counts top + count NaN city = len matches) /\
    (10 < nunique city -> sum_counts top + count NaN city < len matches).
Proof.
  intros G. unfold Venue.city_matches. rewrite G. cbn [rbind].
  eexists. split; [reflexivity|].
  split; [apply head_value_counts_length|].
  rewrite <- (getitem_length _ _ G), <- (dropna_length city).
  destruct (head_value_counts_sum 10 city) as [L [E S]].
  split; [lia|]. split; intros P; [rewrite (E P) | specialize (S P)]; lia.
Qed.

Lemma city_matches_coverage_witness :
  exists top,
    Venue.city_matches sample_loaded_matches = Ok top /\
    sum_counts top + 0 = 3.
Proof.
  destruct (city_matches_coverage sample_loaded_matches
              (city := [Str "Pune"; Str "Unknown"; Str "Pune"]) eq_refl)
    as [top [E [_ [_ [Full _]]]]].
  exists top. split; [exact E|]. apply Full. vm_compute. lia.
Defined.

(** The result table has a row per result type that occurs, with the
    number of matches of that type; matches without a result are in no
    row, so the rows add up to the matches less those without a result. *)
Theorem result_type_rows (matches : DataFrame) (res : Series) :
  getitem matches "result" = Ok res ->
  exists table,
    Trends.result_type matches = Ok table /\
    NoDup (map fst table) /\
    (forall k c,
        In (k, c) table <-> k <> NaN /\ 0 < c /\ c = count k res) /\
    sum_counts table + count NaN res = len matches.
Proof.
  intros G. unfold Trends.result_type. rewrite G. cbn [rbind].
  eexists. split; [reflexivity|]. split.
  { rewrite (Permutation_map fst (value_counts_perm res)), tally_keys.
    apply unique_NoDup. }
  split.
  - intros k c. rewrite value_counts_In. simpl. rewrite notna_iff. split.
    + intros [I [N ->]]. repeat split; trivial. now apply count_in.
    + intros [N [P ->]]. repeat split; trivial. now apply positive_count_In.
  - rewrite value_counts_sum, <- (getitem_length _ _ G).
    apply dropna_length.
Qed.

Lemma result_type_rows_witness :
  exists table,
    Trends.result_type sample_loaded_matches = Ok table /\
    sum_counts table + 1 = 3.
Proof.
  destruct (result_type_rows sample_loaded_matches
              (res := [Str "runs"; NaN; Str "wickets"]) eq_refl)
    as [table [E [_ [_ S]]]].
  exists table. split; [exact E | exact S].
Defined.

(** The dismissal chart shows at most eight kinds of dismissal, each with
    the number of deliveries of that kind; deliveries without a dismissal
    kind are not counted, and a kind that is not shown has no more
    deliveries than any kind shown. *)
Theorem dismissal_types_rows (deliveries : DataFrame) (kind : Series) :
  getitem deliveries "dismissal_kind" = Ok kind ->
  exists top,
    Trends.dismissal_types deliveries = Ok top /\
    List.length top = Nat.min 8 (nunique kind) /\
    (forall k c,
        In (k, c) top -> k <> NaN /\ 0 < c /\ c = count k kind) /\
    (forall k,
        In k kind -> k <> NaN ->
        In (k, count k kind) top \/
        (List.length top = 8 /\
         Forall (fun e => count k kind <= snd e) top)) /\
    sum_counts top + count NaN kind <= len deliveries.
Proof.
  intros G. unfold Trends.dismissal_types. rewrite G. cbn [rbind].
  eexists. split; [reflexivity|].
  split; [apply head_value_counts_length|]. split.
  { intros k c I. apply head_value_counts_In in I.
    destruct I as [_ [N [-> P]]]. simpl in N. now rewrite notna_iff in N. }
  split.
  { intros k Ik N. apply head_value_counts_top; trivial.
    simpl. now apply notna_iff. }
  rewrite <- (getitem_length _ _ G), <- (dropna_length kind).
  destruct (head_value_counts_sum 8 kind) as [L _]. lia.
Qed.

Lemma dismissal_types_rows_witness :
  Trends.dismissal_types sample_deliveries =
  Ok [(Str "run out", 1); (Str "bowled", 1)].
Proof.
  destruct (dismissal_types_rows sample_deliveries
              (kind := [NaN; Str "run out"; Str "bowled"]) eq_refl)
    as [top [E _]].
  rewrite E. f_equal. injection E as <-. reflexivity.
Defined.

(** ** The sentinel rows of the tables of a loaded match table *)

Lemma count_fill_sentinel (t : string) (s : Series) :
  count (Str t) (map (fill (Str t)) s) = count (Str t) s + count NaN s.
Proof.
  induction s as [|c s IH]; simpl; [reflexivity|].
  rewrite IH. destruct c; simpl; [rewrite String.eqb_refl|..]; lia.
Qed.

Lemma count_fill_other (v k : cell) (s : Series) :
  k <> v -> k <> NaN -> count k (map (fill v) s) = count k s.
Proof.
  intros Nv Nn. induction s as [|c s IH]; simpl; [reflexivity|].
  rewrite IH. f_equal. destruct c; unfold fill; simpl; trivial.
  destruct (cell_eqb k v) eqn:E; [apply cell_eqb_eq in E; contradiction|].
  destruct k; [contradiction | reflexivity | reflexivity].
Qed.

Lemma sentinel_is_str (name : string) (v : cell) :
  sentinel name = Some v -> exists t, v = Str t.
Proof.
  unfold sentinel.
  repeat match goal with
         | |- context [String.eqb name ?x] => destruct (String.eqb name x)
         end; intros [= <-]; now eexists.
Qed.

(** For every run of the loader that returns the tables, in a column that
    the loader normalizes: on pandas 2 the sentinel occurs once for every
    missing cell of the file and once for every cell that held the sentinel
    text already, and every other value occurs as in the file, so the
    frequency table of the column accounts for every match; on pandas 3 the
    column is as it was read, and the frequency table leaves out the
    matches whose cell is missing.  The winners, city and awards tables are
    the first rows of these frequency tables. *)
Theorem sentinel_bucket (pandas : pandas_version)
  (read_csv : string -> result DataFrame)
  (m m' d' : DataFrame) (name : string) (v : cell) (s : Series) :
  read_csv "matches.csv" = Ok m ->
  wf_frame m ->
  load_data pandas read_csv = ((Some m', Some d'), None) ->
  sentinel name = Some v ->
  getitem m name = Ok s ->
  exists s',
    getitem m' name = Ok s' /\
    (pandas = pandas_2 ->
     count v s' = count v s + count NaN s /\
     (forall k, k <> v -> k <> NaN -> count k s' = count k s) /\
     (forall c,
         In (v, c) (value_counts s') <->
         0 < c /\ c = count v s + count NaN s) /\
     sum_counts (value_counts s') = len m') /\
    (pandas = pandas_3 ->
     s' = s /\
     sum_counts (value_counts s') + count NaN s = len m') /\
    (forall n,
        (name = "winner" ->
         Home.top_winners n m' = Ok (head n (value_counts s'))) /\
        (name = "city" ->
         Venue.city_matches m' = Ok (head 10 (value_counts s'))) /\
        (name = "player_of_match" ->
         PlayerStats.top_pom n m' = Ok (head n (value_counts s')))).
Proof.
  intros Hm WF E Sv G.
  destruct (load_data_success_inv pandas read_csv E)
    as (m0 & d0 & ic & iw & ip & ii & js & ik &
        Hm0 & Hd0 & Hc & Hw & Hp & Hi & Hs & Hk & A & _ & _ & Ed').
  rewrite Hm in Hm0. injection Hm0 as <-.
  apply after_fillna_inv in A.
  assert (T : forall s',
             getitem m' name = Ok s' ->
             forall n,
               (name = "winner" ->
                Home.top_winners n m' = Ok (head n (value_counts s'))) /\
               (name = "city" ->
                Venue.city_matches m' = Ok (head 10 (value_counts s'))) /\
               (name = "player_of_match" ->
                PlayerStats.top_pom n m' = Ok (head n (value_counts s')))).
  { intros s' G' n.
    unfold Home.top_winners, Venue.city_matches, PlayerStats.top_pom.
    repeat split; intros ->; now rewrite G'. }
  destruct pandas.
  - pose proof (@filled_getitem m ic iw ip name s WF Hc Hw Hp G) as G'.
    rewrite <- A in G'.
    destruct (sentinel_is_str _ Sv) as [t ->].
    assert (N : map (normalized name) s = map (fill (Str t)) s).
    { apply map_ext. intros c. unfold normalized. now rewrite Sv. }
    rewrite N in G'. clear N.
    exists (map (fill (Str t)) s). split; [exact G'|].
    split; [|split; [discriminate | now apply T]].
    intros _.
    split; [apply count_fill_sentinel|].
    split; [intros k; apply count_fill_other|].
    split.
    { intros c. rewrite value_counts_In, count_fill_sentinel. simpl. split.
      - intros [I [_ ->]]. split; [|reflexivity].
        rewrite <- count_fill_sentinel. now apply count_in.
      - intros [P ->]. repeat split.
        apply positive_count_In. now rewrite count_fill_sentinel. }
    rewrite value_counts_sum, <- (getitem_length _ _ G').
    unfold dropna. apply f_equal, forallb_filter_id, forallb_forall.
    intros c Ic. apply in_map_iff in Ic. destruct Ic as [c0 [<- _]].
    now destruct c0.
  - subst m'. exists s. split; [exact G|].
    split; [discriminate|]. split; [|now apply T].
    intros _. split; [reflexivity|].
    rewrite value_counts_sum, <- (getitem_length _ _ G).
    apply dropna_length.
Qed.

Lemma sentinel_bucket_witness :
  (exists s',
      getitem sample_loaded_matches "player_of_match" = Ok s' /\
      count (Str "Unknown") s' = 1 /\
      sum_counts (value_counts s') = 3) /\
  (exists s',
      getitem sample_matches "player_of_match" = Ok s' /\
      s' = [Str "p"; NaN; Str "q"] /\
      sum_counts (value_counts s') + 1 = 3).
Proof.
  split.
  - destruct (@sentinel_bucket pandas_2 sample_files sample_matches
                sample_loaded_matches _ "player_of_match" (Str "Unknown")
                [Str "p"; NaN; Str "q"]
                eq_refl sample_matches_wf load_data_sample eq_refl eq_refl)
      as [s' [G [P _]]].
    destruct (P eq_refl) as [C [_ [_ S]]].
    exists s'. split; [exact G|]. split; [exact C | exact S].
  - destruct (@sentinel_bucket pandas_3 sample_files sample_matches
                sample_matches _ "player_of_match" (Str "Unknown")
                [Str "p"; NaN; Str "q"]
                eq_refl sample_matches_wf load_data_sample_unfilled
                eq_refl eq_refl)
      as [s' [G [_ [P _]]]].
    destruct (P eq_refl) as [Es S].
    exists s'. split; [exact G|]. split; [exact Es | exact S].
Defined.

(* ================================================================== *)
(** * Sums by group *)

Lemma sum_Z_app (l1 l2 : list Z) :
  sum_Z (l1 ++ l2) = (sum_Z l1 + sum_Z l2)%Z.
Proof.
  induction l1 as [|a l1 IH]; simpl; [reflexivity|]. rewrite IH. lia.
Qed.

Lemma sum_Z_perm (l l' : list Z) : Permutation l l' -> sum_Z l = sum_Z l'.
Proof.
  induction 1; simpl; lia.
Qed.

(** ** Sums in int64 *)

Lemma wrap64_small (z : Z) :
  (- 2 ^ 63 <= z < 2 ^ 63)%Z -> wrap64 z = z.
Proof.
  intros B. unfold wrap64.
  change (2 ^ 63)%Z with 9223372036854775808%Z in *.
  change (2 ^ 64)%Z with 18446744073709551616%Z.
  rewrite Z.mod_small; lia.
Qed.

Lemma wrap64_add_l (a b : Z) : wrap64 (wrap64 a + b) = wrap64 (a + b).
Proof.
  unfold wrap64. f_equal.
  replace ((a + 2 ^ 63) mod 2 ^ 64 - 2 ^ 63 + b + 2 ^ 63)%Z
    with ((a + 2 ^ 63) mod 2 ^ 64 + b)%Z by lia.
  rewrite Z.add_mod_idemp_l by easy. f_equal. lia.
Qed.

Lemma fold_add64 (l : list Z) (a : Z) :
  fold_left add64 l (wrap64 a) = wrap64 (a + sum_Z l).
Proof.
  revert a. induction l as [|x l IH]; intros a; cbn [fold_left].
  - simpl. now rewrite Z.add_0_r.
  - change (add64 (wrap64 a) x) with (wrap64 (wrap64 a + x)).
    rewrite wrap64_add_l, IH. f_equal.
    change (sum_Z (x :: l)) with (x + sum_Z l)%Z. lia.
Qed.

(** The sum of an int64 group is the sum of its numbers, wrapped. *)
Lemma fold_add64_sum (l : list Z) :
  fold_left add64 l 0%Z = wrap64 (sum_Z l).
Proof.
  exact (fold_add64 l 0).
Qed.

Lemma dtype_of_int64 (s : Series) :
  s <> [] -> Forall is_int64 s -> dtype_of s = int64.
Proof.
  intros N F. rewrite Forall_forall in F. unfold dtype_of.
  destruct s as [|c s]; [easy|].
  destruct (existsb is_strb (c :: s)) eqn:E1.
  { apply existsb_exists in E1. destruct E1 as [x [Ix Sx]].
    destruct (F x Ix) as [z [-> _]]. discriminate. }
  destruct (existsb isna (c :: s)) eqn:E2; [|reflexivity].
  apply existsb_exists in E2. destruct E2 as [x [Ix Sx]].
  destruct (F x Ix) as [z [-> _]]. discriminate.
Qed.

Lemma traverse_ok {A B} (f : A -> result B) (g : A -> B) (l : list A) :
  (forall a, In a l -> f a = Ok (g a)) -> traverse f l = Ok (map g l).
Proof.
  induction l as [|a l IH]; simpl; intros F; [reflexivity|].
  rewrite (F a (or_introl eq_refl)). simpl.
  rewrite IH; [reflexivity|]. intros b Ib. apply F. now right.
Qed.

Lemma group_values_rows (df : DataFrame) (key_name val_name : string)
  (k : cell) :
  group_values k (map (field df key_name) (rows df))
    (map (field df val_name) (rows df)) =
  map (field df val_name)
    (filter (fun r => cell_eqb k (field df key_name r)) (rows df)).
Proof.
  unfold group_values. rewrite map_map, select_map.
  now rewrite select_map_filter.
Qed.

Lemma sorted_keys_In (keys : Series) (k : cell) :
  In k (isort cell_leb (unique (dropna keys))) <-> In k keys /\ k <> NaN.
Proof.
  transitivity (In k (unique (dropna keys))).
  - split; apply Permutation_in; [|symmetry]; apply isort_perm.
  - unfold dropna. rewrite unique_In, filter_In, negb_true_iff. simpl.
    now rewrite notna_iff.
Qed.

(** The table of sums by group on an int64 column. *)
Lemma groupby_sum_rows (df : DataFrame) (key_name val_name : string) :
  (forall r, In r (rows df) -> is_int64 (field df val_name r)) ->
  groupby_sum (map (field df key_name) (rows df))
    (map (field df val_name) (rows df)) =
  Ok (map (fun k => (k, Num (wrap64 (group_total df key_name val_name k))))
        (isort cell_leb
           (unique (dropna (map (field df key_name) (rows df)))))).
Proof.
  intros F. unfold groupby_sum. apply traverse_ok. intros k Ik.
  apply sorted_keys_In in Ik. destruct Ik as [Ik _].
  rewrite dtype_of_int64.
  - cbn [sum_group rbind]. rewrite group_values_rows, map_map.
    rewrite fold_add64_sum. reflexivity.
  - destruct (rows df); [destruct Ik | discriminate].
  - apply Forall_forall. intros c Ic. apply in_map_iff in Ic.
    destruct Ic as [r [<- Ir]]. now apply F.
Qed.

Lemma sum_split_Z (g : cell -> Z) (k : cell) (l : list cell) :
  NoDup l -> (~ In k l -> g k = 0%Z) ->
  sum_Z (map g l) =
  (g k + sum_Z (map g (filter (fun x => negb (cell_eqb k x)) l)))%Z.
Proof.
  induction 1 as [|a l Na ND IH]; simpl; intros Z0.
  - rewrite Z0; tauto.
  - destruct (cell_eqb k a) eqn:E; simpl.
    + apply cell_eqb_eq in E. subst a.
      pose proof (filter_neq_notin k l Na) as F. simpl in F.
      now rewrite F.
    + rewrite IH; [lia|].
      intros N. apply Z0. intros [->|I]; [|tauto].
      rewrite (proj2 (cell_eqb_eq k k) eq_refl) in E. discriminate.
Qed.

(** The sums of the groups add up to the sum over the rows that have a
    key. *)
Lemma group_totals_sum (f : list cell -> cell) (w : list cell -> Z)
  (l : list (list cell)) :
  sum_Z
    (map (fun k => sum_Z (map w (filter (fun r => cell_eqb k (f r)) l)))
       (unique (map f l))) =
  sum_Z (map w l).
Proof.
  induction l as [|r l IH]; simpl; [reflexivity|].
  rewrite (proj2 (cell_eqb_eq (f r) (f r)) eq_refl). simpl.
  rewrite <- IH. rewrite <- Z.add_assoc. f_equal.
  rewrite (sum_split_Z
             (fun k => sum_Z (map w (filter (fun r => cell_eqb k (f r)) l)))
             (f r) (unique_NoDup (map f l))).
  - f_equal. f_equal. apply map_ext_in. intros k Ik.
    apply filter_In in Ik. destruct Ik as [_ Ik].
    apply negb_true_iff in Ik.
    destruct (cell_eqb k (f r)) eqn:E; [|reflexivity].
    apply cell_eqb_eq in E. subst k.
    rewrite (proj2 (cell_eqb_eq (f r) (f r)) eq_refl) in Ik. discriminate.
  - intros N. rewrite filter_none; [reflexivity|].
    intros a Ia. destruct (cell_eqb (f r) (f a)) eqn:E; [|reflexivity].
    exfalso. apply N. apply unique_In. apply cell_eqb_eq in E. rewrite E.
    now apply in_map.
Qed.

Lemma group_totals_present (df : DataFrame) (key_name val_name : string) :
  sum_Z
    (map (group_total df key_name val_name)
       (isort cell_leb
          (unique (dropna (map (field df key_name) (rows df)))))) =
  sum_Z
    (map (fun r => num_of (field df val_name r))
       (filter (fun r => notna (field df key_name r)) (rows df))).
Proof.
  rewrite (sum_Z_perm (Permutation_map _ (isort_perm cell_leb _))).
  rewrite <- (group_totals_sum (field df key_name)
                (fun r => num_of (field df val_name r))
                (filter (fun r => notna (field df key_name r)) (rows df))).
  unfold dropna. rewrite filter_map_comm. simpl key_isna.
  f_equal. apply map_ext_in. intros k Ik.
  unfold group_total. do 2 f_equal.
  rewrite filter_filter. apply filter_ext. intros r.
  destruct (cell_eqb k (field df key_name r)) eqn:E;
    [|now rewrite andb_false_r].
  apply cell_eqb_eq in E. rewrite <- E.
  apply unique_In, in_map_iff in Ik. destruct Ik as [r0 [<- Ir0]].
  apply filter_In in Ir0. unfold notna in *.
  destruct Ir0 as [_ ->]. reflexivity.
Qed.

(** The table of sums by group on an int64 column: one entry per present
    key, in ascending key order, with the wrapped sum of the group; the
    entries add up to the sum over the rows that have a key when no group
    leaves the int64 range. *)
Lemma groupby_sum_table (df : DataFrame) (key_name val_name : string) :
  (forall r, In r (rows df) -> is_int64 (field df val_name r)) ->
  exists groups,
    groupby_sum (map (field df key_name) (rows df))
      (map (field df val_name) (rows df)) = Ok groups /\
    Forall (fun y => exists b, snd y = Num b) groups /\
    NoDup (map fst groups) /\
    StronglySorted (fun a b => cell_leb a b = true) (map fst groups) /\
    (forall k v,
        In (k, v) groups <->
        k <> NaN /\
        In k (map (field df key_name) (rows df)) /\
        v = Num (wrap64 (group_total df key_name val_name k))) /\
    ((forall k,
         In k (map (field df key_name) (rows df)) ->
         (- 2 ^ 63 <= group_total df key_name val_name k < 2 ^ 63)%Z) ->
     sum_Z (map (fun e => num_of (snd e)) groups) =
     sum_Z
       (map (fun r => num_of (field df val_name r))
          (filter (fun r => notna (field df key_name r)) (rows df)))).
Proof.
  intros F. rewrite (groupby_sum_rows df key_name val_name F).
  eexists. split; [reflexivity|].
  set (keys := map (field df key_name) (rows df)).
  assert (Fst : map fst
                  (map (fun k =>
                          (k, Num (wrap64 (group_total df key_name
                                             val_name k))))
                     (isort cell_leb (unique (dropna keys)))) =
                isort cell_leb (unique (dropna keys))).
  { rewrite map_map. apply map_id. }
  split.
  { apply Forall_forall. intros y Iy. apply in_map_iff in Iy.
    destruct Iy as [k [<- _]]. now eexists. }
  rewrite Fst. split.
  { apply (Permutation_NoDup (Permutation_sym (isort_perm cell_leb _))).
    apply unique_NoDup. }
  split; [apply isort_sorted; [exact cell_leb_total | exact cell_leb_trans]|].
  split.
  - intros k v. rewrite in_map_iff. split.
    + intros [k0 [[= <- <-] I]]. apply sorted_keys_In in I. tauto.
    + intros [N [I ->]]. exists k. split; [reflexivity|].
      apply sorted_keys_In. tauto.
  - intros B. rewrite map_map. cbn [snd num_of].
    rewrite <- group_totals_present. fold keys. f_equal.
    apply map_ext_in. intros k Ik. apply sorted_keys_In in Ik.
    apply wrap64_small, B, Ik.
Qed.

Ltac int64_cells :=
  let r := fresh "r" in
  let I := fresh "I" in
  intros r I; simpl in I;
  repeat (destruct I as [<-|I];
          [eexists; split; [reflexivity | split; now vm_compute]|]);
  destruct I.

(** On a delivery table whose [total_runs] are integers of the int64
    range, the seasonal run totals have one entry per season that occurs,
    in ascending order of season, with the sum of the runs of the
    deliveries of that season as int64 holds it: wrapped around when it
    leaves the range.  When no total leaves the range the entries add up
    to the runs of the deliveries that have a season, so a delivery without
    one adds to no total. *)
Theorem runs_per_season_totals (deliveries : DataFrame) :
  In "season" (columns deliveries) ->
  In "total_runs" (columns deliveries) ->
  (forall r, In r (rows deliveries) ->
             is_int64 (field deliveries "total_runs" r)) ->
  exists groups,
    Trends.runs_per_season deliveries = Ok groups /\
    NoDup (map fst groups) /\
    StronglySorted (fun a b => cell_leb a b = true) (map fst groups) /\
    (forall k v,
        In (k, v) groups <->
        k <> NaN /\
        In k (map (field deliveries "season") (rows deliveries)) /\
        v = Num (wrap64 (group_total deliveries "season" "total_runs" k))) /\
    ((forall k,
         In k (map (field deliveries "season") (rows deliveries)) ->
         (- 2 ^ 63 <= group_total deliveries "season" "total_runs" k
          < 2 ^ 63)%Z) ->
     sum_Z (map (fun e => num_of (snd e)) groups) =
     sum_Z
       (map (fun r => num_of (field deliveries "total_runs" r))
          (filter (fun r => notna (field deliveries "season" r))
             (rows deliveries)))).
Proof.
  intros Is Ir F. unfold Trends.runs_per_season.
  rewrite !getitem_field by assumption. cbn [rbind].
  destruct (groupby_sum_table deliveries "season" "total_runs" F)
    as (groups & E & _ & ND & Srt & Mem & Sum).
  exists groups. split; [exact E|]. split; [exact ND|].
  split; [exact Srt|]. split; [exact Mem | exact Sum].
Qed.

Lemma runs_per_season_totals_witness :
  Trends.runs_per_season sample_loaded_deliveries =
  Ok [(Str "2020", Num 4)] /\
  Trends.runs_per_season huge_deliveries =
  Ok [(Num 2024, Num (-9223372036854775808))].
Proof.
  split.
  - assert (Is : In "season" (columns sample_loaded_deliveries))
      by (simpl; tauto).
    assert (Ir : In "total_runs" (columns sample_loaded_deliveries))
      by (simpl; tauto).
    assert (F : forall r, In r (rows sample_loaded_deliveries) ->
                          is_int64 (field sample_loaded_deliveries
                                      "total_runs" r))
      by int64_cells.
    destruct (runs_per_season_totals sample_loaded_deliveries Is Ir F)
      as [groups [E _]].
    rewrite E. f_equal. vm_compute in E. now injection E as <-.
  - assert (Is : In "season" (columns huge_deliveries)) by (simpl; tauto).
    assert (Ir : In "total_runs" (columns huge_deliveries))
      by (simpl; tauto).
    assert (F : forall r, In r (rows huge_deliveries) ->
                          is_int64 (field huge_deliveries "total_runs" r))
      by int64_cells.
    destruct (runs_per_season_totals huge_deliveries Is Ir F)
      as [groups [E _]].
    rewrite E. f_equal. vm_compute in E. now injection E as <-.
Defined.

(** ** The ranking of the batters *)

Lemma sum_geb_total (a b : cell * cell) :
  sum_geb a b = true \/ sum_geb b a = true.
Proof.
  unfold sum_geb. rewrite !Z.leb_le. lia.
Qed.

Lemma sum_geb_trans (a b c : cell * cell) :
  sum_geb a b = true -> sum_geb b c = true -> sum_geb a c = true.
Proof.
  unfold sum_geb. rewrite !Z.leb_le. lia.
Qed.

Lemma insert_by_sum_nums (x : cell * cell) (l : list (cell * cell)) :
  (exists a, snd x = Num a) ->
  Forall (fun y => exists b, snd y = Num b) l ->
  insert_by_sum x l = Ok (insert sum_geb x l).
Proof.
  intros [a Ea]. induction 1 as [|y l [b Eb] F IH]; simpl; [reflexivity|].
  rewrite Ea, Eb. simpl. unfold sum_geb. rewrite Ea, Eb. simpl.
  rewrite Z.leb_antisym. destruct (a <? b)%Z; simpl; [|reflexivity].
  now rewrite IH.
Qed.

Lemma sort_sums_desc_nums (t : list (cell * cell)) :
  Forall (fun y => exists b, snd y = Num b) t ->
  sort_sums_desc t = Ok (isort sum_geb t).
Proof.
  induction 1 as [|x t Hx F IH]; simpl; [reflexivity|].
  rewrite IH. simpl. apply insert_by_sum_nums; [exact Hx|].
  rewrite Forall_forall in *. intros y Iy. apply F.
  now apply (Permutation_in _ (isort_perm sum_geb t)).
Qed.

(** On a delivery table whose [batsman_runs] are integers of the int64
    range, the ranking of the batters has one entry per batter who faced a
    delivery, with the sum of the runs off those deliveries as int64 holds
    it (wrapped around when it leaves the range; an entry with 0 for a
    batter who scored no run), in descending order of the sums;
    [top_batsmen] is its first rows. *)
Theorem runs_by_batter_ranking (deliveries : DataFrame) (n : nat) :
  In "batter" (columns deliveries) ->
  In "batsman_runs" (columns deliveries) ->
  (forall r, In r (rows deliveries) ->
             is_int64 (field deliveries "batsman_runs" r)) ->
  exists ranking,
    PlayerStats.runs_by_batter deliveries = Ok ranking /\
    PlayerStats.top_batsmen n deliveries = Ok (firstn n ranking) /\
    NoDup (map fst ranking) /\
    (forall k v,
        In (k, v) ranking <->
        k <> NaN /\
        In k (map (field deliveries "batter") (rows deliveries)) /\
        v = Num (wrap64
                   (group_total deliveries "batter" "batsman_runs" k))) /\
    StronglySorted (fun a b => sum_geb a b = true) ranking.
Proof.
  intros Ib Ir F.
  destruct (groupby_sum_table deliveries "batter" "batsman_runs" F)
    as (sums & Es & Nums & ND & _ & Mem & _).
  assert (E : PlayerStats.runs_by_batter deliveries =
              Ok (isort sum_geb sums)).
  { unfold PlayerStats.runs_by_batter.
    rewrite !getitem_field by assumption. cbn [rbind].
    rewrite Es. cbn [rbind]. now apply sort_sums_desc_nums. }
  pose proof (isort_perm sum_geb sums) as Pm.
  exists (isort sum_geb sums). split; [exact E|].
  split; [unfold PlayerStats.top_batsmen; now rewrite E|].
  split.
  { exact (Permutation_NoDup
             (Permutation_map fst (Permutation_sym Pm)) ND). }
  split.
  - intros k v. rewrite <- Mem.
    split; apply Permutation_in; [exact Pm | now symmetry].
  - apply isort_sorted; [exact sum_geb_total | exact sum_geb_trans].
Qed.

Lemma runs_by_batter_ranking_witness :
  PlayerStats.top_batsmen 1 sample_loaded_deliveries =
  Ok [(Str "X", Num 4)] /\
  PlayerStats.top_batsmen 1 huge_deliveries =
  Ok [(Str "X", Num (-9223372036854775808))].
Proof.
  split.
  - assert (Ib : In "batter" (columns sample_loaded_deliveries))
      by (simpl; tauto).
    assert (Ir : In "batsman_runs" (columns sample_loaded_deliveries))
      by (simpl; tauto).
    assert (F : forall r, In r (rows sample_loaded_deliveries) ->
                          is_int64 (field sample_loaded_deliveries
                                      "batsman_runs" r))
      by int64_cells.
    destruct (runs_by_batter_ranking sample_loaded_deliveries 1 Ib Ir F)
      as [ranking [E [T _]]].
    rewrite T. f_equal. vm_compute in E. now injection E as <-.
  - assert (Ib : In "batter" (columns huge_deliveries)) by (simpl; tauto).
    assert (Ir : In "batsman_runs" (columns huge_deliveries))
      by (simpl; tauto).
    assert (F : forall r, In r (rows huge_deliveries) ->
                          is_int64 (field huge_deliveries "batsman_runs" r))
      by int64_cells.
    destruct (runs_by_batter_ranking huge_deliveries 1 Ib Ir F)
      as [ranking [E [T _]]].
    rewrite T. f_equal. vm_compute in E. now injection E as <-.
Defined.

(* ================================================================== *)
(** * The seasonal run totals of a loaded delivery table *)




